(** * ionize.Ion: a shallow embedding of the Ion model and its properties

    The development follows [ionize/Ion/__init__.py],
    [ionize/Ion/robinson_stokes_mobility.py], [ionize/Ion/diffusivity.py] and
    [ionize/constants.py].  Python floats are IEEE binary64 values, modelled
    by the Standard Library's [spec_float] at precision 53 with the library's
    own rounding; Python ints are [Z].  Methods that assign to attributes of
    [self] are computations in a state-and-exception monad over the object's
    attributes, which also collects the warnings emitted. *)

From Stdlib Require Import ZArith NArith List String Ascii Bool Lia Sorted.
From Stdlib Require Import Permutation.
From Stdlib Require Import DecimalString.
From Stdlib Require DecimalFacts DecimalPos.
From Stdlib Require Import SpecFloat.
Import ListNotations.
Set Warnings "-register-all".
Local Open Scope Z_scope.

(** ** Python floats *)

Module PyFloat.

Definition float := spec_float.

Definition prec : Z := 53.
Definition emax : Z := 1024.

Definition mul : float -> float -> float := SFmul prec emax.
Definition add : float -> float -> float := SFadd prec emax.
Definition sub : float -> float -> float := SFsub prec emax.
Definition fdiv : float -> float -> float := SFdiv prec emax.
Definition sqrt : float -> float := SFsqrt prec emax.
Definition opp : float -> float := SFopp.
Definition abs : float -> float := SFabs.
Definition eqb : float -> float -> bool := SFeqb.
Definition ltb : float -> float -> bool := SFltb.

Definition zero : float := S754_zero false.

Definition is_nan (x : float) : bool :=
  match x with S754_nan => true | _ => false end.

Definition is_zero (x : float) : bool :=
  match x with S754_zero _ => true | _ => false end.

(** The sign bit.  [spec_float] keeps no sign for NaN: a NaN counts as
    positive, as [float('nan')] is. *)
Definition signbit (x : float) : bool :=
  match x with
  | S754_zero s | S754_infinity s | S754_finite s _ _ => s
  | S754_nan => false
  end.

(** [with_sign s x]: the magnitude of [x] under the sign bit [s]. *)
Definition with_sign (s : bool) (x : float) : float :=
  if s then opp (abs x) else abs x.

(** [float(n)] of a positive int under sign [s]: round to nearest, ties to
    even; [None] is Python's OverflowError (int too large to convert). *)
Definition of_pos (s : bool) (p : positive) : option float :=
  let d := Z.log2 (Zpos p) + 1 in
  if d <=? prec then
    Some (S754_finite s (Pos.shiftl p (Z.to_N (prec - d))) (d - prec))
  else
    let sh := d - prec in
    let q := Z.shiftr (Zpos p) sh in
    let r := Zpos p - Z.shiftl q sh in
    let half := Z.shiftl 1 (sh - 1) in
    let q' := if (half <? r) || ((r =? half) && Z.odd q) then q + 1 else q in
    let '(m, e) := if q' =? Z.shiftl 1 prec
                   then (Z.shiftl 1 (prec - 1), sh + 1) else (q', sh) in
    if emax <? e + prec then None
    else match m with
         | Zpos m' => Some (S754_finite s m' e)
         | _ => None
         end.

Definition of_Z (n : Z) : option float :=
  match n with
  | Z0 => Some zero
  | Zpos p => of_pos false p
  | Zneg p => of_pos true p
  end.

(** The float nearest to the rational [n / d] ([d] positive), as a decimal
    literal is read: the quotient is taken with 64 extra bits and a sticky
    bit, then rounded once. *)
Definition of_ratio (n : Z) (d : positive) : float :=
  let k := Z.log2 (Zpos d) + 64 + prec in
  let N := Z.shiftl (Z.abs n) k in
  let q := N / Zpos d in
  let sticky := if N mod Zpos d =? 0 then 0 else 1 in
  match binary_normalize prec emax (2 * q + sticky) (- k - 1) false with
  | S754_finite _ m e => S754_finite (n <? 0) m e
  | S754_zero _ => S754_zero (n <? 0)
  | S754_infinity _ => S754_infinity (n <? 0)
  | S754_nan => S754_nan
  end.

(** The literal [m]e[k], for instance [dec 1035 (-13)] for [10.35e-11]. *)
Definition dec (m : Z) (k : Z) : float :=
  match k with
  | Zneg p => of_ratio m (Pos.pow 10 p)
  | _ => of_ratio (m * 10 ^ k) 1
  end.

(** Exact comparison of a float with an int, as Python compares them:
    [None] for NaN. *)
Definition cmp_Z (x : float) (n : Z) : option comparison :=
  match x with
  | S754_nan => None
  | S754_zero _ => Some (0 ?= n)
  | S754_infinity s => Some (if s then Lt else Gt)
  | S754_finite s m e =>
      let v := if s then Zneg m else Zpos m in
      Some (if 0 <=? e then (v * 2 ^ e ?= n) else (v ?= n * 2 ^ (- e)))
  end.

End PyFloat.

Abbreviation float := PyFloat.float.

(** ** Python strings *)

(** A [str] is a sequence of code points.  Texts that are ASCII by
    construction (messages, JSON documents) are kept as [string]; [str]
    reads such a text as the [str] it is. *)
Definition pystr := list N.

Fixpoint str (s : string) : pystr :=
  match s with
  | EmptyString => []
  | String c s' => N_of_ascii c :: str s'
  end.

(** ** Python numbers, exceptions and warnings *)

(** A charge state as Python holds it: an [int] or a [float]
    ([isinstance(zp, int)] tells them apart). *)
Inductive pynum :=
| PyInt (n : Z)
| PyFloat (x : float).

Inductive exn :=
| AssertionError (msg : string)
| TypeError
| ValueError
| OverflowError
| ZeroDivisionError.

Inductive result (A : Type) :=
| Ok (a : A)
| Raise (e : exn).
Arguments Ok {A} a.
Arguments Raise {A} e.

Definition rbind {A B} (r : result A) (f : A -> result B) : result B :=
  match r with
  | Ok a => f a
  | Raise e => Raise e
  end.

Declare Scope result_scope.
Delimit Scope result_scope with result.
Notation "x <- c ;; k" := (rbind c (fun x => k))
  (at level 61, c at next level, right associativity) : result_scope.

Fixpoint mapR {A B} (f : A -> result B) (l : list A) : result (list B) :=
  match l with
  | [] => Ok []
  | a :: l' => (b <- f a ;; bs <- mapR f l' ;; Ok (b :: bs))%result
  end.

Definition isinstance_int (v : pynum) : bool :=
  match v with PyInt _ => true | PyFloat _ => false end.

(** [float(v)] *)
Definition to_float (v : pynum) : result float :=
  match v with
  | PyInt n => match PyFloat.of_Z n with
               | Some x => Ok x
               | None => Raise OverflowError
               end
  | PyFloat x => Ok x
  end.

(** The sign bit [math.copysign] reads off its second argument. *)
Definition num_signbit (v : pynum) : bool :=
  match v with
  | PyInt n => n <? 0
  | PyFloat x => PyFloat.signbit x
  end.

(** [math.copysign(x, y)]: both arguments are converted to float. *)
Definition copysign (x y : pynum) : result float :=
  (fx <- to_float x ;;
   _ <- to_float y ;;
   Ok (PyFloat.with_sign (num_signbit y) fx))%result.

(** Numeric comparison of ints and floats; Python compares an int with a
    float exactly.  [None] when a NaN is involved. *)
Definition num_compare (a b : pynum) : option comparison :=
  match a, b with
  | PyInt m, PyInt n => Some (m ?= n)
  | PyFloat x, PyFloat y => SFcompare x y
  | PyFloat x, PyInt n => PyFloat.cmp_Z x n
  | PyInt n, PyFloat x => option_map CompOpp (PyFloat.cmp_Z x n)
  end.

Definition num_eqb (a b : pynum) : bool :=
  match num_compare a b with Some Eq => true | _ => false end.

Definition num_ltb (a b : pynum) : bool :=
  match num_compare a b with Some Lt => true | _ => false end.

(** [x / y] on floats raises on a zero divisor. *)
Definition truediv (x y : float) : result float :=
  if PyFloat.is_zero y then Raise ZeroDivisionError else Ok (PyFloat.fdiv x y).

(** ** Built-ins: [sorted], [zip], [min], [max], [range] *)

Section Sorted.
Context {A : Type} (lt : A -> A -> bool).

Fixpoint insert (x : A) (l : list A) : list A :=
  match l with
  | [] => [x]
  | y :: l' => if lt y x then y :: insert x l' else x :: y :: l'
  end.

(** [sorted(l)]: a stable sort that only asks [<], as [list.sort] does.
    On keys without NaN, [<] is a strict weak order and the stable sorted
    list is unique. *)
Fixpoint sorted (l : list A) : list A :=
  match l with
  | [] => []
  | x :: l' => insert x (sorted l')
  end.

(** No item is followed by a smaller one: such a list is left as it is. *)
Fixpoint in_order (l : list A) : Prop :=
  match l with
  | [] => True
  | x :: l' => match l' with
               | [] => True
               | y :: _ => lt y x = false
               end /\ in_order l'
  end.
End Sorted.

Fixpoint zip3 {A B C} (a : list A) (b : list B) (c : list C)
  : list (A * B * C) :=
  match a, b, c with
  | x :: a', y :: b', w :: c' => (x, y, w) :: zip3 a' b' c'
  | _, _, _ => []
  end.

Definition unzip3 {A B C} (l : list (A * B * C))
  : list A * list B * list C :=
  (map (fun t => fst (fst t)) l, map (fun t => snd (fst t)) l, map snd l).

(** [<] on the tuples [(z, pKa, mobility)]: the first components that are
    not [==] decide. *)
Definition tuple_ltb (s t : pynum * float * float) : bool :=
  let '(z1, p1, m1) := s in
  let '(z2, p2, m2) := t in
  if negb (num_eqb z1 z2) then num_ltb z1 z2
  else if negb (PyFloat.eqb p1 p2) then PyFloat.ltb p1 p2
  else if negb (PyFloat.eqb m1 m2) then PyFloat.ltb m1 m2
  else false.

(** [min(l)] and [max(l)] on a non-empty list: the first extremal item. *)
Definition py_min (x : pynum) (l : list pynum) : pynum :=
  fold_left (fun m y => if num_ltb y m then y else m) l x.

Definition py_max (x : pynum) (l : list pynum) : pynum :=
  fold_left (fun m y => if num_ltb m y then y else m) l x.

(** [range(a, b, 1)] *)
Definition range (a b : Z) : list Z :=
  map (fun i => a + Z.of_nat i) (seq 0 (Z.to_nat (b - a))).

(** [range(lo, hi + 1, 1)] wants ints: a float bound is a TypeError. *)
Definition range_incl (lo hi : pynum) : result (list Z) :=
  match lo, hi with
  | PyInt a, PyInt b => Ok (range a (b + 1))
  | _, _ => Raise TypeError
  end.

(** [set(zs) ^ set(full) == set()]: membership in a set is up to [==]. *)
Definition sym_diff_empty (zs : list pynum) (full : list Z) : bool :=
  forallb (fun v => existsb (fun k => num_eqb v (PyInt k)) full) zs
  && forallb (fun k => existsb (fun v => num_eqb v (PyInt k)) zs) full.

(** ** numpy.poly1d *)

Module Poly1d.

(** [trim_zeros(c, 'f')]: leading coefficients [== 0] are dropped. *)
Fixpoint trim_zeros (c : list float) : list float :=
  match c with
  | x :: c' => if PyFloat.eqb x PyFloat.zero then trim_zeros c' else c
  | [] => []
  end.

(** The coefficients a [poly1d] keeps, highest degree first. *)
Definition t := list float.

Definition poly1d (c : list float) : t :=
  match trim_zeros c with
  | [] => [PyFloat.zero]
  | c' => c'
  end.

(** [len(p)] is the order of the polynomial, and it decides the truth
    value of [p]: a constant polynomial is falsy. *)
Definition order (p : t) : nat := (List.length p - 1)%nat.

Definition truthy (p : t) : bool := negb (order p =? 0)%nat.

(** [p(x)]: polyval's Horner loop [y = y * x + pv], from [y = 0]. *)
Definition call (p : t) (x : float) : float :=
  fold_left (fun y pv => PyFloat.add (PyFloat.mul y x) pv) p PyFloat.zero.

End Poly1d.

(** ** The Ion object *)

Module Nightingale.
(** [nightingale_data]: the fit and the range it was calibrated on. *)
Record t := mk { fit : list float; min : float; max : float }.
End Nightingale.

(** The attributes of an Ion instance.  [pKa], [absolute_mobility] and [z0]
    are None before [temperature_adjust] assigns them; nothing reads them
    earlier, and they are held as empty lists until then. *)
Record Ion := mkIon {
  name : pystr;
  T : float;
  _T_ref : float;
  dH : option (list float);
  dCp : option (list float);
  nightingale_data : option Nightingale.t;
  _nightingale_function : option Poly1d.t;
  z : list pynum;
  _pKa_ref : list float;
  _absolute_mobility_ref : list float;
  pKa : list float;
  absolute_mobility : list float;
  z0 : list pynum
}.

(** The solvent an Ion carries in [_solvent]; [ionize/Aqueous.py] is outside
    this development and enters through its two functions of temperature. *)
Class Aqueous := {
  viscosity : float -> float;
  dielectric : float -> float
}.

(** An argument that is a list or a single value ([try: [x for x in v]
    except: [v]]). *)
Inductive arg (A : Type) :=
| Seq (l : list A)
| Scalar (a : A).
Arguments Seq {A} l.
Arguments Scalar {A} a.

Definition listify {A} (v : arg A) : list A :=
  match v with
  | Seq l => l
  | Scalar a => [a]
  end.

(** *** Methods as computations on [self] *)

Definition M (A : Type) : Type := Ion -> result A * Ion * list string.

Definition ret {A} (a : A) : M A := fun self => (Ok a, self, []).

Definition bind {A B} (c : M A) (k : A -> M B) : M B :=
  fun self =>
    match c self with
    | (Ok a, self', w) =>
        let '(r, self'', w') := k a self' in (r, self'', w ++ w')
    | (Raise e, self', w) => (Raise e, self', w)
    end.

Definition get : M Ion := fun self => (Ok self, self, []).
Definition put (s : Ion) : M unit := fun _ => (Ok tt, s, []).
Definition raise {A} (e : exn) : M A := fun self => (Raise e, self, []).
Definition warn (msg : string) : M unit := fun self => (Ok tt, self, [msg]).

Definition lift {A} (r : result A) : M A :=
  match r with
  | Ok a => ret a
  | Raise e => raise e
  end.

Definition assert (b : bool) (msg : string) : M unit :=
  if b then ret tt else raise (AssertionError msg).

Declare Scope method_scope.
Delimit Scope method_scope with method.
Notation "x <- c ;; k" := (bind c (fun x => k))
  (at level 61, c at next level, right associativity) : method_scope.
Notation "c ;; k" := (bind c (fun _ => k))
  (at level 61, right associativity) : method_scope.

(** Attribute assignments. *)
Definition set_z (v : list pynum) : M unit :=
  fun s => (Ok tt,
            mkIon s.(name) s.(T) s.(_T_ref) s.(dH) s.(dCp) s.(nightingale_data)
                  s.(_nightingale_function) v s.(_pKa_ref)
                  s.(_absolute_mobility_ref) s.(pKa) s.(absolute_mobility)
                  s.(z0), []).

Definition set_pKa (v : list float) : M unit :=
  fun s => (Ok tt,
            mkIon s.(name) s.(T) s.(_T_ref) s.(dH) s.(dCp) s.(nightingale_data)
                  s.(_nightingale_function) s.(z) s.(_pKa_ref)
                  s.(_absolute_mobility_ref) v s.(absolute_mobility)
                  s.(z0), []).

Definition set_absolute_mobility (v : list float) : M unit :=
  fun s => (Ok tt,
            mkIon s.(name) s.(T) s.(_T_ref) s.(dH) s.(dCp) s.(nightingale_data)
                  s.(_nightingale_function) s.(z) s.(_pKa_ref)
                  s.(_absolute_mobility_ref) s.(pKa) v s.(z0), []).

Definition set_z0 (v : list pynum) : M unit :=
  fun s => (Ok tt,
            mkIon s.(name) s.(T) s.(_T_ref) s.(dH) s.(dCp) s.(nightingale_data)
                  s.(_nightingale_function) s.(z) s.(_pKa_ref)
                  s.(_absolute_mobility_ref) s.(pKa) s.(absolute_mobility)
                  v, []).

Definition set_temperature (v : float) : M unit :=
  fun s => (Ok tt,
            mkIon s.(name) v s.(_T_ref) s.(dH) s.(dCp) s.(nightingale_data)
                  s.(_nightingale_function) s.(z) s.(_pKa_ref)
                  s.(_absolute_mobility_ref) s.(pKa) s.(absolute_mobility)
                  s.(z0), []).

Definition msg_signs : string :=
  "Mobility signs and charge signs don't match.".
Definition msg_range : string :=
  "Temperature outside rangefor nightingale data.".
Definition msg_missing : string := "Charge states missing.".
Definition msg_nonint : string := "z contains non-integer".
Definition msg_pKa_len : string := "pKa is not the same length as z".
Definition msg_mob_len : string :=
  "absolute_mobility is not
                                                    the same length as z".

(** *** Construction and temperature adjustment *)

Section IonMethods.

Context {_solvent : Aqueous}.

(** [Ion/correct_pKa.py] is outside this development: [_correct_pKa] enters
    as the function of the object's attributes that it is. *)
Variable _correct_pKa : Ion -> result (list float).

Local Open Scope method_scope.

(** [Ion._z_sort] *)
Definition _z_sort : M unit :=
  self <- get ;;
  match sorted tuple_ltb
          (zip3 self.(z) self.(pKa) self.(absolute_mobility)) with
  | [] => raise ValueError
  | t :: ts =>
      let '(zs, ps, ms) := unzip3 (t :: ts) in
      set_z zs ;;
      set_pKa ps ;;
      set_absolute_mobility ms ;;
      match zs with
      | [] => raise ValueError
      | z1 :: zs' =>
          r <- lift (range_incl (py_min z1 zs') (py_max z1 zs')) ;;
          let full := filter (fun k => negb (k =? 0)%Z) r in
          assert (sym_diff_empty zs full) msg_missing
      end
  end.

(** [Ion._set_z0] *)
Definition _set_z0 : M unit :=
  self <- get ;;
  set_z0 (sorted num_ltb (PyInt 0 :: self.(z))).

Definition poly_truthy (f : option Poly1d.t) : bool :=
  match f with
  | Some p => Poly1d.truthy p
  | None => false
  end.

(** One entry of the Nightingale list:
    [f(T).tolist() * 10.35e-11 * z / viscosity(T)]. *)
Definition nightingale_mobility (f : Poly1d.t) (t : float) (zc : pynum)
  : result float :=
  (fz <- to_float zc ;;
   truediv (PyFloat.mul (PyFloat.mul (Poly1d.call f t)
                                     (PyFloat.dec 1035 (-13))) fz)
           (viscosity t))%result.

(** One entry of the viscosity-ratio list:
    [viscosity(T_ref) / viscosity(T) * m]. *)
Definition walden_mobility (t tref m : float) : result float :=
  (r <- truediv (viscosity tref) (viscosity t) ;;
   Ok (PyFloat.mul r m))%result.

(** [Ion.temperature_adjust] *)
Definition temperature_adjust : M unit :=
  self <- get ;;
  (if PyFloat.eqb self.(T) self.(_T_ref) then
     set_pKa self.(_pKa_ref) ;;
     set_absolute_mobility self.(_absolute_mobility_ref)
   else
     ps <- lift (_correct_pKa self) ;;
     set_pKa ps ;;
     match self.(_nightingale_function) with
     | Some f =>
         if Poly1d.truthy f then
           ms <- lift (mapR (nightingale_mobility f self.(T)) self.(z)) ;;
           set_absolute_mobility ms ;;
           match self.(nightingale_data) with
           | Some nd =>
               if PyFloat.ltb (Nightingale.max nd) self.(T)
                  || PyFloat.ltb self.(T) (Nightingale.min nd)
               then warn msg_range else ret tt
           | None => raise TypeError
           end
         else
           ms <- lift (mapR (walden_mobility self.(T) self.(_T_ref))
                            self.(_absolute_mobility_ref)) ;;
           set_absolute_mobility ms
     | None =>
         ms <- lift (mapR (walden_mobility self.(T) self.(_T_ref))
                          self.(_absolute_mobility_ref)) ;;
         set_absolute_mobility ms
     end) ;;
  _z_sort ;;
  _set_z0.

(** [copysign(z, m) == z] *)
Definition sign_matches (zm : pynum * float) : result bool :=
  (c <- copysign (fst zm) (PyFloat (snd zm)) ;;
   Ok (num_eqb (PyFloat c) (fst zm)))%result.

(** [copysign(m, z)] *)
Definition force_sign (zm : pynum * float) : result float :=
  copysign (PyFloat (snd zm)) (fst zm).

(** The attributes [__init__] copies in before it adjusts them. *)
Definition init_attributes (name' : pystr) (z' : arg pynum)
           (pKa_ref absolute_mobility_ref : arg float)
           (dH' dCp' : option (list float))
           (nightingale_data' : option Nightingale.t)
           (T' T_ref : float) : Ion :=
  mkIon name' T' T_ref dH' dCp' nightingale_data'
        (option_map (fun nd => Poly1d.poly1d (Nightingale.fit nd))
                    nightingale_data')
        (listify z') (listify pKa_ref) (listify absolute_mobility_ref)
        [] [] [].

(** [Ion.__init__] *)
Definition __init__ (name' : pystr) (z' : arg pynum)
           (pKa_ref absolute_mobility_ref : arg float)
           (dH' dCp' : option (list float))
           (nightingale_data' : option Nightingale.t)
           (T' T_ref : float) : M unit :=
  put (init_attributes name' z' pKa_ref absolute_mobility_ref dH' dCp'
                       nightingale_data' T' T_ref) ;;
  temperature_adjust ;;
  self <- get ;;
  ok <- lift (mapR sign_matches
                   (combine self.(z) self.(absolute_mobility))) ;;
  (if forallb (fun b : bool => b) ok then ret tt
   else
     ms <- lift (mapR force_sign
                      (combine self.(z) self.(absolute_mobility))) ;;
     set_absolute_mobility ms ;;
     warn msg_signs) ;;
  self <- get ;;
  assert (forallb isinstance_int self.(z)) msg_nonint ;;
  assert (List.length self.(pKa) =? List.length self.(z))%nat msg_pKa_len ;;
  assert (List.length self.(absolute_mobility) =? List.length self.(z))%nat
         msg_mob_len.

(** The attributes a fresh instance inherits from the class. *)
Definition class_defaults : Ion :=
  mkIon [] (PyFloat.dec 25 0) (PyFloat.dec 25 0) None None None None
        [] [] [] [] [] [].

(** [Ion(name, z, pKa_ref, absolute_mobility_ref, dH, dCp,
    nightingale_data, T, T_ref)]: the new object, or the exception
    [__init__] raised, and the warnings emitted on the way. *)
Definition new (name' : pystr) (z' : arg pynum)
           (pKa_ref absolute_mobility_ref : arg float)
           (dH' dCp' : option (list float))
           (nightingale_data' : option Nightingale.t)
           (T' T_ref : float) : result Ion * list string :=
  match __init__ name' z' pKa_ref absolute_mobility_ref dH' dCp'
                 nightingale_data' T' T_ref class_defaults with
  | (Ok _, self, w) => (Ok self, w)
  | (Raise e, _, w) => (Raise e, w)
  end.

(** [Ion.set_T] *)
Definition set_T (T' : float) : M Ion :=
  set_temperature T' ;;
  temperature_adjust ;;
  get.

End IonMethods.

(** ** Mobility and transport *)

(** [math.sqrt]: a negative argument is a ValueError. *)
Definition py_sqrt (x : float) : result float :=
  if PyFloat.ltb x PyFloat.zero then Raise ValueError else Ok (PyFloat.sqrt x).

(** Truth value of the temperature argument: None and zero are falsy. *)
Definition truthy_T (t : option float) : bool :=
  match t with
  | None => false
  | Some x => negb (PyFloat.eqb x PyFloat.zero)
  end.

Section Transport.

Context {_solvent : Aqueous}.

(** [x ** y] on floats is libm's pow behind [float.__pow__]; it enters as
    a function that may raise. *)
Variable float_pow : float -> float -> result float.

(** [Ion/ionization_fraction.py] is outside this development. *)
Variable ionization_fraction : Ion -> float -> result (list float).

(** The built-in [sum] on floats. *)
Variable py_sum : list float -> float.

Definition _aD : float := PyFloat.dec 15 (-1).

Local Open Scope result_scope.

(** [(T_ref+273.15)*d_ref/(T+273.15)/d] *)
Definition rs_ratio (t_ref d_ref t d : float) : result float :=
  q <- truediv (PyFloat.mul (PyFloat.add t_ref (PyFloat.dec 27315 (-2))) d_ref)
               (PyFloat.add t (PyFloat.dec 27315 (-2))) ;;
  truediv q d.

(** The loop body:
    [abs_mob - (A*abs_mob + B*copysign(1, z)) * sqrt(I) / (1 + _aD*sqrt(I))] *)
Definition rs_state (A B I : float) (mz : float * pynum) : result float :=
  let '(abs_mob, zc) := mz in
  sg <- copysign (PyInt 1) zc ;;
  sq <- py_sqrt I ;;
  sq' <- py_sqrt I ;;
  corr <- truediv (PyFloat.mul (PyFloat.add (PyFloat.mul A abs_mob)
                                            (PyFloat.mul B sg)) sq)
                  (PyFloat.add (PyFloat.dec 1 0) (PyFloat.mul _aD sq')) ;;
  Ok (PyFloat.sub abs_mob corr).

(** The function from the assignment [T_ref = 25] on, at the temperature
    [t] the guard has settled.  [obj.dielectric] and [obj.viscosity] are
    inherited methods ([BaseIon] is outside this development): they are
    the two functions of the solvent. *)
Definition robinson_stokes_body (obj : Ion) (I t : float)
  : result (list float) :=
  let T_ref := PyFloat.dec 25 0 in
  let d := dielectric t in
  let d_ref := dielectric t in
  r <- rs_ratio T_ref d_ref t d ;;
  pa <- float_pow r (PyFloat.dec (-15) (-1)) ;;
  let A := PyFloat.mul (PyFloat.dec 2297 (-4)) pa in
  r' <- rs_ratio T_ref d_ref t d ;;
  pb <- float_pow r' (PyFloat.dec (-5) (-1)) ;;
  B <- truediv (PyFloat.mul (PyFloat.mul (PyFloat.dec 3141 (-11)) pb)
                            (viscosity T_ref))
               (viscosity t) ;;
  mapR (rs_state A B I) (combine obj.(absolute_mobility) obj.(z)).

(** The same correction as its description has it, with the dielectric
    constant of the reference side read at the reference temperature:
    [d_ref = obj.dielectric(T_ref)]. *)
Definition robinson_stokes_body_as_described (obj : Ion) (I t : float)
  : result (list float) :=
  let T_ref := PyFloat.dec 25 0 in
  let d := dielectric t in
  let d_ref := dielectric T_ref in
  r <- rs_ratio T_ref d_ref t d ;;
  pa <- float_pow r (PyFloat.dec (-15) (-1)) ;;
  let A := PyFloat.mul (PyFloat.dec 2297 (-4)) pa in
  r' <- rs_ratio T_ref d_ref t d ;;
  pb <- float_pow r' (PyFloat.dec (-5) (-1)) ;;
  B <- truediv (PyFloat.mul (PyFloat.mul (PyFloat.dec 3141 (-11)) pb)
                            (viscosity T_ref))
               (viscosity t) ;;
  mapR (rs_state A B I) (combine obj.(absolute_mobility) obj.(z)).

(** [robinson_stokes_mobility(obj, I, T)] *)
Definition robinson_stokes_mobility (obj : Ion) (I : float)
           (T' : option float) : result (list float) :=
  let t := match T' with
           | Some x => if truthy_T T' then x else obj.(T)
           | None => obj.(T)
           end in
  robinson_stokes_body obj I t.

(** The call [robinson_stokes_mobility(obj, I)], on the default [T=25]. *)
Definition robinson_stokes_mobility_default (obj : Ion) (I : float)
  : result (list float) :=
  robinson_stokes_mobility obj I (Some (PyFloat.dec 25 0)).

Definition boltzmann : float := PyFloat.dec 138 (-25).
Definition elementary_charge : float := PyFloat.dec 1602 (-22).

(** One term of the sum in [diffusivity]: [m * f / float(z)]. *)
Definition diffusivity_term (t : float * float * pynum) : result float :=
  let '(m, f, zc) := t in
  fz <- to_float zc ;;
  truediv (PyFloat.mul m f) fz.

(** [diffusivity(self, pH)] *)
Definition diffusivity (self : Ion) (pH : float) : result float :=
  fr <- ionization_fraction self pH ;;
  terms <- mapR diffusivity_term
                (zip3 self.(absolute_mobility) fr self.(z)) ;;
  d <- truediv (PyFloat.mul (PyFloat.mul (py_sum terms) boltzmann)
                            (PyFloat.add self.(T) (PyFloat.dec 27315 (-2))))
               elementary_charge ;;
  fr' <- ionization_fraction self pH ;;
  truediv d (py_sum fr').

End Transport.

(** ** Predicates used in the statements *)

(** The attributes no method assigns after [__init__] has copied them in
    ([T] apart, which [set_T] assigns). *)
Definition same_inputs (s s' : Ion) : Prop :=
  name s' = name s /\ T s' = T s /\ _T_ref s' = _T_ref s /\
  dH s' = dH s /\ dCp s' = dCp s /\
  nightingale_data s' = nightingale_data s /\
  _nightingale_function s' = _nightingale_function s /\
  _pKa_ref s' = _pKa_ref s /\
  _absolute_mobility_ref s' = _absolute_mobility_ref s.

(** What the assertion of [_z_sort] has checked of a charge list. *)
Definition run_checked (zs : list pynum) : Prop :=
  exists z1 zs' lo hi,
    zs = z1 :: zs' /\ py_min z1 zs' = PyInt lo /\ py_max z1 zs' = PyInt hi /\
    sym_diff_empty zs (filter (fun k => negb (k =? 0)) (range lo (hi + 1)))
    = true.



Section Adjusted.
Context {_solvent : Aqueous}.
Variable _correct_pKa : Ion -> result (list float).

(** The values [temperature_adjust] stores before it sorts, and the
    warnings of that part, by the branch taken. *)
Inductive adjusted (s : Ion)
  : list float -> list float -> list string -> Prop :=
| adjusted_ref :
    PyFloat.eqb (T s) (_T_ref s) = true ->
    adjusted s (_pKa_ref s) (_absolute_mobility_ref s) []
| adjusted_nightingale ps ms f nd :
    PyFloat.eqb (T s) (_T_ref s) = false ->
    _correct_pKa s = Ok ps ->
    _nightingale_function s = Some f -> Poly1d.truthy f = true ->
    nightingale_data s = Some nd ->
    mapR (nightingale_mobility f (T s)) (z s) = Ok ms ->
    adjusted s ps ms
             (if PyFloat.ltb (Nightingale.max nd) (T s)
                 || PyFloat.ltb (T s) (Nightingale.min nd)
              then [msg_range] else [])
| adjusted_walden ps ms :
    PyFloat.eqb (T s) (_T_ref s) = false ->
    _correct_pKa s = Ok ps ->
    poly_truthy (_nightingale_function s) = false ->
    mapR (walden_mobility (T s) (_T_ref s)) (_absolute_mobility_ref s)
    = Ok ms ->
    adjusted s ps ms [].
End Adjusted.

(** ** Serialization: the record *)

Module Serial.
(** The dict [serialize] builds, a field per key. *)
Record t := mk {
  __ion__ : bool;
  name : pystr;
  z : list pynum;
  pKa_ref : list float;
  absolute_mobility_ref : list float;
  dH : option (list float);
  dCp : option (list float);
  nightingale_data : option Nightingale.t
}.
End Serial.

(** [Ion.serialize(nested=True)] *)
Definition serialize_nested (self : Ion) : Serial.t :=
  Serial.mk true self.(name) self.(z) self.(_pKa_ref)
            self.(_absolute_mobility_ref) self.(dH) self.(dCp)
            self.(nightingale_data).

Section Rebuild.
Context {_solvent : Aqueous}.
Variable _correct_pKa : Ion -> result (list float).

(** A new Ion from the fields of a record:
    [Ion(r['name'], r['z'], r['pKa_ref'], r['absolute_mobility_ref'],
    r['dH'], r['dCp'], r['nightingale_data'], T, T_ref)]. *)
Definition rebuild (r : Serial.t) (T' T_ref : float)
  : result Ion * list string :=
  new _correct_pKa (Serial.name r) (Seq (Serial.z r)) (Seq (Serial.pKa_ref r))
      (Seq (Serial.absolute_mobility_ref r)) (Serial.dH r) (Serial.dCp r)
      (Serial.nightingale_data r) T' T_ref.

End Rebuild.

(** ** JSON: [json.dumps] and [json.loads] *)

Module Json.

(** What [json.loads] returns, and what [json.dumps] takes. *)
Inductive value :=
| Null
| Bool (b : bool)
| Int (n : Z)
| Float (x : float)
| Str (s : pystr)
| Arr (l : list value)
| Obj (l : list (pystr * value)).

Definition quote : ascii := "034"%char.
Definition backslash : ascii := "092"%char.

Definition hex_digit (n : N) : ascii :=
  match n with
  | 0%N => "0" | 1%N => "1" | 2%N => "2" | 3%N => "3" | 4%N => "4"
  | 5%N => "5" | 6%N => "6" | 7%N => "7" | 8%N => "8" | 9%N => "9"
  | 10%N => "a" | 11%N => "b" | 12%N => "c" | 13%N => "d" | 14%N => "e"
  | _ => "f"
  end%char.

(** ['\\u{0:04x}'.format(n)] *)
Definition u_escape (n : N) : string :=
  String backslash
    (String "u"
       (String (hex_digit (N.land (N.shiftr n 12) 15))
          (String (hex_digit (N.land (N.shiftr n 8) 15))
             (String (hex_digit (N.land (N.shiftr n 4) 15))
                (String (hex_digit (N.land n 15)) EmptyString))))).

(** The replacement of one code point in [py_encode_basestring_ascii]:
    quote and backslash are escaped, the printable ASCII characters stand
    for themselves, the rest become [\uXXXX], as a surrogate pair beyond the
    basic plane. *)
Definition escape (c : N) : string :=
  if (c =? 34)%N then String backslash (String quote EmptyString)
  else if (c =? 92)%N then String backslash (String backslash EmptyString)
  else if (c =? 10)%N then String backslash "n"
  else if (c =? 13)%N then String backslash "r"
  else if (c =? 9)%N then String backslash "t"
  else if (c =? 12)%N then String backslash "f"
  else if (c =? 8)%N then String backslash "b"
  else if ((32 <=? c) && (c <=? 126))%N then String (ascii_of_N c) EmptyString
  else if (c <? 65536)%N then u_escape c
  else
    let v := (c - 65536)%N in
    (u_escape (N.lor 55296 (N.land (N.shiftr v 10) 1023))
     ++ u_escape (N.lor 56320 (N.land v 1023)))%string.

Fixpoint escape_all (s : pystr) : string :=
  match s with
  | [] => EmptyString
  | c :: s' => (escape c ++ escape_all s')%string
  end.

(** A [str] as a JSON string literal. *)
Definition encode_str (s : pystr) : string :=
  String quote (escape_all s ++ String quote EmptyString).

(** [int.__repr__] *)
Definition int_repr (n : Z) : string := NilZero.string_of_int (Z.to_int n).

Section Dumps.
(** [float.__repr__], the shortest decimal that reads back as the float, is
    not modelled: it enters as the function it is. *)
Variable float_repr : float -> string.

Definition encode_float (x : float) : string :=
  match x with
  | S754_nan => "NaN"
  | S754_infinity false => "Infinity"
  | S754_infinity true => "-Infinity"
  | _ => float_repr x
  end.

(** [json.dumps(v)] with the default separators and [ensure_ascii]. *)
Fixpoint dumps (v : value) : string :=
  match v with
  | Null => "null"
  | Bool true => "true"
  | Bool false => "false"
  | Int n => int_repr n
  | Float x => encode_float x
  | Str s => encode_str s
  | Arr l =>
      ("[" ++ (fix items (l : list value) : string :=
                 match l with
                 | [] => EmptyString
                 | v :: l' =>
                     match l' with
                     | [] => dumps v
                     | _ :: _ => dumps v ++ ", " ++ items l'
                     end
                 end) l ++ "]")%string
  | Obj l =>
      ("{" ++ (fix members (l : list (pystr * value)) : string :=
                 match l with
                 | [] => EmptyString
                 | (k, v) :: l' =>
                     match l' with
                     | [] => encode_str k ++ ": " ++ dumps v
                     | _ :: _ =>
                         encode_str k ++ ": " ++ dumps v ++ ", " ++ members l'
                     end
                 end) l ++ "}")%string
  end.
End Dumps.

(** *** The decoder *)

Definition hex_value (c : ascii) : option N :=
  let n := N_of_ascii c in
  if ((48 <=? n) && (n <=? 57))%N then Some (n - 48)%N
  else if ((97 <=? n) && (n <=? 102))%N then Some (n - 87)%N
  else if ((65 <=? n) && (n <=? 70))%N then Some (n - 55)%N
  else None.

Definition hex4_value (a b c d : ascii) : option N :=
  match hex_value a, hex_value b, hex_value c, hex_value d with
  | Some x, Some y, Some z, Some w =>
      Some (x * 4096 + y * 256 + z * 16 + w)%N
  | _, _, _, _ => None
  end.

(** The character after a backslash, [u] apart. *)
Definition simple_escape (e : ascii) : option N :=
  if Ascii.eqb e quote then Some 34%N
  else if Ascii.eqb e backslash then Some 92%N
  else if Ascii.eqb e "/" then Some 47%N
  else if Ascii.eqb e "b" then Some 8%N
  else if Ascii.eqb e "f" then Some 12%N
  else if Ascii.eqb e "n" then Some 10%N
  else if Ascii.eqb e "r" then Some 13%N
  else if Ascii.eqb e "t" then Some 9%N
  else None.

(** [py_scanstring] from the character after the opening quote: the decoded
    [str] and the text after the closing quote. *)
Fixpoint scanstring (s : string) (acc : pystr) : option (pystr * string) :=
  match s with
  | EmptyString => None
  | String c r =>
      if Ascii.eqb c quote then Some (rev acc, r)
      else if Ascii.eqb c backslash then
        match r with
        | EmptyString => None
        | String e r1 =>
            if Ascii.eqb e "u" then
              match r1 with
              | String h1 (String h2 (String h3 (String h4 r2))) =>
                  match hex4_value h1 h2 h3 h4 with
                  | None => None
                  | Some uni =>
                      if ((55296 <=? uni) && (uni <=? 56319))%N then
                        match r2 with
                        | String b (String u (String g1 (String g2
                            (String g3 (String g4 r3))))) =>
                            if Ascii.eqb b backslash && Ascii.eqb u "u" then
                              match hex4_value g1 g2 g3 g4 with
                              | None => None
                              | Some uni2 =>
                                  if ((56320 <=? uni2) && (uni2 <=? 57343))%N
                                  then scanstring r3
                                         ((65536 +
                                           N.lor (N.shiftl (uni - 55296) 10)
                                                 (uni2 - 56320))%N :: acc)
                                  else scanstring r2 (uni :: acc)
                              end
                            else scanstring r2 (uni :: acc)
                        | _ => scanstring r2 (uni :: acc)
                        end
                      else scanstring r2 (uni :: acc)
                  end
              | _ => None
              end
            else
              match simple_escape e with
              | Some x => scanstring r1 (x :: acc)
              | None => None
              end
        end
      else if (N_of_ascii c <? 32)%N then None
      else scanstring r (N_of_ascii c :: acc)
  end.

Definition is_ws (c : ascii) : bool :=
  Ascii.eqb c " " || Ascii.eqb c "009" || Ascii.eqb c "010"
  || Ascii.eqb c "013".

Fixpoint skip_ws (s : string) : string :=
  match s with
  | String c r => if is_ws c then skip_ws r else s
  | EmptyString => EmptyString
  end.

Definition is_digit (c : ascii) : bool :=
  ((48 <=? N_of_ascii c) && (N_of_ascii c <=? 57))%N.

(** The digits at the head of a text, as the number they spell and how many
    they are, and the text after them. *)
Fixpoint take_digits (s : string) (acc : Z) (n : Z) : Z * Z * string :=
  match s with
  | String c r =>
      if is_digit c
      then take_digits r (10 * acc + Z.of_N (N_of_ascii c - 48)) (n + 1)
      else (acc, n, s)
  | EmptyString => (acc, n, s)
  end.

(** The number at the head of a text, by [NUMBER_RE]: an int when it has
    neither fraction nor exponent, else the nearest float. *)
Definition scan_number (s : string) : option (value * string) :=
  let '(neg, s1) := match s with
                    | String "-" r => (true, r)
                    | _ => (false, s)
                    end in
  let int_part :=
    match s1 with
    | String "0" r => Some (0, r)
    | String c _ => if is_digit c
                    then let '(m, _, r) := take_digits s1 0 0 in Some (m, r)
                    else None
    | EmptyString => None
    end in
  match int_part with
  | None => None
  | Some (m, s2) =>
      let '(m', fl, s3, has_frac) :=
        match s2 with
        | String "." (String c _ as r) =>
            if is_digit c
            then let '(m', n, r') := take_digits r m 0 in (m', n, r', true)
            else (m, 0, s2, false)
        | _ => (m, 0, s2, false)
        end in
      let exponent (r : string) : option (Z * string) :=
        match r with
        | String "-" (String c _ as r') =>
            if is_digit c
            then let '(e, _, r'') := take_digits r' 0 0 in Some (- e, r'')
            else None
        | String "+" (String c _ as r') =>
            if is_digit c
            then let '(e, _, r'') := take_digits r' 0 0 in Some (e, r'')
            else None
        | String c _ =>
            if is_digit c
            then let '(e, _, r'') := take_digits r 0 0 in Some (e, r'')
            else None
        | EmptyString => None
        end in
      let exp :=
        match s3 with
        | String "e" r | String "E" r => exponent r
        | _ => None
        end in
      match exp, has_frac with
      | None, false => Some (Int (if neg then - m else m), s2)
      | None, true =>
          let x := PyFloat.dec m' (- fl) in
          Some (Float (if neg then PyFloat.opp x else x), s3)
      | Some (e, s4), _ =>
          let x := PyFloat.dec m' (e - fl) in
          Some (Float (if neg then PyFloat.opp x else x), s4)
      end
  end.

Definition starts_with (p s : string) : option string :=
  if String.prefix p s
  then Some (String.substring (String.length p)
                              (String.length s - String.length p) s)
  else None.

(** [scan_once], with the array and object loops; [fuel] bounds the calls,
    two per character being enough. *)
Fixpoint scan_once (fuel : nat) (s : string) : option (value * string) :=
  match fuel with
  | O => None
  | S fuel' =>
      match s with
      | EmptyString => None
      | String c r =>
          if Ascii.eqb c quote then
            match scanstring r [] with
            | Some (x, r') => Some (Str x, r')
            | None => None
            end
          else if Ascii.eqb c "{" then
            match skip_ws r with
            | String "}" r' => Some (Obj [], r')
            | r' => scan_members fuel' r' []
            end
          else if Ascii.eqb c "[" then
            match skip_ws r with
            | String "]" r' => Some (Arr [], r')
            | r' => scan_items fuel' r' []
            end
          else
            match starts_with "null" s, starts_with "true" s,
                  starts_with "false" s, starts_with "NaN" s,
                  starts_with "Infinity" s, starts_with "-Infinity" s with
            | Some r', _, _, _, _, _ => Some (Null, r')
            | _, Some r', _, _, _, _ => Some (Bool true, r')
            | _, _, Some r', _, _, _ => Some (Bool false, r')
            | _, _, _, Some r', _, _ => Some (Float S754_nan, r')
            | _, _, _, _, Some r', _ => Some (Float (S754_infinity false), r')
            | _, _, _, _, _, Some r' => Some (Float (S754_infinity true), r')
            | _, _, _, _, _, _ => scan_number s
            end
      end
  end

with scan_items (fuel : nat) (s : string) (acc : list value)
  : option (value * string) :=
  match fuel with
  | O => None
  | S fuel' =>
      match scan_once fuel' s with
      | None => None
      | Some (v, r) =>
          match skip_ws r with
          | String "]" r' => Some (Arr (rev (v :: acc)), r')
          | String "," r' => scan_items fuel' (skip_ws r') (v :: acc)
          | _ => None
          end
      end
  end

with scan_members (fuel : nat) (s : string) (acc : list (pystr * value))
  : option (value * string) :=
  match fuel with
  | O => None
  | S fuel' =>
      match s with
      | String c r =>
          if Ascii.eqb c quote then
            match scanstring r [] with
            | None => None
            | Some (k, r1) =>
                match skip_ws r1 with
                | String ":" r2 =>
                    match scan_once fuel' (skip_ws r2) with
                    | None => None
                    | Some (v, r3) =>
                        match skip_ws r3 with
                        | String "}" r' => Some (Obj (rev ((k, v) :: acc)), r')
                        | String "," r' =>
                            scan_members fuel' (skip_ws r') ((k, v) :: acc)
                        | _ => None
                        end
                    end
                | _ => None
                end
            end
          else None
      | EmptyString => None
      end
  end.

(** [json.loads(s)]: one value, white space around it, and nothing else. *)
Definition loads (s : string) : option value :=
  match scan_once (2 * String.length s + 2) (skip_ws s) with
  | Some (v, r) =>
      match skip_ws r with
      | EmptyString => Some v
      | _ => None
      end
  | None => None
  end.

End Json.

(** ** Serialization: the text and the file *)

Section Serialize.
Variable float_repr : float -> string.

Definition num_json (v : pynum) : Json.value :=
  match v with
  | PyInt n => Json.Int n
  | PyFloat x => Json.Float x
  end.

Definition floats_json (l : list float) : Json.value :=
  Json.Arr (map Json.Float l).

Definition option_json {A} (f : A -> Json.value) (o : option A)
  : Json.value :=
  match o with
  | Some a => f a
  | None => Json.Null
  end.

Definition nightingale_json (nd : Nightingale.t) : Json.value :=
  Json.Obj [(str "fit", floats_json (Nightingale.fit nd));
            (str "min", Json.Float (Nightingale.min nd));
            (str "max", Json.Float (Nightingale.max nd))].

(** The dict of [serialize] as [json.dumps] walks it, keys in the order
    they were written. *)
Definition record_json (r : Serial.t) : Json.value :=
  Json.Obj [(str "__ion__", Json.Bool (Serial.__ion__ r));
            (str "name", Json.Str (Serial.name r));
            (str "z", Json.Arr (map num_json (Serial.z r)));
            (str "pKa_ref", floats_json (Serial.pKa_ref r));
            (str "absolute_mobility_ref",
             floats_json (Serial.absolute_mobility_ref r));
            (str "dH", option_json floats_json (Serial.dH r));
            (str "dCp", option_json floats_json (Serial.dCp r));
            (str "nightingale_data",
             option_json nightingale_json (Serial.nightingale_data r))].

(** [Ion.serialize()], that is [nested=False]: the dict as JSON text. *)
Definition serialize (self : Ion) : string :=
  Json.dumps float_repr (record_json (serialize_nested self)).

(** The files by name, with their contents. *)
Definition files := string -> option string.

(** [with open(filename, 'w') as file: file.write(content)] *)
Definition write_file (fs : files) (filename content : string) : files :=
  fun n => if String.eqb n filename then Some content else fs n.

(** [Ion.save(filename)]: [json.dump(self.serialize(), file)], where
    [self.serialize()] is a [str]. *)
Definition save (self : Ion) (filename : string) (fs : files) : files :=
  write_file fs filename
             (Json.dumps float_repr (Json.Str (str (serialize self)))).
End Serialize.

(** ** Fixtures for the examples *)

(** A solvent of constant viscosity and dielectric constant. *)
Definition stub_solvent : Aqueous :=
  {| viscosity := fun _ => PyFloat.dec 1 (-3);
     dielectric := fun _ => PyFloat.dec 80 0 |}.

(** A solvent with the same viscosity whose dielectric constant differs at
    25 degrees only. *)
Definition stub_solvent' : Aqueous :=
  {| viscosity := fun _ => PyFloat.dec 1 (-3);
     dielectric := fun t => if PyFloat.eqb t (PyFloat.dec 25 0)
                            then PyFloat.dec 785 (-1) else PyFloat.dec 80 0 |}.

(** No thermal data: the pKa are left as they are. *)
Definition no_correction (self : Ion) : result (list float) :=
  Ok self.(_pKa_ref).

Definition f25 : float := PyFloat.dec 25 0.

(** [Ion(name, z, pKa_ref, absolute_mobility_ref)] at the default
    temperatures, in the stub solvent. *)
Definition Ion_at_25 (name' : string) (z' : list pynum)
           (pKa_ref absolute_mobility_ref : list float)
  : result Ion * list string :=
  new (_solvent := stub_solvent) no_correction (str name') (Seq z')
      (Seq pKa_ref)
      (Seq absolute_mobility_ref) None None None f25 f25.

(** Acetic acid, as [Ion('acetic acid', [-1], [4.76], [-4.24e-8])] builds
    it. *)
Definition acetic_acid : Ion :=
  Eval vm_compute in
    match Ion_at_25 "acetic acid" [PyInt (-1)] [PyFloat.dec 476 (-2)]
                    [PyFloat.dec (-424) (-10)] with
    | (Ok ion, _) => ion
    | (Raise _, _) => class_defaults
    end.


(** A Nightingale record whose fit is the constant [5.0]. *)
Definition constant_fit : Nightingale.t :=
  Nightingale.mk [PyFloat.dec 5 0] (PyFloat.dec 0 0) (PyFloat.dec 100 0).

(** A stand-in for libm's pow where a statement holds for any. *)
Definition any_pow (x _ : float) : result float := Ok x.


(** A [repr] for the two floats of acetic acid. *)
Definition acetic_repr (x : float) : string :=
  if PyFloat.eqb x (PyFloat.dec 476 (-2)) then "4.76" else "-4.24e-08".

(** Evaluation of a concrete conjunction, conjunct by conjunct. *)
Ltac evaluate :=
  repeat match goal with |- _ /\ _ => split end;
  vm_compute; try reflexivity; try discriminate.

(** ** Further definitions *)

(** The int a charge holds, zero for a float. *)
Definition int_of (v : pynum) : Z :=
  match v with
  | PyInt n => n
  | PyFloat _ => 0
  end.

(** The attributes once the branch [T == T_ref] of [temperature_adjust] has
    copied the reference lists in. *)
Definition at_reference (s : Ion) : Ion :=
  mkIon s.(name) s.(T) s.(_T_ref) s.(dH) s.(dCp) s.(nightingale_data)
        s.(_nightingale_function) s.(z) s.(_pKa_ref)
        s.(_absolute_mobility_ref) s.(_pKa_ref) s.(_absolute_mobility_ref)
        s.(z0).

(** The attributes [_z_sort] leaves when it has sorted the states. *)
Definition z_sorted (s : Ion) : Ion :=
  let l := sorted tuple_ltb (zip3 s.(z) s.(pKa) s.(absolute_mobility)) in
  mkIon s.(name) s.(T) s.(_T_ref) s.(dH) s.(dCp) s.(nightingale_data)
        s.(_nightingale_function) (map (fun t => fst (fst t)) l) s.(_pKa_ref)
        s.(_absolute_mobility_ref) (map (fun t => snd (fst t)) l)
        (map snd l) s.(z0).

(** A list of ints is the run of the ints from [lo] to [hi], zero left
    out. *)
Definition is_run (lo hi : Z) (zs : list Z) : Prop :=
  In lo zs /\ In hi zs /\ forall k, In k zs <-> lo <= k <= hi /\ k <> 0.

(** The attributes [_set_z0] leaves. *)
Definition z0_set (s : Ion) : Ion :=
  mkIon s.(name) s.(T) s.(_T_ref) s.(dH) s.(dCp) s.(nightingale_data)
        s.(_nightingale_function) s.(z) s.(_pKa_ref)
        s.(_absolute_mobility_ref) s.(pKa) s.(absolute_mobility)
        (sorted num_ltb (PyInt 0 :: s.(z))).

(** The part of [__init__] after [temperature_adjust]: the signs are
    forced, then the assertions are made. *)
Definition init_checks : M unit :=
  (self <- get ;;
   ok <- lift (mapR sign_matches
                    (combine self.(z) self.(absolute_mobility))) ;;
   (if forallb (fun b : bool => b) ok then ret tt
    else
      ms <- lift (mapR force_sign
                       (combine self.(z) self.(absolute_mobility))) ;;
      set_absolute_mobility ms ;;
      warn msg_signs) ;;
   self <- get ;;
   assert (forallb isinstance_int self.(z)) msg_nonint ;;
   assert (List.length self.(pKa) =? List.length self.(z))%nat msg_pKa_len ;;
   assert (List.length self.(absolute_mobility) =? List.length self.(z))%nat
          msg_mob_len)%method.

(** A computation that assigns none of the attributes [__init__] copies
    in, whatever its outcome. *)
Definition keeps_inputs {A} (c : M A) : Prop :=
  forall s r s' w, c s = (r, s', w) -> same_inputs s s'.

(** Acetic acid with its state moved to the charge -2, for comparison. *)
Definition acetic_acid_at_charge_2 : Ion :=
  mkIon acetic_acid.(name) acetic_acid.(T) acetic_acid.(_T_ref)
        acetic_acid.(dH) acetic_acid.(dCp) acetic_acid.(nightingale_data)
        acetic_acid.(_nightingale_function) [PyInt (-2)]
        acetic_acid.(_pKa_ref) acetic_acid.(_absolute_mobility_ref)
        acetic_acid.(pKa) acetic_acid.(absolute_mobility)
        [PyInt (-2); PyInt 0].


(** A text that begins with [,], [\]] or [}], as the text after a value
    inside an array or an object does. *)
Definition delimited (rest : string) : bool :=
  match rest with
  | String c _ => Ascii.eqb c "," || Ascii.eqb c "]" || Ascii.eqb c "}"
  | EmptyString => false
  end.

(** A code point that is a Unicode scalar value: not a surrogate, and
    within the code space. *)
Definition scalar_value (c : N) : bool :=
  ((c <? 55296) || ((57344 <=? c) && (c <? 1114112)))%N.

Module JsonText.
(** The texts [json.dumps] joins for the items of a list and the members
    of a dict. *)
Section Texts.
Variable float_repr : float -> string.

Fixpoint items (l : list Json.value) : string :=
  match l with
  | [] => EmptyString
  | v :: l' =>
      match l' with
      | [] => Json.dumps float_repr v
      | _ :: _ => Json.dumps float_repr v ++ ", " ++ items l'
      end
  end.

Fixpoint members (l : list (pystr * Json.value)) : string :=
  match l with
  | [] => EmptyString
  | (k, v) :: l' =>
      match l' with
      | [] => Json.encode_str k ++ ": " ++ Json.dumps float_repr v
      | _ :: _ =>
          Json.encode_str k ++ ": " ++ Json.dumps float_repr v ++ ", "
          ++ members l'
      end
  end.

(** The scanner reads [v] back from its text before a delimiter, given
    the fuel [n]. *)
Definition reads (n : nat) (v : Json.value) : Prop :=
  forall fuel rest,
    (n <= fuel)%nat -> delimited rest = true ->
    Json.scan_once fuel (Json.dumps float_repr v ++ rest) = Some (v, rest).

(** [float_repr] writes a float that the scanner reads back: what
    [float.__repr__] does for every float.  NaN and the infinities are
    written by [json.dumps] itself. *)
Definition reads_back (x : float) : Prop :=
  match x with
  | S754_nan | S754_infinity _ => True
  | _ => forall rest,
      delimited rest = true ->
      Json.scan_once 1 (float_repr x ++ rest) = Some (Json.Float x, rest)
  end.
End Texts.
End JsonText.

(** [f] holds of every number of [bits] bits: a check by cases. *)
Fixpoint all_below (bits : nat) (f : N -> bool) : bool :=
  match bits with
  | O => f 0%N
  | S b => all_below b (fun x => f (N.double x))
           && all_below b (fun x => f (N.succ_double x))
  end.

(** The four hex digits of [\uXXXX] are read back as the number. *)
Definition hex4_round_trip (u : N) : bool :=
  match Json.hex4_value (Json.hex_digit (N.land (N.shiftr u 12) 15))
                        (Json.hex_digit (N.land (N.shiftr u 8) 15))
                        (Json.hex_digit (N.land (N.shiftr u 4) 15))
                        (Json.hex_digit (N.land u 15)) with
  | Some x => (x =? u)%N
  | None => false
  end.

(** The surrogate pair of the code point [65536 + v] is a high and a low
    surrogate that combine to the code point. *)
Definition pair_round_trip (v : N) : bool :=
  let hi := N.lor 55296 (N.land (N.shiftr v 10) 1023) in
  let lo := N.lor 56320 (N.land v 1023) in
  ((55296 <=? hi) && (hi <=? 56319) && (56320 <=? lo) && (lo <=? 57343)
   && (65536 + N.lor (N.shiftl (hi - 55296) 10) (lo - 56320)
       =? 65536 + v))%N.

(** The number the digits of a decimal spell after the digits that gave
    [acc], as [take_digits] adds them up. *)
Fixpoint digits_value (d : Decimal.uint) (acc : Z) : Z :=
  match d with
  | Decimal.Nil => acc
  | Decimal.D0 d => digits_value d (10 * acc + 0)
  | Decimal.D1 d => digits_value d (10 * acc + 1)
  | Decimal.D2 d => digits_value d (10 * acc + 2)
  | Decimal.D3 d => digits_value d (10 * acc + 3)
  | Decimal.D4 d => digits_value d (10 * acc + 4)
  | Decimal.D5 d => digits_value d (10 * acc + 5)
  | Decimal.D6 d => digits_value d (10 * acc + 6)
  | Decimal.D7 d => digits_value d (10 * acc + 7)
  | Decimal.D8 d => digits_value d (10 * acc + 8)
  | Decimal.D9 d => digits_value d (10 * acc + 9)
  end.

(** The floats [serialize] writes: those among the charges, the reference
    lists, the thermal data and the Nightingale data. *)
Definition num_floats (zs : list pynum) : list float :=
  flat_map (fun v => match v with
                     | PyFloat x => [x]
                     | PyInt _ => []
                     end) zs.

Definition option_floats (o : option (list float)) : list float :=
  match o with
  | Some l => l
  | None => []
  end.

Definition nightingale_floats (o : option Nightingale.t) : list float :=
  match o with
  | Some nd => Nightingale.fit nd ++ [Nightingale.min nd; Nightingale.max nd]
  | None => []
  end.

Definition record_floats (self : Ion) : list float :=
  num_floats self.(z) ++ self.(_pKa_ref) ++ self.(_absolute_mobility_ref)
  ++ option_floats self.(dH) ++ option_floats self.(dCp)
  ++ nightingale_floats self.(nightingale_data).

(** ** Reasoning about methods *)

Lemma bind_Ok {A B} (c : M A) (k : A -> M B) s b s2 w :
  bind c k s = (Ok b, s2, w) ->
  exists a s1 w1 w2,
    c s = (Ok a, s1, w1) /\ k a s1 = (Ok b, s2, w2) /\ w = w1 ++ w2.
Proof.
  unfold bind. destruct (c s) as [[[a|e] s1] w1]; [|discriminate].
  destruct (k a s1) as [[r s3] w2] eqn:Hk. intros H; inversion H; subst.
  exists a, s1, w1, w2. auto.
Qed.

Lemma bind_Raise {A B} (c : M A) (k : A -> M B) s e s2 w :
  bind c k s = (Raise e, s2, w) ->
  c s = (Raise e, s2, w) \/
  exists a s1 w1 w2,
    c s = (Ok a, s1, w1) /\ k a s1 = (Raise e, s2, w2) /\ w = w1 ++ w2.
Proof.
  unfold bind. destruct (c s) as [[[a|e'] s1] w1].
  - destruct (k a s1) as [[r s3] w2] eqn:Hk. intros H; inversion H; subst.
    right. exists a, s1, w1, w2. auto.
  - intros H; inversion H; subst. now left.
Qed.

Lemma lift_Ok {A} (r : result A) s a s' w :
  lift r s = (Ok a, s', w) -> r = Ok a /\ s' = s /\ w = [].
Proof.
  destruct r; simpl; unfold ret, raise; intros H; inversion H; auto.
Qed.

Lemma assert_Ok b msg s u s' w :
  assert b msg s = (Ok u, s', w) -> b = true /\ s' = s /\ w = [].
Proof.
  destruct b; simpl; unfold ret, raise; intros H; inversion H; auto.
Qed.

Lemma mapR_Ok {A B} (f : A -> result B) l bs :
  mapR f l = Ok bs -> Forall2 (fun a b => f a = Ok b) l bs.
Proof.
  revert bs. induction l as [|a l IH]; simpl; intros bs H.
  - inversion H. constructor.
  - destruct (f a) as [b|] eqn:Hf; simpl in H; [|discriminate].
    destruct (mapR f l) as [bs'|]; simpl in H; [|discriminate].
    inversion H; subst. constructor; auto.
Qed.

Lemma mapR_total {A B} (f : A -> result B) l :
  Forall (fun a => exists b, f a = Ok b) l -> exists bs, mapR f l = Ok bs.
Proof.
  induction 1 as [|a l [b Hb] _ [bs IH]]; simpl.
  - now exists [].
  - rewrite Hb, IH. simpl. now exists (b :: bs).
Qed.

(** ** [sorted] keeps the items *)

Section SortedFacts.
Context {A : Type} (lt : A -> A -> bool).

Lemma insert_In x a l : In x (insert lt a l) <-> x = a \/ In x l.
Proof.
  induction l as [|y l IH]; simpl.
  - intuition.
  - destruct (lt y a); simpl; rewrite ?IH; intuition.
Qed.

Lemma sorted_In x l : In x (sorted lt l) <-> In x l.
Proof.
  induction l as [|a l IH]; simpl; [tauto|].
  rewrite insert_In, IH. intuition.
Qed.

Lemma sorted_Forall (P : A -> Prop) l : Forall P l -> Forall P (sorted lt l).
Proof.
  rewrite !Forall_forall. intros H x Hx. apply H. now apply sorted_In.
Qed.

Lemma insert_length a l : List.length (insert lt a l) = S (List.length l).
Proof.
  induction l as [|y l IH]; simpl; [reflexivity|].
  destruct (lt y a); simpl; congruence.
Qed.

Lemma sorted_length l : List.length (sorted lt l) = List.length l.
Proof.
  induction l as [|a l IH]; simpl; [reflexivity|].
  now rewrite insert_length, IH.
Qed.

Lemma sorted_in_order l : in_order lt l -> sorted lt l = l.
Proof.
  induction l as [|x l IH]; simpl; [reflexivity|].
  intros [Hx Hl]. rewrite (IH Hl).
  destruct l as [|y l']; simpl; [reflexivity|]. now rewrite Hx.
Qed.
End SortedFacts.

Lemma zip3_In {A B C} (a : list A) (b : list B) (c : list C) x y w :
  In (x, y, w) (zip3 a b c) -> In x a /\ In y b /\ In w c.
Proof.
  revert b c. induction a as [|x' a IH]; intros [|y' b] [|w' c]; simpl;
    try tauto.
  intros [H|H].
  - inversion H; subst. auto.
  - apply IH in H. tauto.
Qed.

(** ** Numbers *)

Lemma of_pos_finite s p x :
  PyFloat.of_pos s p = Some x -> exists m e, x = S754_finite s m e.
Proof.
  unfold PyFloat.of_pos.
  destruct (_ <=? _).
  - intros H; inversion H; eauto.
  - destruct (_ =? Z.shiftl 1 PyFloat.prec).
    + destruct (_ <? _); [discriminate|].
      destruct (Z.shiftl 1 (PyFloat.prec - 1)); try discriminate.
      intros H; inversion H; eauto.
    + destruct (_ <? _); [discriminate|].
      match goal with |- context [match ?q with _ => _ end] => destruct q end;
        try discriminate.
      intros H; inversion H; eauto.
Qed.

Lemma of_Z_finite n x :
  n <> 0 -> PyFloat.of_Z n = Some x -> exists m e, x = S754_finite (n <? 0) m e.
Proof.
  destruct n; simpl; [congruence| |]; intros _ H;
    apply of_pos_finite in H; exact H.
Qed.

Lemma of_Z_not_zero n x :
  n <> 0 -> PyFloat.of_Z n = Some x -> PyFloat.is_zero x = false.
Proof.
  intros Hn H. destruct (of_Z_finite n x Hn H) as (m & e & ->). reflexivity.
Qed.





Lemma abs_with_sign b x : PyFloat.abs (PyFloat.with_sign b x) = PyFloat.abs x.
Proof. destruct x, b; reflexivity. Qed.

Lemma with_sign_same x : PyFloat.with_sign (PyFloat.signbit x) x = x.
Proof. destruct x as [[]|[]| |[]]; reflexivity. Qed.



Lemma sign_matches_Ok n m b :
  sign_matches (PyInt n, m) = Ok b -> exists x, PyFloat.of_Z n = Some x.
Proof.
  unfold sign_matches, copysign. simpl.
  destruct (PyFloat.of_Z n) as [x|]; simpl; [eauto|discriminate].
Qed.

Lemma force_sign_Ok zc m m' :
  force_sign (zc, m) = Ok m' -> m' = PyFloat.with_sign (num_signbit zc) m.
Proof.
  unfold force_sign, copysign. simpl.
  destruct (to_float zc); simpl; [|discriminate]. intros H; now inversion H.
Qed.

Lemma num_eqb_PyInt n k : num_eqb (PyInt n) (PyInt k) = true -> n = k.
Proof.
  unfold num_eqb. simpl. destruct (n ?= k) eqn:H; try discriminate.
  intros _. now apply Z.compare_eq_iff.
Qed.

Lemma range_In k a b : In k (range a b) <-> a <= k < b.
Proof.
  unfold range. rewrite in_map_iff. split.
  - intros (i & <- & Hi). apply in_seq in Hi. lia.
  - intros H. exists (Z.to_nat (k - a)). split; [lia|].
    apply in_seq. lia.
Qed.

(** ** Charge lists that passed [_z_sort] *)

Lemma run_checked_member zs v :
  run_checked zs -> In v zs ->
  exists k, k <> 0 /\ num_eqb v (PyInt k) = true.
Proof.
  intros (z1 & zs' & lo & hi & -> & _ & _ & Hd) Hv.
  unfold sym_diff_empty in Hd. apply andb_prop in Hd as [Hd _].
  rewrite forallb_forall in Hd. specialize (Hd v Hv).
  apply existsb_exists in Hd as (k & Hk & He).
  apply filter_In in Hk as [_ Hk]. exists k. split; [|exact He].
  intros ->. discriminate.
Qed.

Lemma run_checked_ints zs :
  run_checked zs -> forallb isinstance_int zs = true ->
  Forall (fun v => exists n, v = PyInt n /\ n <> 0) zs.
Proof.
  intros Hr Hi. apply Forall_forall. intros v Hv.
  rewrite forallb_forall in Hi. specialize (Hi v Hv).
  destruct (run_checked_member zs v Hr Hv) as (k & Hk & He).
  destruct v as [n|x]; [|discriminate].
  apply num_eqb_PyInt in He. subst. eauto.
Qed.

(** ** What the methods do to [self] *)

Lemma _z_sort_Ok s u s' w :
  _z_sort s = (Ok u, s', w) ->
  (z s', pKa s', absolute_mobility s')
  = unzip3 (sorted tuple_ltb (zip3 (z s) (pKa s) (absolute_mobility s))) /\
  w = [] /\ z0 s' = z0 s /\ same_inputs s s' /\ run_checked (z s').
Proof.
  unfold _z_sort, bind, get. 
  destruct (sorted tuple_ltb _) as [|t ts] eqn:Hl; [discriminate|].
  destruct (unzip3 (t :: ts)) as [[zs ps] ms] eqn:Hu.
  simpl.
  destruct zs as [|z1 zs']; [discriminate|].
  unfold unzip3 in Hu. simpl in Hu. 
  destruct (range_incl _ _) as [r|e] eqn:Hr; simpl; [|discriminate].
  destruct (sym_diff_empty _ _) eqn:Hd; simpl; [|discriminate].
  intros H. inversion H; subst; clear H. simpl.
  unfold range_incl in Hr.
  destruct (py_min z1 zs') as [lo|] eqn:Hlo; [|discriminate].
  destruct (py_max z1 zs') as [hi|] eqn:Hhi; [|discriminate].
  inversion Hr; subst; clear Hr.
  repeat split; try reflexivity;
    try (unfold unzip3; simpl; congruence).
  exists z1, zs', lo, hi. auto.
Qed.

Lemma get_Ok s a s' w : get s = (Ok a, s', w) -> a = s /\ s' = s /\ w = [].
Proof. unfold get. intros H; inversion H; auto. Qed.

Lemma same_inputs_refl s : same_inputs s s.
Proof. repeat split. Qed.

Lemma same_inputs_trans s1 s2 s3 :
  same_inputs s1 s2 -> same_inputs s2 s3 -> same_inputs s1 s3.
Proof. unfold same_inputs. intuition congruence. Qed.

Section AdjustFacts.
Context {_solvent : Aqueous}.
Variable _correct_pKa : Ion -> result (list float).

Lemma temperature_adjust_Ok s u s' w :
  temperature_adjust _correct_pKa s = (Ok u, s', w) ->
  exists ps ms,
    adjusted _correct_pKa s ps ms w /\
    (z s', pKa s', absolute_mobility s')
    = unzip3 (sorted tuple_ltb (zip3 (z s) ps ms)) /\
    z0 s' = sorted num_ltb (PyInt 0 :: z s') /\
    same_inputs s s' /\ run_checked (z s').
Proof.
  unfold temperature_adjust. intros H.
  apply bind_Ok in H as (self & s1 & w1 & w2 & Hg & H & ->).
  apply get_Ok in Hg as (-> & -> & ->).
  apply bind_Ok in H as ([] & s2 & w2' & w3 & Hv & H & ->).
  apply bind_Ok in H as ([] & s3 & w4 & w5 & Hs & H & ->).
  apply _z_sort_Ok in Hs as (Hs & -> & Hz0 & Hsame & Hrun).
  unfold _set_z0, bind, get, set_z0 in H. inversion H; subst; clear H.
  simpl in *. rewrite !app_nil_r.
  assert (Hpre : exists ps ms, adjusted _correct_pKa s ps ms w2' /\ z s2 = z s /\
                   pKa s2 = ps /\ absolute_mobility s2 = ms /\ same_inputs s s2).
  { clear Hs Hz0 Hsame Hrun.
    destruct (PyFloat.eqb (T s) (_T_ref s)) eqn:HT.
    - unfold bind, set_pKa, set_absolute_mobility in Hv.
      inversion Hv; subst; clear Hv. simpl.
      exists (_pKa_ref s), (_absolute_mobility_ref s).
      repeat split. now constructor.
    - apply bind_Ok in Hv as (ps & s4 & w6 & w7 & Hc & Hv & ->).
      apply lift_Ok in Hc as (Hc & -> & ->).
      apply bind_Ok in Hv as ([] & s5 & w8 & w9 & Hp & Hv & ->).
      unfold set_pKa in Hp. inversion Hp; subst; clear Hp.
      destruct (_nightingale_function s) as [f|] eqn:Hf.
      + destruct (Poly1d.truthy f) eqn:Htr.
        * apply bind_Ok in Hv as (ms & s6 & w10 & w11 & Hm & Hv & ->).
          apply lift_Ok in Hm as (Hm & -> & ->). simpl in Hm.
          apply bind_Ok in Hv as ([] & s7 & w12 & w13 & Hsm & Hv & ->).
          unfold set_absolute_mobility in Hsm.
          inversion Hsm; subst; clear Hsm. simpl in Hv.
          destruct (nightingale_data s) as [nd|] eqn:Hnd; [|discriminate].
          exists ps, ms. simpl.
          destruct (_ || _) eqn:Hout; inversion Hv; subst; clear Hv; simpl;
            (split; [|repeat split; auto]).
          -- replace [msg_range] with
               (if PyFloat.ltb (Nightingale.max nd) (T s)
                   || PyFloat.ltb (T s) (Nightingale.min nd)
                then [msg_range] else []) by now rewrite Hout.
             eapply adjusted_nightingale; eauto.
          -- replace (@nil string) with
               (if PyFloat.ltb (Nightingale.max nd) (T s)
                   || PyFloat.ltb (T s) (Nightingale.min nd)
                then [msg_range] else []) by now rewrite Hout.
             eapply adjusted_nightingale; eauto.
        * apply bind_Ok in Hv as (ms & s6 & w10 & w11 & Hm & Hv & ->).
          apply lift_Ok in Hm as (Hm & -> & ->). simpl in Hm.
          unfold set_absolute_mobility in Hv.
          inversion Hv; subst; clear Hv. simpl.
          exists ps, ms. split; [|repeat split; auto].
          apply adjusted_walden; auto. rewrite Hf. exact Htr.
      + apply bind_Ok in Hv as (ms & s6 & w10 & w11 & Hm & Hv & ->).
        apply lift_Ok in Hm as (Hm & -> & ->). simpl in Hm.
        unfold set_absolute_mobility in Hv.
        inversion Hv; subst; clear Hv. simpl.
        exists ps, ms. split; [|repeat split; auto].
        apply adjusted_walden; auto. now rewrite Hf. }
  destruct Hpre as (ps & ms & Hadj & Hz & Hp & Hm & Hsame').
  exists ps, ms. rewrite Hz, Hp, Hm in Hs.
  repeat split; try assumption; try apply (same_inputs_trans _ _ _ Hsame' Hsame);
    try apply Hsame; try apply Hsame'.
Qed.
End AdjustFacts.

Lemma mapR_Raise {A B} (f : A -> result B) l e :
  mapR f l = Raise e -> exists a, In a l /\ f a = Raise e.
Proof.
  induction l as [|a l IH]; simpl; [discriminate|].
  destruct (f a) as [b|e'] eqn:Hf; simpl.
  - destruct (mapR f l) as [bs|e'']; simpl; [discriminate|].
    intros H; inversion H; subst. destruct IH as (a' & Ha & Hf'); eauto.
  - intros H; inversion H; subst. eauto.
Qed.

Lemma lift_Raise {A} (r : result A) s e s' w :
  lift r s = (Raise e, s', w) -> r = Raise e /\ s' = s /\ w = [].
Proof.
  destruct r; simpl; unfold ret, raise; intros H; inversion H; auto.
Qed.

Lemma assert_Raise b msg s (e : exn) s' w :
  assert b msg s = (@Raise unit e, s', w) ->
  b = false /\ e = AssertionError msg /\ s' = s /\ w = [].
Proof.
  destruct b; simpl; unfold ret, raise; intros H; inversion H; auto.
Qed.

Lemma sign_matches_Raise zm e : sign_matches zm = Raise e -> e = OverflowError.
Proof.
  destruct zm as [[n|x] m]; unfold sign_matches, copysign; simpl.
  - destruct (PyFloat.of_Z n); simpl; [discriminate|]. intros H; now inversion H.
  - discriminate.
Qed.

Lemma force_sign_Raise zm e : force_sign zm = Raise e -> e = OverflowError.
Proof.
  destruct zm as [[n|x] m]; unfold force_sign, copysign; simpl.
  - destruct (PyFloat.of_Z n); simpl; [discriminate|]. intros H; now inversion H.
  - discriminate.
Qed.

Lemma unzip3_lengths {A B C} (l : list (A * B * C)) a b c :
  (a, b, c) = unzip3 l ->
  List.length a = List.length l /\ List.length b = List.length l
  /\ List.length c = List.length l.
Proof.
  unfold unzip3. intros H; inversion H; subst. now rewrite !length_map.
Qed.

Lemma Forall2_length_eq {A B} (P : A -> B -> Prop) l l' :
  Forall2 P l l' -> List.length l = List.length l'.
Proof. induction 1; simpl; congruence. Qed.

Section InitFacts.
Context {_solvent : Aqueous}.
Variable _correct_pKa : Ion -> result (list float).

Lemma temperature_adjust_lengths s u s' w :
  temperature_adjust _correct_pKa s = (Ok u, s', w) ->
  List.length (pKa s') = List.length (z s')
  /\ List.length (absolute_mobility s') = List.length (z s').
Proof.
  intros H. apply temperature_adjust_Ok in H as (ps & ms & _ & H & _).
  apply unzip3_lengths in H. intuition congruence.
Qed.

(** What a run of [__init__] that returns has done. *)
Lemma init_Ok name' z' pKa_ref mob_ref dH' dCp' nd T' T_ref s0 u s' w :
  __init__ _correct_pKa name' z' pKa_ref mob_ref dH' dCp' nd T' T_ref s0
  = (Ok u, s', w) ->
  exists s1 w1 w2 ok,
    temperature_adjust _correct_pKa
      (init_attributes name' z' pKa_ref mob_ref dH' dCp' nd T' T_ref)
    = (Ok tt, s1, w1) /\
    w = w1 ++ w2 /\
    z s' = z s1 /\ pKa s' = pKa s1 /\ z0 s' = z0 s1 /\ same_inputs s1 s' /\
    forallb isinstance_int (z s1) = true /\
    mapR sign_matches (combine (z s1) (absolute_mobility s1)) = Ok ok /\
    if forallb (fun b : bool => b) ok
    then absolute_mobility s' = absolute_mobility s1 /\ w2 = []
    else mapR force_sign (combine (z s1) (absolute_mobility s1))
         = Ok (absolute_mobility s') /\ w2 = [msg_signs].
Proof.
  unfold __init__. intros H.
  apply bind_Ok in H as ([] & sa & wa & wb & Hput & H & ->).
  unfold put in Hput. inversion Hput; subst; clear Hput.
  apply bind_Ok in H as ([] & s1 & w1 & wc & Hta & H & ->).
  apply bind_Ok in H as (self & sb & wd & we & Hg & H & ->).
  apply get_Ok in Hg as (-> & -> & ->).
  apply bind_Ok in H as (ok & sc & wf & wg & Hok & H & ->).
  apply lift_Ok in Hok as (Hok & -> & ->).
  apply bind_Ok in H as ([] & s2 & w2 & wh & Hco & H & ->).
  apply bind_Ok in H as (self & sd & wi & wj & Hg & H & ->).
  apply get_Ok in Hg as (-> & -> & ->).
  apply bind_Ok in H as ([] & se & wk & wl & Ha1 & H & ->).
  apply assert_Ok in Ha1 as (Hint & -> & ->).
  apply bind_Ok in H as ([] & sf & wm & wn & Ha2 & H & ->).
  apply assert_Ok in Ha2 as (_ & -> & ->).
  apply assert_Ok in H as (_ & -> & ->).
  exists s1, w1, w2, ok. simpl. rewrite !app_nil_r.
  destruct (forallb (fun b : bool => b) ok) eqn:Hall.
  - unfold ret in Hco. inversion Hco; subst; clear Hco.
    repeat split; auto.
  - apply bind_Ok in Hco as (ms & sg & wo & wp & Hms & Hco & ->).
    apply lift_Ok in Hms as (Hms & -> & ->).
    unfold bind, set_absolute_mobility, warn in Hco.
    inversion Hco; subst; clear Hco. simpl in *.
    repeat split; auto.
Qed.

(** What can make [__init__] raise. *)
Lemma init_Raise name' z' pKa_ref mob_ref dH' dCp' nd T' T_ref s0 e s' w :
  __init__ _correct_pKa name' z' pKa_ref mob_ref dH' dCp' nd T' T_ref s0
  = (Raise e, s', w) ->
  temperature_adjust _correct_pKa
    (init_attributes name' z' pKa_ref mob_ref dH' dCp' nd T' T_ref)
  = (Raise e, s', w)
  \/ e = OverflowError \/ e = AssertionError msg_nonint.
Proof.
  unfold __init__. intros H.
  apply bind_Raise in H as [H|([] & sa & wa & wb & Hput & H & ->)];
    [unfold put in H; discriminate|].
  unfold put in Hput. inversion Hput; subst; clear Hput.
  apply bind_Raise in H as [H|([] & s1 & w1 & wc & Hta & H & ->)];
    [now left|].
  right.
  pose proof (temperature_adjust_lengths _ _ _ _ Hta) as [Hlp Hlm].
  apply bind_Raise in H as [H|(self & sb & wd & we & Hg & H & ->)];
    [unfold get in H; discriminate|].
  apply get_Ok in Hg as (-> & -> & ->).
  apply bind_Raise in H as [H|(ok & sc & wf & wg & Hok & H & ->)].
  { apply lift_Raise in H as (H & _).
    apply mapR_Raise in H as (a & _ & H). left.
    now apply sign_matches_Raise in H. }
  apply lift_Ok in Hok as (Hok & -> & ->).
  apply bind_Raise in H as [H|([] & s2 & w2 & wh & Hco & H & ->)].
  { destruct (forallb _ ok); [unfold ret in H; discriminate|].
    apply bind_Raise in H as [H|(ms & sg & wo & wp & Hms & H & ->)].
    - apply lift_Raise in H as (H & _).
      apply mapR_Raise in H as (a & _ & H). left.
      now apply force_sign_Raise in H.
    - unfold bind, set_absolute_mobility, warn in H. discriminate. }
  assert (Hz : z s2 = z s1 /\ pKa s2 = pKa s1 /\
               List.length (absolute_mobility s2) = List.length (z s1)).
  { destruct (forallb _ ok).
    - unfold ret in Hco. inversion Hco; subst. auto.
    - apply bind_Ok in Hco as (ms & sg & wo & wp & Hms & Hco & ->).
      apply lift_Ok in Hms as (Hms & -> & ->).
      unfold bind, set_absolute_mobility, warn in Hco.
      inversion Hco; subst; clear Hco. simpl. repeat split.
      apply mapR_Ok, Forall2_length_eq in Hms.
      rewrite <- Hms, length_combine. lia. }
  destruct Hz as (Hz & Hp & Hm).
  apply bind_Raise in H as [H|(self & sd & wi & wj & Hg & H & ->)];
    [unfold get in H; discriminate|].
  apply get_Ok in Hg as (-> & -> & ->).
  apply bind_Raise in H as [H|([] & se & wk & wl & Ha1 & H & ->)].
  { apply assert_Raise in H as (_ & -> & _). now right. }
  apply assert_Ok in Ha1 as (_ & -> & ->).
  exfalso.
  apply bind_Raise in H as [H|([] & sf & wm & wn & Ha2 & H & ->)].
  { apply assert_Raise in H as (H & _).
    rewrite Hz, Hp, Hlp, Nat.eqb_refl in H. discriminate. }
  apply assert_Ok in Ha2 as (_ & -> & ->).
  apply assert_Raise in H as (H & _).
  rewrite Hz, Hm, Nat.eqb_refl in H. discriminate.
Qed.
End InitFacts.

Lemma combine_Forall2 {A B} (P : A -> B -> Prop) a b :
  List.length b = List.length a ->
  (forall x y, In (x, y) (combine a b) -> P x y) -> Forall2 P a b.
Proof.
  revert b. induction a as [|x a IH]; intros [|y b]; simpl; try discriminate.
  - constructor.
  - intros Hl H. injection Hl as Hl. constructor; auto.
Qed.



Lemma mapR_force_sign l ms :
  mapR force_sign l = Ok ms ->
  ms = map (fun zm => PyFloat.with_sign (num_signbit (fst zm)) (snd zm)) l.
Proof.
  intros H. apply mapR_Ok in H. induction H as [|[zc m] m' l ms Hf _ IH]; simpl.
  - reflexivity.
  - apply force_sign_Ok in Hf. now subst.
Qed.



Lemma combine_In_l {A B} (a : list A) (b : list B) x :
  List.length b = List.length a -> In x a -> exists y, In (x, y) (combine a b).
Proof.
  revert b. induction a as [|x' a IH]; intros [|y b]; simpl; try discriminate;
    try tauto.
  intros Hl [->|Hx]; [eauto|].
  injection Hl as Hl. destruct (IH b Hl Hx) as (y' & Hy). eauto.
Qed.

Lemma Forall2_In_l {A B} (P : A -> B -> Prop) l l' a :
  Forall2 P l l' -> In a l -> exists b, In b l' /\ P a b.
Proof.
  induction 1 as [|x y l l' Hp _ IH]; simpl; [tauto|].
  intros [->|Ha]; [eauto|]. destruct (IH Ha) as (b & Hb & Hab). eauto.
Qed.

Lemma py_min_In x l : In (py_min x l) (x :: l).
Proof.
  unfold py_min. revert x. induction l as [|y l IH]; intros x; simpl.
  - now left.
  - destruct (num_ltb y x).
    + right. apply IH.
    + destruct (IH x) as [H|H]; [left|right; right]; auto.
Qed.

Lemma py_max_In x l : In (py_max x l) (x :: l).
Proof.
  unfold py_max. revert x. induction l as [|y l IH]; intros x; simpl.
  - now left.
  - destruct (num_ltb x y).
    + right. apply IH.
    + destruct (IH x) as [H|H]; [left|right; right]; auto.
Qed.

Section ValidIons.
Context {_solvent : Aqueous}.
Variable _correct_pKa : Ion -> result (list float).

(** Every object [Ion(...)] returns holds non-zero int charges, each of which
    fits a float, and its three lists are of one length. *)
Lemma new_Ok_charges name' z' pKa_ref mob_ref dH' dCp' nd T' T_ref ion w :
  new _correct_pKa name' z' pKa_ref mob_ref dH' dCp' nd T' T_ref = (Ok ion, w) ->
  run_checked (z ion) /\
  Forall (fun v => exists n x, v = PyInt n /\ n <> 0 /\ PyFloat.of_Z n = Some x)
         (z ion) /\
  List.length (pKa ion) = List.length (z ion) /\
  List.length (absolute_mobility ion) = List.length (z ion).
Proof.
  unfold new.
  destruct (__init__ _ _ _ _ _ _ _ _ _ _ _) as [[[u|e] s'] w'] eqn:H;
    [|discriminate].
  intros Hn. inversion Hn; subst; clear Hn.
  apply init_Ok in H
    as (s1 & w1 & w2 & ok & Hta & -> & Hz & Hp & _ & _ & Hint & Hok & Hco).
  pose proof (temperature_adjust_lengths _ _ _ _ _ Hta) as [Hlp Hlm].
  apply temperature_adjust_Ok in Hta as (_ & _ & _ & _ & _ & _ & Hrun).
  rewrite Hz, Hp. split; [exact Hrun|]. split; [|split; [exact Hlp|]].
  - pose proof (run_checked_ints _ Hrun Hint) as Hnz.
    rewrite Forall_forall in *. intros v Hv.
    destruct (Hnz v Hv) as (n & -> & Hn).
    destruct (combine_In_l _ _ _ Hlm Hv) as (m & Hin).
    apply mapR_Ok in Hok.
    destruct (Forall2_In_l _ _ _ _ Hok Hin) as (b & _ & Hb).
    apply sign_matches_Ok in Hb as (x & Hx). eauto.
  - destruct (forallb _ ok).
    + destruct Hco as [-> _]. exact Hlm.
    + destruct Hco as [Hm _]. apply mapR_Ok, Forall2_length_eq in Hm.
      rewrite <- Hm, length_combine. lia.
Qed.

(** Charge contiguity: the charges of an Ion are the ints from the least to
    the greatest of them, zero left out. *)
Lemma valid_ion_charges_contiguous
      name' z' pKa_ref mob_ref dH' dCp' nd T' T_ref ion w :
  new _correct_pKa name' z' pKa_ref mob_ref dH' dCp' nd T' T_ref = (Ok ion, w) ->
  exists z1 zs lo hi,
    z ion = z1 :: zs /\ py_min z1 zs = PyInt lo /\ py_max z1 zs = PyInt hi /\
    In (PyInt lo) (z ion) /\ In (PyInt hi) (z ion) /\
    forall k, In (PyInt k) (z ion) <-> lo <= k <= hi /\ k <> 0.
Proof.
  intros H. apply new_Ok_charges in H as (Hrun & Hall & _).
  destruct Hrun as (z1 & zs & lo & hi & Hz & Hlo & Hhi & Hd).
  exists z1, zs, lo, hi. do 3 (split; [assumption|]).
  split; [rewrite Hz, <- Hlo; apply py_min_In|].
  split; [rewrite Hz, <- Hhi; apply py_max_In|].
  intros k. split.
  - intros H. unfold sym_diff_empty in Hd. apply andb_prop in Hd as [Hd _].
    rewrite forallb_forall in Hd. specialize (Hd _ H).
    apply existsb_exists in Hd as (k' & Hk & He).
    apply num_eqb_PyInt in He. subst k'.
    apply filter_In in Hk as [Hk Hk0]. apply range_In in Hk.
    split; [lia|]. intros ->. discriminate.
  - intros [Hk Hk0].
    unfold sym_diff_empty in Hd. apply andb_prop in Hd as [_ Hd].
    rewrite forallb_forall in Hd.
    assert (Hin : In k (filter (fun k => negb (k =? 0)) (range lo (hi + 1)))).
    { apply filter_In. split; [apply range_In; lia|].
      apply negb_true_iff, Z.eqb_neq. exact Hk0. }
    specialize (Hd _ Hin). apply existsb_exists in Hd as (v & Hv & He).
    rewrite Forall_forall in Hall.
    destruct (Hall v Hv) as (n & x & -> & _).
    apply num_eqb_PyInt in He. now subst.
Qed.
End ValidIons.

Section Diffusivity.
Context {_solvent : Aqueous}.
Variable _correct_pKa : Ion -> result (list float).

(** C8.  No division by a zero charge in [diffusivity].  The charges of an
    Ion that [Ion(...)] returned are non-zero ints, so that, whatever the
    ionization fractions are, each term [m * f / float(z)] of the sum is
    computed: none of them raises, and none divides by zero. *)
Theorem diffusivity_never_divides_by_zero_charge
        name' z' pKa_ref mob_ref dH' dCp' nd T' T_ref ion w :
  new _correct_pKa name' z' pKa_ref mob_ref dH' dCp' nd T' T_ref = (Ok ion, w) ->
  Forall (fun v => exists n, v = PyInt n /\ n <> 0) (z ion) /\
  forall fr : list float,
  exists terms,
    mapR diffusivity_term (zip3 (absolute_mobility ion) fr (z ion)) = Ok terms.
Proof.
  intros H. apply new_Ok_charges in H as (_ & Hall & _).
  split.
  - eapply Forall_impl; [|exact Hall]. simpl.
    intros v (n & x & -> & Hn & _). eauto.
  - intros fr. apply mapR_total. apply Forall_forall.
    intros [[m f] zc] Hin. apply zip3_In in Hin as (_ & _ & Hz).
    rewrite Forall_forall in Hall.
    destruct (Hall zc Hz) as (n & x & -> & Hn & Hx).
    unfold diffusivity_term, to_float, truediv. rewrite Hx. simpl.
    rewrite (of_Z_not_zero n x Hn Hx). eauto.
Qed.
End Diffusivity.

(** An Ion of charge -1, and what the theorem says of it. *)
Lemma diffusivity_never_divides_by_zero_charge_witness :
  exists ion w,
    Ion_at_25 "acetic acid" [PyInt (-1)] [PyFloat.dec 476 (-2)]
              [PyFloat.dec (-424) (-10)] = (Ok ion, w) /\
    Forall (fun v => exists n, v = PyInt n /\ n <> 0) (z ion) /\
    forall fr : list float,
    exists terms,
      mapR diffusivity_term (zip3 (absolute_mobility ion) fr (z ion)) = Ok terms.
Proof.
  eexists. eexists. split.
  - vm_compute. reflexivity.
  - apply (diffusivity_never_divides_by_zero_charge
             (_solvent := stub_solvent) no_correction (str "acetic acid")
             (Seq [PyInt (-1)]) (Seq [PyFloat.dec 476 (-2)])
             (Seq [PyFloat.dec (-424) (-10)]) None None None f25 f25 _ []).
    vm_compute. reflexivity.
Defined.

Lemma tuple_ltb_int_gt a b p q m m' :
  a < b -> tuple_ltb (PyInt b, q, m') (PyInt a, p, m) = false.
Proof.
  intros H. unfold tuple_ltb, num_eqb, num_ltb, num_compare.
  assert (Hc : (b ?= a) = Gt) by (apply Z.compare_gt_iff; lia).
  rewrite Hc. reflexivity.
Qed.

(** Strictly ascending charges leave the zipped list in order. *)
Lemma zip3_in_order zs ps ms :
  Sorted Z.lt zs -> in_order tuple_ltb (zip3 (map PyInt zs) ps ms).
Proof.
  intros Hs. revert ps ms. induction Hs as [|a zs Hs IH Hd]; intros ps ms.
  - simpl. exact I.
  - destruct ps as [|p ps]; [exact I|]. destruct ms as [|m ms]; [exact I|].
    change (zip3 (map PyInt (a :: zs)) (p :: ps) (m :: ms))
      with ((PyInt a, p, m) :: zip3 (map PyInt zs) ps ms).
    split; [|apply IH].
    destruct Hd as [|b zs' Hab]; [exact I|].
    destruct ps as [|q ps]; [exact I|]. destruct ms as [|m' ms]; [exact I|].
    simpl. now apply tuple_ltb_int_gt.
Qed.

Lemma with_sign_all zs ms :
  Forall2 (fun n m => PyFloat.signbit m = (n <? 0)) zs ms ->
  map (fun zm => PyFloat.with_sign (num_signbit (fst zm)) (snd zm))
      (combine (map PyInt zs) ms) = ms.
Proof.
  induction 1 as [|n m zs ms H _ IH]; simpl; [reflexivity|].
  rewrite IH, <- H, with_sign_same. reflexivity.
Qed.

Lemma zip3_length {A B C} (a : list A) (b : list B) (c : list C) :
  List.length (zip3 a b c)
  = Nat.min (List.length a) (Nat.min (List.length b) (List.length c)).
Proof.
  revert b c. induction a as [|x a IH]; intros [|y b] [|w c]; simpl;
    try reflexivity.
  now rewrite IH.
Qed.

(** [zip] cuts to the shortest list: unzipping gives back the heads. *)
Lemma unzip3_zip3_firstn {A B C} (a : list A) (b : list B) (c : list C) :
  unzip3 (zip3 a b c)
  = (firstn (List.length (zip3 a b c)) a,
     firstn (List.length (zip3 a b c)) b,
     firstn (List.length (zip3 a b c)) c).
Proof.
  revert b c. induction a as [|x a IH]; intros [|y b] [|w c]; simpl;
    try reflexivity.
  specialize (IH b c). unfold unzip3 in *. simpl.
  injection IH as H1 H2 H3. now rewrite <- H1, <- H2, <- H3.
Qed.

Lemma firstn_In_In {A} n (l : list A) x : In x (firstn n l) -> In x l.
Proof.
  revert l. induction n as [|n IH]; intros [|y l]; simpl; try tauto.
  intros [H|H]; auto.
Qed.

Lemma with_sign_heads n zs ms :
  (n <= List.length zs)%nat -> (n <= List.length ms)%nat ->
  Forall (fun nm => PyFloat.signbit (snd nm) = (fst nm <? 0)) (combine zs ms) ->
  map (fun zm => PyFloat.with_sign (num_signbit (fst zm)) (snd zm))
      (combine (firstn n (map PyInt zs)) (firstn n ms))
  = firstn n ms.
Proof.
  intros Hz Hm H. rewrite firstn_map. apply with_sign_all.
  apply combine_Forall2.
  - rewrite !length_firstn. lia.
  - intros x y Hin. rewrite <- combine_firstn in Hin. apply firstn_In_In in Hin.
    rewrite Forall_forall in H. exact (H (x, y) Hin).
Qed.

Section ReferenceEquality.
Context {_solvent : Aqueous}.
Variable _correct_pKa : Ion -> result (list float).

(** C3.  Reference equality at T_ref.  An Ion built with [T == T_ref] from
    strictly ascending charges and mobilities that carry the signs of their
    charges holds, state by state, exactly the reference values it was
    given and the charges as given: [pKa], [absolute_mobility] and [z] are
    the heads of the input lists, and they are the input lists themselves
    when the reference lists are as long as the charge list. *)
Theorem reference_values_at_T_ref
        name' z' pKa_ref mob_ref dH' dCp' nd T' T_ref zs ion w :
  PyFloat.eqb T' T_ref = true ->
  listify z' = map PyInt zs ->
  Sorted Z.lt zs ->
  Forall (fun nm => PyFloat.signbit (snd nm) = (fst nm <? 0))
         (combine zs (listify mob_ref)) ->
  new _correct_pKa name' z' pKa_ref mob_ref dH' dCp' nd T' T_ref = (Ok ion, w) ->
  (pKa ion = firstn (List.length (z ion)) (listify pKa_ref) /\
   absolute_mobility ion = firstn (List.length (z ion)) (listify mob_ref) /\
   z ion = firstn (List.length (z ion)) (listify z')) /\
  (List.length (listify pKa_ref) = List.length zs ->
   List.length (listify mob_ref) = List.length zs ->
   pKa ion = listify pKa_ref /\
   absolute_mobility ion = listify mob_ref /\
   z ion = listify z').
Proof.
  intros HT Hz Hs Hsg. unfold new.
  destruct (__init__ _ _ _ _ _ _ _ _ _ _ _) as [[[u|e] s'] w'] eqn:H;
    [|discriminate].
  intros Hn. inversion Hn; subst; clear Hn.
  apply init_Ok in H
    as (s1 & w1 & w2 & ok & Hta & -> & Hz1 & Hp1 & _ & _ & _ & _ & Hco).
  apply temperature_adjust_Ok in Hta as (ps & ms & Hadj & Hu & _).
  assert (Hlists : ps = listify pKa_ref /\ ms = listify mob_ref).
  { inversion Hadj; subst; simpl in *; try congruence. auto. }
  destruct Hlists as [-> ->].
  cbn [z init_attributes] in Hu. rewrite Hz in Hu.
  rewrite (sorted_in_order _ _ (zip3_in_order _ _ _ Hs)) in Hu.
  rewrite unzip3_zip3_firstn in Hu.
  set (n := List.length (zip3 (map PyInt zs) (listify pKa_ref)
                              (listify mob_ref))) in *.
  assert (Hn : (n <= List.length zs /\ n <= List.length (listify pKa_ref)
                /\ n <= List.length (listify mob_ref))%nat).
  { unfold n. rewrite zip3_length, length_map. lia. }
  inversion Hu as [[Hzs Hps Hms]].
  assert (Hlen : List.length (z ion) = n).
  { rewrite Hz1, Hzs, length_firstn, length_map. lia. }
  assert (Hmob : absolute_mobility ion = firstn n (listify mob_ref)).
  { destruct (forallb _ ok).
    - destruct Hco as [Hm _]. congruence.
    - destruct Hco as [Hm _]. apply mapR_force_sign in Hm.
      rewrite Hm, Hzs, Hms. apply with_sign_heads; tauto. }
  rewrite Hlen, Hz1, Hp1, Hzs, Hps, Hmob, Hz.
  split; [auto|]. intros Hlp Hlm.
  assert (Hnz : n = List.length zs)
    by (unfold n; rewrite zip3_length, length_map; lia).
  rewrite !firstn_all2 by (rewrite ?length_map; lia). auto.
Qed.
End ReferenceEquality.

(** Acetic acid at 25 degrees keeps its reference values. *)
Lemma reference_values_at_T_ref_witness :
  exists ion w,
    Ion_at_25 "acetic acid" [PyInt (-1)] [PyFloat.dec 476 (-2)]
              [PyFloat.dec (-424) (-10)] = (Ok ion, w) /\
    pKa ion = [PyFloat.dec 476 (-2)] /\
    absolute_mobility ion = [PyFloat.dec (-424) (-10)] /\
    z ion = [PyInt (-1)].
Proof.
  eexists. eexists. split.
  - vm_compute. reflexivity.
  - apply (reference_values_at_T_ref
             (_solvent := stub_solvent) no_correction (str "acetic acid")
             (Seq [PyInt (-1)]) (Seq [PyFloat.dec 476 (-2)])
             (Seq [PyFloat.dec (-424) (-10)]) None None None f25 f25
             [-1] _ []).
    + vm_compute. reflexivity.
    + reflexivity.
    + repeat constructor.
    + repeat constructor.
    + vm_compute. reflexivity.
    + reflexivity.
    + reflexivity.
Defined.

(** ** Length mismatches and other rejected inputs *)

(** C5.  A reference list shorter than the charge list is not rejected:
    [Ion('x', [1, 2], [3.0], [1e-8, 2e-8])] returns an Ion, without a
    warning, that has lost the charge 2.  [_z_sort] zips the three lists to
    the shortest before the length assertions of [__init__] are reached. *)
Theorem length_mismatch_is_truncated_not_rejected :
  exists ion,
    Ion_at_25 "x" [PyInt 1; PyInt 2] [PyFloat.dec 3 0]
              [PyFloat.dec 1 (-8); PyFloat.dec 2 (-8)] = (Ok ion, []) /\
    z ion = [PyInt 1] /\
    pKa ion = [PyFloat.dec 3 0] /\
    absolute_mobility ion = [PyFloat.dec 1 (-8)] /\
    _absolute_mobility_ref ion = [PyFloat.dec 1 (-8); PyFloat.dec 2 (-8)].
Proof.
  eexists. split; [vm_compute; reflexivity|].
  evaluate.
Qed.

(** The gap of the charge list [-2, 1] is rejected by the assertion. *)
Lemma gap_is_rejected :
  Ion_at_25 "x" [PyInt (-2); PyInt 1] [PyFloat.dec 2 0; PyFloat.dec 9 0]
            [PyFloat.dec (-2) (-8); PyFloat.dec 1 (-8)]
  = (Raise (AssertionError msg_missing), []).
Proof. vm_compute. reflexivity. Qed.

(** The same gap goes unnoticed when a short list cuts the charge 1 off. *)
Lemma gap_is_missed_after_truncation :
  exists ion,
    Ion_at_25 "x" [PyInt (-2); PyInt 1] [PyFloat.dec 2 0]
              [PyFloat.dec (-2) (-8); PyFloat.dec 1 (-8)] = (Ok ion, []) /\
    z ion = [PyInt (-2)].
Proof. eexists. split; [vm_compute; reflexivity|]. evaluate. Qed.

(** A float among the charges: [range] raises a TypeError at the bound
    [1.5]; the assertion on [isinstance] is only reached when the float sits
    between int bounds and equals an int. *)
Lemma float_charge_is_a_TypeError :
  Ion_at_25 "x" [PyFloat (PyFloat.dec 15 (-1))] [PyFloat.dec 2 0]
            [PyFloat.dec 1 (-8)]
  = (Raise TypeError, []).
Proof. vm_compute. reflexivity. Qed.

Lemma float_charge_between_ints_is_asserted :
  Ion_at_25 "x" [PyInt 1; PyFloat (PyFloat.dec 2 0); PyInt 3]
            [PyFloat.dec 2 0; PyFloat.dec 5 0; PyFloat.dec 9 0]
            [PyFloat.dec 1 (-8); PyFloat.dec 2 (-8); PyFloat.dec 3 (-8)]
  = (Raise (AssertionError msg_nonint), []).
Proof. vm_compute. reflexivity. Qed.

(** An empty reference list leaves nothing to unpack. *)
Lemma empty_list_is_a_ValueError :
  Ion_at_25 "x" [PyInt 1] [] [PyFloat.dec 1 (-8)] = (Raise ValueError, []).
Proof. vm_compute. reflexivity. Qed.

(** ** [set_T] at the current temperature *)

Section SetT.
Context {_solvent : Aqueous}.
Variable _correct_pKa : Ion -> result (list float).

(** [set_T] returns [self], in the state the adjustment left it. *)
Lemma set_T_returns_self t s r s' w :
  set_T _correct_pKa t s = (Ok r, s', w) -> r = s'.
Proof.
  unfold set_T. intros H.
  apply bind_Ok in H as ([] & s1 & w1 & w2 & _ & H & ->).
  apply bind_Ok in H as ([] & s2 & w3 & w4 & _ & H & ->).
  apply get_Ok in H as (-> & -> & ->). reflexivity.
Qed.
End SetT.

(** C2.  [set_T] at the current temperature undoes the sign coercion.
    [Ion('x', [1], [4.76], [-5e-8])] holds the mobility [5e-8] after the
    coercion of [__init__]; [ion.set_T(ion.T)] returns the same object with
    the mobility [-5e-8] of the reference list, and without a warning:
    [temperature_adjust] recomputes from the reference values and only
    [__init__] forces the signs. *)
Theorem set_T_at_current_T_undoes_coercion :
  exists ion ion',
    Ion_at_25 "x" [PyInt 1] [PyFloat.dec 476 (-2)] [PyFloat.dec (-5) (-8)]
    = (Ok ion, [msg_signs]) /\
    absolute_mobility ion = [PyFloat.dec 5 (-8)] /\
    set_T (_solvent := stub_solvent) no_correction (T ion) ion
    = (Ok ion', ion', []) /\
    absolute_mobility ion' = [PyFloat.dec (-5) (-8)] /\
    absolute_mobility ion' <> absolute_mobility ion /\
    pKa ion' = pKa ion /\ z0 ion' = z0 ion.
Proof.
  eexists. eexists. split; [vm_compute; reflexivity|].
  split; [vm_compute; reflexivity|].
  split; [vm_compute; reflexivity|].
  evaluate.
Qed.

(** With charges given out of order, [set_T] at the current temperature
    pairs the sorted charges with the reference lists in their input order:
    [pKa] and [absolute_mobility] change, and the mobilities end up with the
    wrong signs. *)
Lemma set_T_at_current_T_misaligns_unsorted_input :
  exists ion ion',
    Ion_at_25 "x" [PyInt 1; PyInt (-1)] [PyFloat.dec 9 0; PyFloat.dec 3 0]
              [PyFloat.dec 5 (-8); PyFloat.dec (-3) (-8)]
    = (Ok ion, []) /\
    z ion = [PyInt (-1); PyInt 1] /\
    pKa ion = [PyFloat.dec 3 0; PyFloat.dec 9 0] /\
    absolute_mobility ion = [PyFloat.dec (-3) (-8); PyFloat.dec 5 (-8)] /\
    set_T (_solvent := stub_solvent) no_correction (T ion) ion
    = (Ok ion', ion', []) /\
    z ion' = [PyInt (-1); PyInt 1] /\
    pKa ion' = [PyFloat.dec 9 0; PyFloat.dec 3 0] /\
    absolute_mobility ion' = [PyFloat.dec 5 (-8); PyFloat.dec (-3) (-8)].
Proof.
  eexists. eexists. split; [vm_compute; reflexivity|].
  do 3 (split; [vm_compute; reflexivity|]).
  split; [vm_compute; reflexivity|].
  evaluate.
Qed.

(** ** Round trip through the record *)

(** C7.  The round trip fails on unsorted input.
    [Ion('x', [1, -1], [9.0, 3.0], [5e-8, -3e-8])] serializes its sorted
    charges [-1, 1] next to the reference lists in their input order; the
    Ion rebuilt from that record at the same temperature pairs the charge -1
    with the pKa 9 and the charge 1 with the pKa 3, and its mobilities are
    the wrong references, sign-forced under a warning. *)
Theorem round_trip_misaligns_unsorted_input :
  exists ion ion2,
    Ion_at_25 "x" [PyInt 1; PyInt (-1)] [PyFloat.dec 9 0; PyFloat.dec 3 0]
              [PyFloat.dec 5 (-8); PyFloat.dec (-3) (-8)]
    = (Ok ion, []) /\
    Serial.z (serialize_nested ion) = [PyInt (-1); PyInt 1] /\
    Serial.pKa_ref (serialize_nested ion) = [PyFloat.dec 9 0; PyFloat.dec 3 0] /\
    rebuild (_solvent := stub_solvent) no_correction
            (serialize_nested ion) f25 f25
    = (Ok ion2, [msg_signs]) /\
    z ion2 = z ion /\
    pKa ion = [PyFloat.dec 3 0; PyFloat.dec 9 0] /\
    pKa ion2 = [PyFloat.dec 9 0; PyFloat.dec 3 0] /\
    absolute_mobility ion = [PyFloat.dec (-3) (-8); PyFloat.dec 5 (-8)] /\
    absolute_mobility ion2 = [PyFloat.dec (-5) (-8); PyFloat.dec 3 (-8)].
Proof.
  eexists. eexists. split; [vm_compute; reflexivity|].
  do 3 (split; [vm_compute; reflexivity|]).
  evaluate.
Qed.

(** ** The Nightingale branch *)




Section Nightingale.
Context {_solvent : Aqueous}.
Variable _correct_pKa : Ion -> result (list float).

End Nightingale.



(** A constant fit makes a falsy [poly1d]: the Nightingale data are passed
    over and the reference mobility is scaled by the viscosity ratio. *)
Lemma constant_fit_is_passed_over :
  exists ion r,
    new (_solvent := stub_solvent) no_correction (str "x") (Seq [PyInt 1])
        (Seq [PyFloat.dec 5 0]) (Seq [PyFloat.dec 1 (-8)]) None None
        (Some constant_fit) (PyFloat.dec 30 0) f25 = (Ok ion, []) /\
    nightingale_data ion = Some constant_fit /\
    walden_mobility (_solvent := stub_solvent) (PyFloat.dec 30 0) f25
                    (PyFloat.dec 1 (-8)) = Ok r /\
    absolute_mobility ion = [r].
Proof.
  eexists. eexists. split; [vm_compute; reflexivity|].
  split; [vm_compute; reflexivity|].
  split; vm_compute; reflexivity.
Qed.

Section NightingaleFunction.
Context {_solvent : Aqueous}.
Variable _correct_pKa : Ion -> result (list float).

(** The polynomial an Ion carries is the [poly1d] of the fit of its
    Nightingale data, from construction on. *)
Lemma new_nightingale_function
      name' z' pKa_ref mob_ref dH' dCp' nd T' T_ref ion w :
  new _correct_pKa name' z' pKa_ref mob_ref dH' dCp' nd T' T_ref = (Ok ion, w) ->
  nightingale_data ion = nd /\
  _nightingale_function ion
  = option_map (fun nd => Poly1d.poly1d (Nightingale.fit nd)) nd /\
  T ion = T' /\ _T_ref ion = T_ref.
Proof.
  unfold new.
  destruct (__init__ _ _ _ _ _ _ _ _ _ _ _) as [[[u|e] s'] w'] eqn:H;
    [|discriminate].
  intros Hn. inversion Hn; subst; clear Hn.
  apply init_Ok in H
    as (s1 & w1 & w2 & ok & Hta & _ & _ & _ & _ & Hs & _).
  apply temperature_adjust_Ok in Hta as (_ & _ & _ & _ & _ & Hs1 & _).
  destruct (same_inputs_trans _ _ _ Hs1 Hs)
    as (_ & HT & HTr & _ & _ & Hnd & Hf & _).
  simpl in *. auto.
Qed.

End NightingaleFunction.

(** ** The Robinson-Stokes correction *)

Section RobinsonStokes.
Variable float_pow : float -> float -> result float.

(** C6.  The dielectric constant is read at [T] only.  Two solvents of one
    viscosity whose dielectric constants agree at the temperature [t] of the
    correction give the same corrected mobilities, however they differ at
    the reference temperature: [d_ref] is [obj.dielectric(T)], so that
    no value of the dielectric constant at 25 degrees enters [A] or [B]. *)
Theorem robinson_stokes_reads_dielectric_at_T_only
        (s1 s2 : Aqueous) (obj : Ion) (I t : float) :
  (forall x, viscosity (Aqueous := s1) x = viscosity (Aqueous := s2) x) ->
  dielectric (Aqueous := s1) t = dielectric (Aqueous := s2) t ->
  robinson_stokes_body (_solvent := s1) float_pow obj I t
  = robinson_stokes_body (_solvent := s2) float_pow obj I t.
Proof.
  intros Hv Hd. unfold robinson_stokes_body.
  rewrite Hd. rewrite (Hv t), (Hv (PyFloat.dec 25 0)). reflexivity.
Qed.

Context {_solvent : Aqueous}.

(** C10.  A temperature argument of zero is not used.  With [T] equal to
    zero, or None, the correction is the one at [obj.T], which is also what
    passing [obj.T] itself gives; any other [T] is used as passed, and the
    call without [T] is the call with 25. *)
Theorem robinson_stokes_zero_T_falls_back_to_obj_T (obj : Ion) (I : float) :
  (forall t, PyFloat.eqb t PyFloat.zero = true ->
             robinson_stokes_mobility float_pow obj I (Some t)
             = robinson_stokes_mobility float_pow obj I (Some (T obj))) /\
  robinson_stokes_mobility float_pow obj I (Some (T obj))
  = robinson_stokes_body float_pow obj I (T obj) /\
  robinson_stokes_mobility float_pow obj I None
  = robinson_stokes_body float_pow obj I (T obj) /\
  (forall t, PyFloat.eqb t PyFloat.zero = false ->
             robinson_stokes_mobility float_pow obj I (Some t)
             = robinson_stokes_body float_pow obj I t) /\
  robinson_stokes_mobility_default float_pow obj I
  = robinson_stokes_body float_pow obj I (PyFloat.dec 25 0).
Proof.
  assert (HT : robinson_stokes_mobility float_pow obj I (Some (T obj))
               = robinson_stokes_body float_pow obj I (T obj)).
  { unfold robinson_stokes_mobility, truthy_T.
    destruct (PyFloat.eqb (T obj) PyFloat.zero); reflexivity. }
  split; [|split; [exact HT|split; [reflexivity|split]]].
  - intros t Ht. rewrite HT.
    unfold robinson_stokes_mobility, truthy_T. now rewrite Ht.
  - intros t Ht. unfold robinson_stokes_mobility, truthy_T. now rewrite Ht.
  - unfold robinson_stokes_mobility_default, robinson_stokes_mobility, truthy_T.
    replace (PyFloat.eqb (PyFloat.dec 25 0) PyFloat.zero) with false
      by (vm_compute; reflexivity).
    reflexivity.
Qed.
End RobinsonStokes.

(** Two solvents that differ at 25 degrees only, at 30 degrees. *)
Lemma robinson_stokes_reads_dielectric_at_T_only_witness :
  robinson_stokes_body (_solvent := stub_solvent) any_pow acetic_acid
                       (PyFloat.dec 1 (-2)) (PyFloat.dec 30 0)
  = robinson_stokes_body (_solvent := stub_solvent') any_pow acetic_acid
                         (PyFloat.dec 1 (-2)) (PyFloat.dec 30 0)
  /\ dielectric (Aqueous := stub_solvent) f25
     <> dielectric (Aqueous := stub_solvent') f25.
Proof.
  split.
  - apply (robinson_stokes_reads_dielectric_at_T_only
             any_pow stub_solvent stub_solvent' acetic_acid).
    + intros x. reflexivity.
    + vm_compute. reflexivity.
  - vm_compute. discriminate.
Defined.

(** The ratio handed to pow, with the reference side read at 25 degrees as
    the description has it, is another number than the one the code
    computes, as soon as the dielectric constant differs between 25 degrees
    and [T]. *)
Lemma reference_ratio_differs :
  rs_ratio f25 (dielectric (Aqueous := stub_solvent') f25) (PyFloat.dec 30 0)
           (dielectric (Aqueous := stub_solvent') (PyFloat.dec 30 0))
  <> rs_ratio f25 (dielectric (Aqueous := stub_solvent') (PyFloat.dec 30 0))
              (PyFloat.dec 30 0)
              (dielectric (Aqueous := stub_solvent') (PyFloat.dec 30 0)).
Proof. vm_compute. discriminate. Qed.

(** Acetic acid at [T = 0.0] and at [T = 30.0]. *)
Lemma robinson_stokes_zero_T_falls_back_to_obj_T_witness :
  robinson_stokes_mobility (_solvent := stub_solvent) any_pow acetic_acid
                           (PyFloat.dec 1 (-2)) (Some PyFloat.zero)
  = robinson_stokes_mobility (_solvent := stub_solvent) any_pow acetic_acid
                             (PyFloat.dec 1 (-2)) (Some (T acetic_acid))
  /\ robinson_stokes_mobility (_solvent := stub_solvent) any_pow acetic_acid
                              (PyFloat.dec 1 (-2)) (Some (PyFloat.dec 30 0))
     = robinson_stokes_body (_solvent := stub_solvent) any_pow acetic_acid
                            (PyFloat.dec 1 (-2)) (PyFloat.dec 30 0).
Proof.
  destruct (robinson_stokes_zero_T_falls_back_to_obj_T
              (_solvent := stub_solvent) any_pow acetic_acid
              (PyFloat.dec 1 (-2))) as (H0 & _ & _ & Ht & _).
  split.
  - apply H0. reflexivity.
  - apply Ht. vm_compute. reflexivity.
Defined.

Section Described.
Context {_solvent : Aqueous}.
Variable float_pow : float -> float -> result float.

(** The code and its description agree where the dielectric constant at
    [T] is the one at 25 degrees, as at [T = 25] itself. *)
Lemma robinson_stokes_as_described_where_dielectric_agrees obj I t :
  dielectric t = dielectric (PyFloat.dec 25 0) ->
  robinson_stokes_body float_pow obj I t
  = robinson_stokes_body_as_described float_pow obj I t.
Proof.
  intros H. unfold robinson_stokes_body, robinson_stokes_body_as_described.
  now rewrite H.
Qed.
End Described.

(** They part where it is not: in the solvent that differs at 25 degrees,
    with the stand-in for pow that returns its base, the corrected mobility
    of acetic acid at 30 degrees is not the described one. *)
Lemma robinson_stokes_differs_from_description :
  robinson_stokes_body (_solvent := stub_solvent') any_pow acetic_acid
                       (PyFloat.dec 1 (-2)) (PyFloat.dec 30 0)
  <> robinson_stokes_body_as_described
       (_solvent := stub_solvent') any_pow acetic_acid
       (PyFloat.dec 1 (-2)) (PyFloat.dec 30 0).
Proof. vm_compute. discriminate. Qed.

(** ** The saved file *)

Lemma string_app_assoc (a b c : string) :
  ((a ++ b) ++ c = a ++ (b ++ c))%string.
Proof. induction a as [|x a IH]; simpl; [reflexivity|]. now rewrite IH. Qed.

(** One escaped character is read back as the character. *)
Lemma scanstring_escape a tail acc :
  Json.scanstring (Json.escape (N_of_ascii a) ++ tail) acc
  = Json.scanstring tail (N_of_ascii a :: acc).
Proof. destruct a as [[] [] [] [] [] [] [] []]; reflexivity. Qed.

Lemma scanstring_escape_all t tail acc :
  Json.scanstring (Json.escape_all (str t) ++ String Json.quote tail) acc
  = Some (rev acc ++ str t, tail).
Proof.
  revert acc. induction t as [|a t IH]; intros acc.
  - simpl. now rewrite app_nil_r.
  - cbn [str Json.escape_all].
    rewrite string_app_assoc, scanstring_escape, IH.
    simpl. now rewrite <- app_assoc.
Qed.

(** A text encoded as a JSON string is decoded as that text. *)
Lemma loads_encode_str t :
  Json.loads (Json.encode_str (str t)) = Some (Json.Str (str t)).
Proof.
  unfold Json.loads, Json.encode_str.
  change (Json.skip_ws (String Json.quote ?s)) with (String Json.quote s).
  rewrite Nat.add_comm.
  cbn [Nat.add Json.scan_once].
  change (Ascii.eqb Json.quote Json.quote) with true. cbv iota.
  rewrite (scanstring_escape_all t EmptyString []). reflexivity.
Qed.


(** The text of [serialize()] itself is the object; the file made from it
    is a string. *)
Lemma serialized_text_is_an_object :
  Json.loads (serialize acetic_repr acetic_acid)
  = Some (Json.Obj
            [(str "__ion__", Json.Bool true);
             (str "name", Json.Str (str "acetic acid"));
             (str "z", Json.Arr [Json.Int (-1)]);
             (str "pKa_ref", Json.Arr [Json.Float (PyFloat.dec 476 (-2))]);
             (str "absolute_mobility_ref",
              Json.Arr [Json.Float (PyFloat.dec (-424) (-10))]);
             (str "dH", Json.Null);
             (str "dCp", Json.Null);
             (str "nightingale_data", Json.Null)]).
Proof. vm_compute. reflexivity. Qed.

(** ** [sorted] sorts *)

Section SortedPermutation.
Context {A : Type} (lt : A -> A -> bool).

Lemma insert_Permutation x l : Permutation (insert lt x l) (x :: l).
Proof.
  induction l as [|y l IH]; simpl; [reflexivity|].
  destruct (lt y x); [|reflexivity].
  rewrite IH. apply perm_swap.
Qed.

Lemma sorted_Permutation l : Permutation (sorted lt l) l.
Proof.
  induction l as [|x l IH]; simpl; [reflexivity|].
  rewrite insert_Permutation. now constructor.
Qed.

(** Where [<] decides a relation [R] either way on the items at hand, the
    result is sorted by [R]. *)
Variable R : A -> A -> Prop.
Variable P : A -> Prop.
Hypothesis lt_true : forall x y, P x -> P y -> lt x y = true -> R x y.
Hypothesis lt_false : forall x y, P x -> P y -> lt x y = false -> R y x.

Lemma insert_Sorted x l :
  P x -> Forall P l -> Sorted R l -> Sorted R (insert lt x l).
Proof.
  intros Hx Hl Hs. induction l as [|y l IH]; simpl.
  - repeat constructor.
  - inversion Hl as [|? ? Hy Hl']; subst.
    inversion Hs as [|? ? Hs' Hd]; subst.
    destruct (lt y x) eqn:Hlt.
    + constructor; [auto|].
      destruct l as [|h l']; simpl.
      * constructor. now apply lt_true.
      * destruct (lt h x); constructor.
        -- inversion Hd; subst. assumption.
        -- now apply lt_true.
    + constructor; [assumption|]. constructor. now apply lt_false.
Qed.

Lemma sorted_Sorted l : Forall P l -> Sorted R (sorted lt l).
Proof.
  induction 1 as [|x l Hx Hl IH]; simpl; [constructor|].
  apply insert_Sorted; auto. now apply sorted_Forall.
Qed.
End SortedPermutation.


Lemma map_int_of zs :
  Forall (fun v => isinstance_int v = true) zs -> map PyInt (map int_of zs) = zs.
Proof.
  induction 1 as [|v zs Hv _ IH]; simpl; [reflexivity|].
  destruct v; [|discriminate]. simpl. now rewrite IH.
Qed.

Lemma tuple_ltb_ints_true a b p q m m' :
  tuple_ltb (PyInt a, p, m) (PyInt b, q, m') = true -> a <= b.
Proof.
  unfold tuple_ltb, num_eqb, num_ltb, num_compare.
  destruct (Z.compare_spec a b); simpl; try lia; discriminate.
Qed.

Lemma tuple_ltb_ints_false a b p q m m' :
  tuple_ltb (PyInt a, p, m) (PyInt b, q, m') = false -> b <= a.
Proof.
  unfold tuple_ltb, num_eqb, num_ltb, num_compare.
  destruct (Z.compare_spec a b); simpl; try lia; discriminate.
Qed.

(** Triples with int charges come out of [sorted] in ascending order of
    charge. *)
Lemma sorted_by_charge (l : list (pynum * float * float)) :
  Forall (fun t => isinstance_int (fst (fst t)) = true) l ->
  Sorted Z.le (map (fun t => int_of (fst (fst t))) (sorted tuple_ltb l)).
Proof.
  intros H.
  assert (Hs : Sorted (fun s t => int_of (fst (fst s)) <= int_of (fst (fst t)))
                      (sorted tuple_ltb l)).
  { apply sorted_Sorted
      with (P := fun t => isinstance_int (fst (fst t)) = true); auto.
    - intros [[[a|] p] m] [[[b|] q] m']; simpl; try discriminate.
      intros _ _. apply tuple_ltb_ints_true.
    - intros [[[a|] p] m] [[[b|] q] m']; simpl; try discriminate.
      intros _ _. apply tuple_ltb_ints_false. }
  induction Hs as [|t l' Hs IH Hd]; simpl; constructor; auto.
  destruct Hd; simpl; constructor. assumption.
Qed.

Lemma zip3_unzip3_id {A B C} (l : list (A * B * C)) :
  zip3 (map (fun t => fst (fst t)) l) (map (fun t => snd (fst t)) l)
       (map snd l) = l.
Proof.
  induction l as [|[[a b] c] l IH]; simpl; [reflexivity|]. now rewrite IH.
Qed.

(** ** Running a method forward *)

Lemma bind_run_Ok {A B} (c : M A) (k : A -> M B) s a s1 w1 :
  c s = (Ok a, s1, w1) ->
  bind c k s = (let '(r, s2, w2) := k a s1 in (r, s2, w1 ++ w2)).
Proof. unfold bind. now intros ->. Qed.

Lemma bind_run_Raise {A B} (c : M A) (k : A -> M B) s e s1 w1 :
  c s = (Raise e, s1, w1) -> bind c k s = (Raise e, s1, w1).
Proof. unfold bind. now intros ->. Qed.

(** ** [min] and [max] of ints *)

Lemma py_min_ints a l :
  py_min (PyInt a) (map PyInt l) = PyInt (fold_left Z.min l a).
Proof.
  unfold py_min. revert a. induction l as [|y l IH]; intros a; simpl.
  - reflexivity.
  - unfold num_ltb at 2. simpl. destruct (Z.compare_spec y a).
    + subst. now rewrite IH, Z.min_id.
    + rewrite IH. f_equal. f_equal. lia.
    + rewrite IH. f_equal. f_equal. lia.
Qed.

Lemma py_max_ints a l :
  py_max (PyInt a) (map PyInt l) = PyInt (fold_left Z.max l a).
Proof.
  unfold py_max. revert a. induction l as [|y l IH]; intros a; simpl.
  - reflexivity.
  - unfold num_ltb at 2. simpl. destruct (Z.compare_spec a y).
    + subst. now rewrite IH, Z.max_id.
    + rewrite IH. f_equal. f_equal. lia.
    + rewrite IH. f_equal. f_equal. lia.
Qed.

Lemma fold_min_spec l a :
  In (fold_left Z.min l a) (a :: l) /\
  forall x, In x (a :: l) -> fold_left Z.min l a <= x.
Proof.
  revert a. induction l as [|y l IH]; intros a; simpl.
  - split; [auto|]. intros x [<-|[]]. lia.
  - destruct (IH (Z.min a y)) as [Hin Hle]. split.
    + destruct Hin as [H|H]; [|auto].
      rewrite <- H. destruct (Z.min_spec a y) as [[_ ->]|[_ ->]]; auto.
    + intros x [<-|[<-|Hx]].
      * specialize (Hle (Z.min a y) (or_introl eq_refl)). lia.
      * specialize (Hle (Z.min a y) (or_introl eq_refl)). lia.
      * apply Hle. now right.
Qed.

Lemma fold_max_spec l a :
  In (fold_left Z.max l a) (a :: l) /\
  forall x, In x (a :: l) -> x <= fold_left Z.max l a.
Proof.
  revert a. induction l as [|y l IH]; intros a; simpl.
  - split; [auto|]. intros x [<-|[]]. lia.
  - destruct (IH (Z.max a y)) as [Hin Hle]. split.
    + destruct Hin as [H|H]; [|auto].
      rewrite <- H. destruct (Z.max_spec a y) as [[_ ->]|[_ ->]]; auto.
    + intros x [<-|[<-|Hx]].
      * specialize (Hle (Z.max a y) (or_introl eq_refl)). lia.
      * specialize (Hle (Z.max a y) (or_introl eq_refl)). lia.
      * apply Hle. now right.
Qed.

(** ** The assertion of [_z_sort] on ints *)

Lemma num_eqb_ints n k : num_eqb (PyInt n) (PyInt k) = (n =? k).
Proof.
  unfold num_eqb. simpl. destruct (Z.compare_spec n k);
    symmetry; [apply Z.eqb_eq|apply Z.eqb_neq|apply Z.eqb_neq]; lia.
Qed.

Lemma sym_diff_empty_ints zs lo hi :
  sym_diff_empty (map PyInt zs)
                 (filter (fun k => negb (k =? 0)) (range lo (hi + 1))) = true
  <-> forall k, In k zs <-> lo <= k <= hi /\ k <> 0.
Proof.
  unfold sym_diff_empty. rewrite andb_true_iff, !forallb_forall. split.
  - intros [H1 H2] k. split.
    + intros Hk. specialize (H1 (PyInt k) (in_map _ _ _ Hk)).
      apply existsb_exists in H1 as (k' & Hk' & He).
      rewrite num_eqb_ints in He. apply Z.eqb_eq in He. subst k'.
      apply filter_In in Hk' as [Hr Hz]. apply range_In in Hr.
      split; [lia|]. intros ->. discriminate.
    + intros [Hr Hz].
      assert (Hin : In k (filter (fun k => negb (k =? 0)) (range lo (hi + 1)))).
      { apply filter_In. split; [apply range_In; lia|].
        now apply negb_true_iff, Z.eqb_neq. }
      specialize (H2 k Hin). apply existsb_exists in H2 as (v & Hv & He).
      apply in_map_iff in Hv as (n & <- & Hn).
      rewrite num_eqb_ints in He. apply Z.eqb_eq in He. now subst.
  - intros H. split.
    + intros v Hv. apply in_map_iff in Hv as (n & <- & Hn).
      apply existsb_exists. exists n. split.
      * apply H in Hn as [Hr Hz]. apply filter_In.
        split; [apply range_In; lia|]. now apply negb_true_iff, Z.eqb_neq.
      * rewrite num_eqb_ints. apply Z.eqb_refl.
    + intros k Hk. apply filter_In in Hk as [Hr Hz]. apply range_In in Hr.
      apply existsb_exists. exists (PyInt k). split.
      * apply in_map, H. split; [lia|].
        apply negb_true_iff, Z.eqb_neq in Hz. exact Hz.
      * rewrite num_eqb_ints. apply Z.eqb_refl.
Qed.

(** On a non-empty list of ints, the check of [_z_sort] passes exactly on
    the runs. *)
Lemma run_checked_ints_iff zs :
  run_checked (map PyInt zs) <-> exists lo hi, is_run lo hi zs.
Proof.
  split.
  - intros (z1 & zs' & lo & hi & Hz & Hlo & Hhi & Hd).
    destruct zs as [|a l]; [discriminate|]. simpl in Hz.
    injection Hz as <- <-.
    rewrite py_min_ints in Hlo. rewrite py_max_ints in Hhi.
    injection Hlo as <-. injection Hhi as <-.
    exists (fold_left Z.min l a), (fold_left Z.max l a).
    split; [apply fold_min_spec|]. split; [apply fold_max_spec|].
    now apply (sym_diff_empty_ints (a :: l)).
  - intros (lo & hi & Hlo & Hhi & H).
    destruct zs as [|a l]; [destruct Hlo|].
    exists (PyInt a), (map PyInt l), (fold_left Z.min l a),
      (fold_left Z.max l a).
    split; [reflexivity|]. split; [apply py_min_ints|].
    split; [apply py_max_ints|].
    apply (sym_diff_empty_ints (a :: l)).
    destruct (fold_min_spec l a) as [Hmin Hminle].
    destruct (fold_max_spec l a) as [Hmax Hmaxle].
    assert (Elo : fold_left Z.min l a = lo).
    { apply Z.le_antisymm; [now apply Hminle|]. apply H in Hmin. lia. }
    assert (Ehi : fold_left Z.max l a = hi).
    { apply Z.le_antisymm; [|now apply Hmaxle]. apply H in Hmax. lia. }
    rewrite Elo, Ehi. exact H.
Qed.

(** ** [_z_sort], forward *)

Lemma _z_sort_run s :
  _z_sort s
  = match sorted tuple_ltb (zip3 (z s) (pKa s) (absolute_mobility s)) with
    | [] => (Raise ValueError, s, [])
    | t :: ts =>
        match range_incl
                (py_min (fst (fst t)) (map (fun t => fst (fst t)) ts))
                (py_max (fst (fst t)) (map (fun t => fst (fst t)) ts)) with
        | Ok r =>
            if sym_diff_empty
                 (map (fun t => fst (fst t)) (t :: ts))
                 (filter (fun k => negb (k =? 0)) r)
            then (Ok tt, z_sorted s, [])
            else (Raise (AssertionError msg_missing), z_sorted s, [])
        | Raise e => (Raise e, z_sorted s, [])
        end
    end.
Proof.
  unfold _z_sort, z_sorted, bind, get.
  destruct (sorted tuple_ltb _) as [|t ts]; [reflexivity|].
  cbn [unzip3 map]. unfold set_z, set_pKa, set_absolute_mobility. simpl.
  destruct (range_incl _ _) as [r|e]; simpl; [|reflexivity].
  destruct (sym_diff_empty _ _); reflexivity.
Qed.

Lemma _set_z0_run s : _set_z0 s = (Ok tt, z0_set s, []).
Proof. reflexivity. Qed.

Section Forward.
Context {_solvent : Aqueous}.
Variable _correct_pKa : Ion -> result (list float).

Lemma temperature_adjust_at_T_ref s :
  PyFloat.eqb (T s) (_T_ref s) = true ->
  temperature_adjust _correct_pKa s
  = bind _z_sort (fun _ => _set_z0) (at_reference s).
Proof.
  intros H. unfold temperature_adjust.
  unfold bind at 1. unfold get at 1. cbv iota beta. rewrite H.
  unfold bind at 1. unfold bind at 1.
  unfold set_pKa at 1. cbv iota beta.
  unfold set_absolute_mobility at 1. cbv iota beta.
  cbn [name T _T_ref dH dCp nightingale_data _nightingale_function z _pKa_ref
       _absolute_mobility_ref pKa absolute_mobility z0 app].
  fold (at_reference s).
  destruct (bind _z_sort (fun _ => _set_z0) (at_reference s)) as [[r s'] w].
  reflexivity.
Qed.

Lemma init_split name' z' pKa_ref mob_ref dH' dCp' nd T' T_ref s0 :
  __init__ _correct_pKa name' z' pKa_ref mob_ref dH' dCp' nd T' T_ref s0
  = bind (temperature_adjust _correct_pKa) (fun _ => init_checks)
         (init_attributes name' z' pKa_ref mob_ref dH' dCp' nd T' T_ref).
Proof.
  unfold __init__, init_checks. unfold bind at 1. unfold put. cbv iota beta.
  destruct (bind (temperature_adjust _correct_pKa) _ _) as [[r s'] w].
  reflexivity.
Qed.
End Forward.

(** The checks of [__init__] pass on int charges that fit a float, when the
    three lists are of one length. *)
Lemma init_checks_pass s :
  Forall (fun v => exists n x, v = PyInt n /\ PyFloat.of_Z n = Some x) (z s) ->
  List.length (pKa s) = List.length (z s) ->
  List.length (absolute_mobility s) = List.length (z s) ->
  exists s' w, init_checks s = (Ok tt, s', w) /\ z s' = z s /\ pKa s' = pKa s
               /\ z0 s' = z0 s /\ same_inputs s s'
               /\ (w = [] \/ w = [msg_signs]).
Proof.
  intros Hz Hlp Hlm.
  assert (Hok : exists ok, mapR sign_matches
                             (combine (z s) (absolute_mobility s)) = Ok ok).
  { apply mapR_total, Forall_forall. intros [zc m] Hin.
    apply in_combine_l in Hin. rewrite Forall_forall in Hz.
    destruct (Hz zc Hin) as (n & x & -> & Hx).
    unfold sign_matches, copysign. simpl. rewrite Hx. simpl. eauto. }
  destruct Hok as [ok Hok].
  assert (Hms : exists ms, mapR force_sign
                             (combine (z s) (absolute_mobility s)) = Ok ms
                           /\ List.length ms = List.length (z s)).
  { assert (H : exists ms, mapR force_sign
                             (combine (z s) (absolute_mobility s)) = Ok ms).
    { apply mapR_total, Forall_forall. intros [zc m] Hin.
      apply in_combine_l in Hin. rewrite Forall_forall in Hz.
      destruct (Hz zc Hin) as (n & x & -> & Hx).
      unfold force_sign, copysign. simpl. rewrite Hx. simpl. eauto. }
    destruct H as [ms H]. exists ms. split; [exact H|].
    apply mapR_Ok, Forall2_length_eq in H.
    rewrite <- H, length_combine. lia. }
  destruct Hms as (ms & Hms & Hlen).
  assert (Hint : forallb isinstance_int (z s) = true).
  { apply forallb_forall. intros v Hv. rewrite Forall_forall in Hz.
    destruct (Hz v Hv) as (n & x & -> & _). reflexivity. }
  unfold init_checks, bind, get, lift. rewrite Hok. unfold ret at 1.
  cbv iota beta.
  destruct (forallb (fun b : bool => b) ok).
  - unfold ret. cbv iota beta. rewrite Hint. unfold assert, ret.
    rewrite Hlp, Hlm, Nat.eqb_refl. cbv iota beta.
    eexists. eexists. split; [reflexivity|]. repeat split. now left.
  - rewrite Hms. unfold ret, set_absolute_mobility, warn. cbv iota beta.
    cbn [name T _T_ref dH dCp nightingale_data _nightingale_function z
         _pKa_ref _absolute_mobility_ref pKa absolute_mobility z0].
    rewrite Hint. unfold assert, ret.
    rewrite Hlp, Hlen, Nat.eqb_refl. cbv iota beta.
    eexists. eexists. split; [reflexivity|]. repeat split. now right.
Qed.

Lemma map_key_zip3 {A B C} (a : list A) (b : list B) (c : list C) :
  List.length b = List.length a -> List.length c = List.length a ->
  map (fun t => fst (fst t)) (zip3 a b c) = a.
Proof.
  revert b c. induction a as [|x a IH]; intros [|y b] [|w c]; simpl;
    try discriminate; try reflexivity.
  intros Hb Hc. injection Hb as Hb. injection Hc as Hc. now rewrite IH.
Qed.

Lemma is_run_Permutation lo hi zs zs' :
  Permutation zs zs' -> is_run lo hi zs -> is_run lo hi zs'.
Proof.
  intros Hp (Hlo & Hhi & H). split; [|split].
  - eapply Permutation_in; eauto.
  - eapply Permutation_in; eauto.
  - intros k. rewrite <- H. split; apply Permutation_in; auto.
    now apply Permutation_sym.
Qed.

(** The sorted charges of aligned lists of int charges: a permutation of
    the charges given. *)
Lemma sorted_keys_ints zs (ps ms : list float) :
  List.length ps = List.length zs -> List.length ms = List.length zs ->
  exists zs',
    map (fun t => fst (fst t)) (sorted tuple_ltb (zip3 (map PyInt zs) ps ms))
    = map PyInt zs' /\ Permutation zs' zs.
Proof.
  intros Hp Hm.
  set (l := sorted tuple_ltb (zip3 (map PyInt zs) ps ms)).
  assert (Hperm : Permutation (map (fun t => fst (fst t)) l) (map PyInt zs)).
  { unfold l. rewrite (sorted_Permutation tuple_ltb).
    rewrite map_key_zip3 by (rewrite length_map; assumption). reflexivity. }
  exists (map int_of (map (fun t => fst (fst t)) l)). split.
  - symmetry. apply map_int_of. apply Forall_forall. intros v Hv.
    apply (Permutation_in _ Hperm) in Hv.
    apply in_map_iff in Hv as (n & <- & _). reflexivity.
  - apply (Permutation_map int_of) in Hperm.
    rewrite Hperm, map_map. simpl. now rewrite map_id.
Qed.

Section Validation.
Context {_solvent : Aqueous}.
Variable _correct_pKa : Ion -> result (list float).

(** X1.  Every run of int charges is accepted.  At [T == T_ref], with reference
    lists as long as the charge list, [Ion(...)] returns an object whenever
    the charges given, in any order, are all the ints from the least to the
    greatest of them but zero, and each fits a float; its charges are those
    given, and at most the warning about signs is emitted. *)
Theorem valid_runs_are_accepted
        name' z' pKa_ref mob_ref dH' dCp' nd T' T_ref zs lo hi :
  PyFloat.eqb T' T_ref = true ->
  listify z' = map PyInt zs ->
  is_run lo hi zs ->
  Forall (fun n => exists x, PyFloat.of_Z n = Some x) zs ->
  List.length (listify pKa_ref) = List.length zs ->
  List.length (listify mob_ref) = List.length zs ->
  exists ion w,
    new _correct_pKa name' z' pKa_ref mob_ref dH' dCp' nd T' T_ref = (Ok ion, w)
    /\ Permutation (z ion) (listify z')
    /\ (w = [] \/ w = [msg_signs]).
Proof.
  intros HT Hz Hrun Hfit Hlp Hlm.
  set (s0 := init_attributes name' z' pKa_ref mob_ref dH' dCp' nd T' T_ref).
  destruct (sorted_keys_ints zs _ _ Hlp Hlm) as (zs' & Hkeys & Hperm).
  assert (Hrun' : run_checked (map PyInt zs')).
  { apply run_checked_ints_iff. exists lo, hi.
    eapply is_run_Permutation; [|exact Hrun]. now apply Permutation_sym. }
  destruct Hrun' as (z1 & zt & lo' & hi' & Hz1 & Hlo & Hhi & Hd).
  assert (Hsort : _z_sort (at_reference s0) = (Ok tt, z_sorted (at_reference s0), [])).
  { rewrite _z_sort_run.
    cbn [at_reference s0 init_attributes z pKa absolute_mobility].
    rewrite Hz.
    destruct (sorted tuple_ltb _) as [|t ts] eqn:Hl.
    - simpl in Hkeys. rewrite <- Hkeys in Hz1. discriminate.
    - cbn [map] in Hkeys |- *. rewrite Hz1 in Hkeys.
      injection Hkeys as Ht Hts. rewrite Ht, Hts, Hlo, Hhi.
      cbn [range_incl]. rewrite <- Hz1, Hd. reflexivity. }
  assert (Hta : temperature_adjust _correct_pKa s0
                = (Ok tt, z0_set (z_sorted (at_reference s0)), [])).
  { rewrite temperature_adjust_at_T_ref by exact HT.
    rewrite (bind_run_Ok _ _ _ _ _ _ Hsort), _set_z0_run. reflexivity. }
  assert (Hzs : z (z0_set (z_sorted (at_reference s0))) = map PyInt zs').
  { cbn [z0_set z_sorted at_reference s0 init_attributes z pKa
         absolute_mobility]. rewrite Hz. exact Hkeys. }
  destruct (init_checks_pass (z0_set (z_sorted (at_reference s0))))
    as (s' & w & Hchk & Hzs' & _ & _ & _ & Hw).
  - rewrite Hzs. apply Forall_forall. intros v Hv.
    apply in_map_iff in Hv as (n & <- & Hn).
    apply (Permutation_in _ Hperm) in Hn.
    rewrite Forall_forall in Hfit. destruct (Hfit n Hn) as [x Hx]. eauto.
  - cbn [z0_set z_sorted pKa z]. now rewrite !length_map.
  - cbn [z0_set z_sorted absolute_mobility z]. now rewrite !length_map.
  - exists s', w. split; [|split; [|exact Hw]].
    + unfold new. rewrite init_split. fold s0.
      rewrite (bind_run_Ok _ _ _ _ _ _ Hta), Hchk. reflexivity.
    + rewrite Hzs', Hzs, Hz. now apply Permutation_map.
Qed.

(** X2.  A zero charge or a gap is rejected.  At [T == T_ref], with int charges
    and reference lists as long as the charge list, [Ion(...)] raises the
    assertion on missing charge states, without a warning, when zero is
    among the charges or when a non-zero int between two of the charges is
    not one of them. *)
Theorem zero_charge_or_gap_is_rejected
        name' z' pKa_ref mob_ref dH' dCp' nd T' T_ref zs :
  PyFloat.eqb T' T_ref = true ->
  listify z' = map PyInt zs ->
  List.length (listify pKa_ref) = List.length zs ->
  List.length (listify mob_ref) = List.length zs ->
  In 0 zs \/
  (exists a b k, In a zs /\ In b zs /\ a < k < b /\ k <> 0 /\ ~ In k zs) ->
  new _correct_pKa name' z' pKa_ref mob_ref dH' dCp' nd T' T_ref
  = (Raise (AssertionError msg_missing), []).
Proof.
  intros HT Hz Hlp Hlm Hbad.
  set (s0 := init_attributes name' z' pKa_ref mob_ref dH' dCp' nd T' T_ref).
  assert (Hnorun : forall lo hi, ~ is_run lo hi zs).
  { intros lo hi (Hlo & Hhi & H). destruct Hbad as [H0|(a & b & k & Ha & Hb & Hk & Hk0 & Hnk)].
    - apply H in H0. lia.
    - apply H in Ha. apply H in Hb. apply Hnk, H. lia. }
  assert (Hne : zs <> []).
  { intros ->. destruct Hbad as [[]|(a & _ & _ & [] & _)]. }
  destruct (sorted_keys_ints zs _ _ Hlp Hlm) as (zs' & Hkeys & Hperm).
  assert (Hsort : _z_sort (at_reference s0)
                  = (Raise (AssertionError msg_missing),
                     z_sorted (at_reference s0), [])).
  { rewrite _z_sort_run.
    cbn [at_reference s0 init_attributes z pKa absolute_mobility].
    rewrite Hz.
    destruct (sorted tuple_ltb _) as [|t ts] eqn:Hl.
    - exfalso. destruct zs' as [|? ?]; [|discriminate].
      apply Permutation_nil in Hperm. auto.
    - destruct zs' as [|a l']; [discriminate|].
      cbn [map] in Hkeys |- *. injection Hkeys as Ht Hts.
      rewrite Ht, Hts, py_min_ints, py_max_ints. cbn [range_incl].
      destruct (sym_diff_empty _ _) eqn:Hd; [|reflexivity].
      exfalso. change (PyInt a :: map PyInt l') with (map PyInt (a :: l')) in Hd.
      apply (Hnorun (fold_left Z.min l' a) (fold_left Z.max l' a)).
      eapply is_run_Permutation; [exact Hperm|].
      split; [apply fold_min_spec|]. split; [apply fold_max_spec|].
      now apply (sym_diff_empty_ints (a :: l')). }
  unfold new. rewrite init_split. fold s0.
  rewrite (bind_run_Raise (temperature_adjust _correct_pKa)
             (fun _ => init_checks) s0 (AssertionError msg_missing)
             (z_sorted (at_reference s0)) []).
  - reflexivity.
  - rewrite temperature_adjust_at_T_ref by exact HT.
    now rewrite (bind_run_Raise _ _ _ _ _ _ Hsort).
Qed.

(** X3.  An empty list is a ValueError.  At [T == T_ref], [Ion(...)] with an
    empty list of charges, of reference pKa or of reference mobilities
    raises the ValueError of the unpacking in [_z_sort], without a
    warning. *)
Theorem empty_list_is_a_ValueError_at_T_ref
        name' z' pKa_ref mob_ref dH' dCp' nd T' T_ref :
  PyFloat.eqb T' T_ref = true ->
  listify z' = [] \/ listify pKa_ref = [] \/ listify mob_ref = [] ->
  new _correct_pKa name' z' pKa_ref mob_ref dH' dCp' nd T' T_ref
  = (Raise ValueError, []).
Proof.
  intros HT Hempty.
  set (s0 := init_attributes name' z' pKa_ref mob_ref dH' dCp' nd T' T_ref).
  assert (Hzip : zip3 (listify z') (listify pKa_ref) (listify mob_ref) = []).
  { destruct (listify z') as [|a zl]; [reflexivity|].
    destruct (listify pKa_ref) as [|p pl]; [reflexivity|].
    destruct (listify mob_ref) as [|m ml]; [reflexivity|].
    destruct Hempty as [H|[H|H]]; discriminate. }
  assert (Hsort : _z_sort (at_reference s0)
                  = (Raise ValueError, at_reference s0, [])).
  { rewrite _z_sort_run.
    cbn [at_reference s0 init_attributes z pKa absolute_mobility _pKa_ref
         _absolute_mobility_ref].
    now rewrite Hzip. }
  unfold new. rewrite init_split. fold s0.
  rewrite (bind_run_Raise (temperature_adjust _correct_pKa)
             (fun _ => init_checks) s0 ValueError (at_reference s0) []).
  - reflexivity.
  - rewrite temperature_adjust_at_T_ref by exact HT.
    now rewrite (bind_run_Raise _ _ _ _ _ _ Hsort).
Qed.
End Validation.

(** The charges 2, -1, 1, in this order. *)
Lemma valid_runs_are_accepted_witness :
  exists ion w,
    Ion_at_25 "x" [PyInt 2; PyInt (-1); PyInt 1]
              [PyFloat.dec 9 0; PyFloat.dec 3 0; PyFloat.dec 5 0]
              [PyFloat.dec 2 (-8); PyFloat.dec (-1) (-8); PyFloat.dec 1 (-8)]
    = (Ok ion, w)
    /\ Permutation (z ion) [PyInt 2; PyInt (-1); PyInt 1]
    /\ (w = [] \/ w = [msg_signs]).
Proof.
  apply (valid_runs_are_accepted
           (_solvent := stub_solvent) no_correction (str "x")
           (Seq [PyInt 2; PyInt (-1); PyInt 1])
           (Seq [PyFloat.dec 9 0; PyFloat.dec 3 0; PyFloat.dec 5 0])
           (Seq [PyFloat.dec 2 (-8); PyFloat.dec (-1) (-8); PyFloat.dec 1 (-8)])
           None None None f25 f25 [2; -1; 1] (-1) 2).
  - vm_compute. reflexivity.
  - reflexivity.
  - split; [simpl; lia|]. split; [simpl; lia|]. intros k. simpl. lia.
  - repeat constructor; eexists; vm_compute; reflexivity.
  - reflexivity.
  - reflexivity.
Defined.

(** The charges -2 and 1: the charge -1 is missing. *)
Lemma zero_charge_or_gap_is_rejected_witness :
  Ion_at_25 "x" [PyInt (-2); PyInt 1] [PyFloat.dec 2 0; PyFloat.dec 9 0]
            [PyFloat.dec (-2) (-8); PyFloat.dec 1 (-8)]
  = (Raise (AssertionError msg_missing), []).
Proof.
  apply (zero_charge_or_gap_is_rejected
           (_solvent := stub_solvent) no_correction (str "x")
           (Seq [PyInt (-2); PyInt 1]) (Seq [PyFloat.dec 2 0; PyFloat.dec 9 0])
           (Seq [PyFloat.dec (-2) (-8); PyFloat.dec 1 (-8)])
           None None None f25 f25 [-2; 1]).
  - vm_compute. reflexivity.
  - reflexivity.
  - reflexivity.
  - reflexivity.
  - right. exists (-2), 1, (-1). simpl. lia.
Defined.

(** No reference pKa at all. *)
Lemma empty_list_is_a_ValueError_at_T_ref_witness :
  Ion_at_25 "x" [PyInt 1] [] [PyFloat.dec 1 (-8)] = (Raise ValueError, []).
Proof.
  apply (empty_list_is_a_ValueError_at_T_ref
           (_solvent := stub_solvent) no_correction (str "x")
           (Seq [PyInt 1]) (Seq []) (Seq [PyFloat.dec 1 (-8)])
           None None None f25 f25).
  - vm_compute. reflexivity.
  - right. left. reflexivity.
Defined.

(** ** The states of a constructed Ion *)

Lemma combine_map_same {A B C} (f : A -> B) (g : A -> C) l :
  combine (map f l) (map g l) = map (fun t => (f t, g t)) l.
Proof. induction l; simpl; congruence. Qed.

Lemma zip3_map_third {A B C D} (f : C -> D) (a : list A) (b : list B)
      (c : list C) :
  zip3 a b (map f c)
  = map (fun t => (fst (fst t), snd (fst t), f (snd t))) (zip3 a b c).
Proof.
  revert b c. induction a as [|x a IH]; intros [|y b] [|w c]; simpl;
    try reflexivity.
  now rewrite IH.
Qed.

Section ConstructedStates.
Context {_solvent : Aqueous}.
Variable _correct_pKa : Ion -> result (list float).

(** The states of the object [Ion(...)] returns are the sorted triples of
    the charges given and the values [temperature_adjust] computed, the
    mobilities as they are or with the signs of their charges. *)
Lemma new_Ok_states name' z' pKa_ref mob_ref dH' dCp' nd T' T_ref ion w :
  new _correct_pKa name' z' pKa_ref mob_ref dH' dCp' nd T' T_ref = (Ok ion, w) ->
  exists ps ms w1 l,
    adjusted _correct_pKa
             (init_attributes name' z' pKa_ref mob_ref dH' dCp' nd T' T_ref)
             ps ms w1 /\
    l = sorted tuple_ltb (zip3 (listify z') ps ms) /\
    z ion = map (fun t => fst (fst t)) l /\
    pKa ion = map (fun t => snd (fst t)) l /\
    (absolute_mobility ion = map snd l \/
     absolute_mobility ion
     = map (fun t => PyFloat.with_sign (num_signbit (fst (fst t))) (snd t)) l) /\
    z0 ion = sorted num_ltb (PyInt 0 :: z ion) /\
    same_inputs
      (init_attributes name' z' pKa_ref mob_ref dH' dCp' nd T' T_ref) ion /\
    (w = w1 \/ w = w1 ++ [msg_signs]).
Proof.
  unfold new.
  destruct (__init__ _ _ _ _ _ _ _ _ _ _ _) as [[[u|e] s'] w'] eqn:H;
    [|discriminate].
  intros Hn. inversion Hn; subst; clear Hn.
  apply init_Ok in H
    as (s1 & w1 & w2 & ok & Hta & -> & Hz & Hp & Hz0 & Hsame & _ & _ & Hco).
  apply temperature_adjust_Ok in Hta
    as (ps & ms & Hadj & Hu & Hz0' & Hsame' & _).
  unfold unzip3 in Hu. inversion Hu as [[Hzs Hps Hms]]. clear Hu.
  exists ps, ms, w1, (sorted tuple_ltb (zip3 (listify z') ps ms)).
  split; [exact Hadj|]. split; [reflexivity|].
  cbn [init_attributes z] in Hzs, Hps, Hms.
  split; [congruence|]. split; [congruence|].
  split; [|split; [congruence|split]].
  - destruct (forallb _ ok).
    + left. destruct Hco as [-> _]. exact Hms.
    + right. destruct Hco as [Hm _]. apply mapR_force_sign in Hm.
      rewrite Hm, Hzs, Hms, combine_map_same, map_map. reflexivity.
  - exact (same_inputs_trans _ _ _ Hsame' Hsame).
  - destruct (forallb _ ok); destruct Hco as [_ ->];
      [left; now rewrite app_nil_r|now right].
Qed.
End ConstructedStates.

(** ** Sorted runs *)

Lemma Sorted_le_in_order zs :
  Sorted Z.le zs -> in_order num_ltb (map PyInt zs).
Proof.
  induction 1 as [|a zs Hs IH Hd]; simpl; [exact I|].
  split; [|exact IH].
  destruct Hd as [|b zs' Hab]; simpl; [exact I|].
  unfold num_ltb. simpl. destruct (Z.compare_spec b a); try reflexivity. lia.
Qed.

Lemma filter_none {A} (f : A -> bool) l :
  (forall x, In x l -> f x = false) -> filter f l = [].
Proof.
  induction l as [|a l IH]; simpl; [reflexivity|]. intros H.
  rewrite (H a (or_introl eq_refl)). apply IH. intros x Hx. apply H. now right.
Qed.

Lemma filter_all {A} (f : A -> bool) l :
  (forall x, In x l -> f x = true) -> filter f l = l.
Proof.
  induction l as [|a l IH]; simpl; [reflexivity|]. intros H.
  rewrite (H a (or_introl eq_refl)). f_equal. apply IH. intros x Hx.
  apply H. now right.
Qed.

Lemma Sorted_le_split zs :
  Sorted Z.le zs -> ~ In 0 zs ->
  zs = filter (fun n => n <? 0) zs ++ filter (fun n => 0 <? n) zs.
Proof.
  intros Hs. apply Sorted_StronglySorted in Hs;
    [|intros x y z'; apply Z.le_trans].
  induction Hs as [|a zs Hs IH Ha]; intros H0; simpl; [reflexivity|].
  assert (Ha0 : a <> 0) by (intros ->; apply H0; now left).
  assert (H0' : ~ In 0 zs) by (intros H; apply H0; now right).
  destruct (a <? 0) eqn:Hneg.
  - apply Z.ltb_lt in Hneg.
    assert (Hpos : (0 <? a) = false) by (apply Z.ltb_ge; lia).
    rewrite Hpos. simpl. f_equal. exact (IH H0').
  - apply Z.ltb_ge in Hneg.
    assert (Hpos : (0 <? a) = true) by (apply Z.ltb_lt; lia).
    rewrite Hpos.
    assert (Hn : filter (fun n => n <? 0) zs = []).
    { apply filter_none. intros x Hx. rewrite Forall_forall in Ha.
      specialize (Ha x Hx). apply Z.ltb_ge. lia. }
    assert (Hp : filter (fun n => 0 <? n) zs = zs).
    { apply filter_all. intros x Hx. rewrite Forall_forall in Ha.
      specialize (Ha x Hx). apply Z.ltb_lt. lia. }
    rewrite Hn, Hp. reflexivity.
Qed.

Lemma insert_zero negs poss :
  Forall (fun n => n < 0) negs -> Forall (fun n => 0 < n) poss ->
  insert num_ltb (PyInt 0) (map PyInt (negs ++ poss))
  = map PyInt (negs ++ 0 :: poss).
Proof.
  intros Hn Hp. induction Hn as [|a negs Ha _ IH]; simpl.
  - destruct Hp as [|b poss Hb _]; simpl; [reflexivity|].
    unfold num_ltb. simpl. destruct (Z.compare_spec b 0); try reflexivity. lia.
  - unfold num_ltb at 1. simpl. destruct (Z.compare_spec a 0); try lia.
    now rewrite IH.
Qed.

Section ConstructedCharges.
Context {_solvent : Aqueous}.
Variable _correct_pKa : Ion -> result (list float).

(** The charges of an object [Ion(...)] returns are ints in ascending
    order. *)
Lemma new_Ok_ascending name' z' pKa_ref mob_ref dH' dCp' nd T' T_ref ion w :
  new _correct_pKa name' z' pKa_ref mob_ref dH' dCp' nd T' T_ref = (Ok ion, w) ->
  z ion = map PyInt (map int_of (z ion)) /\
  Sorted Z.le (map int_of (z ion)) /\ ~ In 0 (map int_of (z ion)).
Proof.
  intros H.
  pose proof (new_Ok_charges _ _ _ _ _ _ _ _ _ _ _ _ H) as (_ & Hall & _).
  apply new_Ok_states in H
    as (ps & ms & w1 & l & _ & Hl & Hz & _).
  assert (Hint : Forall (fun v => isinstance_int v = true) (z ion)).
  { eapply Forall_impl; [|exact Hall]. intros v (n & x & -> & _). reflexivity. }
  split; [symmetry; now apply map_int_of|]. split.
  - rewrite Hz, map_map, Hl. apply sorted_by_charge.
    apply Forall_forall. intros t Ht.
    rewrite Forall_forall in Hint. apply Hint. rewrite Hz, Hl.
    apply in_map_iff. exists t. split; [reflexivity|]. now apply sorted_In.
  - intros H0. apply in_map_iff in H0 as (v & Hv & Hin).
    rewrite Forall_forall in Hall.
    destruct (Hall v Hin) as (n & x & -> & Hn & _). simpl in Hv. lia.
Qed.

(** X4.  The charges of an Ion are a sorted run.  The object [Ion(...)]
    returns, at any temperature, holds int charges in ascending order
    which are exactly the ints from the least to the greatest of them,
    zero left out, and it holds one pKa and one mobility for each of
    them. *)
Theorem charges_are_a_sorted_run
        name' z' pKa_ref mob_ref dH' dCp' nd T' T_ref ion w :
  new _correct_pKa name' z' pKa_ref mob_ref dH' dCp' nd T' T_ref = (Ok ion, w) ->
  exists zs lo hi,
    z ion = map PyInt zs /\ Sorted Z.le zs /\ is_run lo hi zs /\
    List.length (pKa ion) = List.length zs /\
    List.length (absolute_mobility ion) = List.length zs.
Proof.
  intros H.
  pose proof (new_Ok_charges _ _ _ _ _ _ _ _ _ _ _ _ H) as (Hrun & _ & Hlp & Hlm).
  apply new_Ok_ascending in H as (Hz & Hs & _).
  rewrite Hz in Hrun. apply run_checked_ints_iff in Hrun as (lo & hi & Hrun).
  exists (map int_of (z ion)), lo, hi.
  rewrite !length_map. auto.
Qed.

(** X6.  [z0] is the charge list with zero in its place.  In the object
    [Ion(...)] returns, [z0] holds the negative charges, then 0, then the
    positive charges, each part in the order of [z]. *)
Theorem z0_is_z_with_zero_in_place
        name' z' pKa_ref mob_ref dH' dCp' nd T' T_ref ion w :
  new _correct_pKa name' z' pKa_ref mob_ref dH' dCp' nd T' T_ref = (Ok ion, w) ->
  exists negs poss,
    z ion = map PyInt (negs ++ poss) /\
    z0 ion = map PyInt (negs ++ 0 :: poss) /\
    Forall (fun n => n < 0) negs /\ Forall (fun n => 0 < n) poss.
Proof.
  intros H.
  pose proof (new_Ok_ascending _ _ _ _ _ _ _ _ _ _ _ H) as (Hz & Hs & H0).
  apply new_Ok_states in H as (_ & _ & _ & _ & _ & _ & _ & _ & _ & Hz0 & _).
  set (zs := map int_of (z ion)) in *.
  exists (filter (fun n => n <? 0) zs), (filter (fun n => 0 <? n) zs).
  assert (Hn : Forall (fun n => n < 0) (filter (fun n => n <? 0) zs)).
  { apply Forall_forall. intros n Hn. apply filter_In in Hn as [_ Hn].
    now apply Z.ltb_lt. }
  assert (Hp : Forall (fun n => 0 < n) (filter (fun n => 0 <? n) zs)).
  { apply Forall_forall. intros n Hn'. apply filter_In in Hn' as [_ Hn'].
    now apply Z.ltb_lt. }
  split; [|split; [|split; assumption]].
  - rewrite <- (Sorted_le_split zs Hs H0). exact Hz.
  - rewrite Hz0. cbn [sorted]. rewrite Hz.
    rewrite (sorted_in_order _ _ (Sorted_le_in_order _ Hs)).
    rewrite (Sorted_le_split zs Hs H0) at 1. now apply insert_zero.
Qed.

(** X5.  Sorting moves whole states.  At [T == T_ref] the states of the
    object [Ion(...)] returns, taken as triples of charge, pKa and
    magnitude of the mobility, are a rearrangement of the triples that
    [zip] makes of the three lists given: no pKa or mobility changes its
    charge, whatever the order of the input. *)
Theorem sorting_moves_whole_states
        name' z' pKa_ref mob_ref dH' dCp' nd T' T_ref ion w :
  PyFloat.eqb T' T_ref = true ->
  new _correct_pKa name' z' pKa_ref mob_ref dH' dCp' nd T' T_ref = (Ok ion, w) ->
  Permutation
    (zip3 (z ion) (pKa ion) (map PyFloat.abs (absolute_mobility ion)))
    (zip3 (listify z') (listify pKa_ref)
          (map PyFloat.abs (listify mob_ref))).
Proof.
  intros HT H.
  apply new_Ok_states in H
    as (ps & ms & w1 & l & Hadj & Hl & Hz & Hp & Hm & _).
  assert (Hlists : ps = listify pKa_ref /\ ms = listify mob_ref).
  { inversion Hadj; subst; simpl in *; try congruence. auto. }
  destruct Hlists as [-> ->].
  assert (Habs : map PyFloat.abs (absolute_mobility ion)
                 = map PyFloat.abs (map snd l)).
  { destruct Hm as [->| ->]; [reflexivity|].
    rewrite !map_map. apply map_ext. intros t. apply abs_with_sign. }
  rewrite Habs, Hz, Hp.
  rewrite (zip3_map_third PyFloat.abs _ _ (map snd l)), zip3_unzip3_id.
  rewrite (zip3_map_third PyFloat.abs _ _ (listify mob_ref)), Hl.
  apply Permutation_map, sorted_Permutation.
Qed.
End ConstructedCharges.

(** The charges 2, -1, 1 with their states, in this order. *)
Lemma charges_are_a_sorted_run_witness :
  exists ion w,
    Ion_at_25 "x" [PyInt 2; PyInt (-1); PyInt 1]
              [PyFloat.dec 9 0; PyFloat.dec 3 0; PyFloat.dec 5 0]
              [PyFloat.dec 2 (-8); PyFloat.dec (-1) (-8); PyFloat.dec 1 (-8)]
    = (Ok ion, w) /\
    exists zs lo hi,
      z ion = map PyInt zs /\ Sorted Z.le zs /\ is_run lo hi zs /\
      List.length (pKa ion) = List.length zs /\
      List.length (absolute_mobility ion) = List.length zs.
Proof.
  eexists. eexists. split.
  - vm_compute. reflexivity.
  - apply (charges_are_a_sorted_run
             (_solvent := stub_solvent) no_correction (str "x")
             (Seq [PyInt 2; PyInt (-1); PyInt 1])
             (Seq [PyFloat.dec 9 0; PyFloat.dec 3 0; PyFloat.dec 5 0])
             (Seq [PyFloat.dec 2 (-8); PyFloat.dec (-1) (-8);
                   PyFloat.dec 1 (-8)])
             None None None f25 f25 _ []).
    vm_compute. reflexivity.
Defined.

Lemma z0_is_z_with_zero_in_place_witness :
  exists ion w,
    Ion_at_25 "x" [PyInt 2; PyInt (-1); PyInt 1]
              [PyFloat.dec 9 0; PyFloat.dec 3 0; PyFloat.dec 5 0]
              [PyFloat.dec 2 (-8); PyFloat.dec (-1) (-8); PyFloat.dec 1 (-8)]
    = (Ok ion, w) /\
    exists negs poss,
      z ion = map PyInt (negs ++ poss) /\
      z0 ion = map PyInt (negs ++ 0 :: poss) /\
      Forall (fun n => n < 0) negs /\ Forall (fun n => 0 < n) poss.
Proof.
  eexists. eexists. split.
  - vm_compute. reflexivity.
  - apply (z0_is_z_with_zero_in_place
             (_solvent := stub_solvent) no_correction (str "x")
             (Seq [PyInt 2; PyInt (-1); PyInt 1])
             (Seq [PyFloat.dec 9 0; PyFloat.dec 3 0; PyFloat.dec 5 0])
             (Seq [PyFloat.dec 2 (-8); PyFloat.dec (-1) (-8);
                   PyFloat.dec 1 (-8)])
             None None None f25 f25 _ []).
    vm_compute. reflexivity.
Defined.

Lemma sorting_moves_whole_states_witness :
  exists ion w,
    Ion_at_25 "x" [PyInt 2; PyInt (-1); PyInt 1]
              [PyFloat.dec 9 0; PyFloat.dec 3 0; PyFloat.dec 5 0]
              [PyFloat.dec 2 (-8); PyFloat.dec (-1) (-8); PyFloat.dec 1 (-8)]
    = (Ok ion, w) /\
    Permutation
      (zip3 (z ion) (pKa ion) (map PyFloat.abs (absolute_mobility ion)))
      (zip3 (listify (Seq [PyInt 2; PyInt (-1); PyInt 1]))
            (listify (Seq [PyFloat.dec 9 0; PyFloat.dec 3 0; PyFloat.dec 5 0]))
            (map PyFloat.abs
                 (listify (Seq [PyFloat.dec 2 (-8); PyFloat.dec (-1) (-8);
                                PyFloat.dec 1 (-8)])))).
Proof.
  eexists. eexists. split.
  - vm_compute. reflexivity.
  - apply (sorting_moves_whole_states
             (_solvent := stub_solvent) no_correction (str "x")
             (Seq [PyInt 2; PyInt (-1); PyInt 1])
             (Seq [PyFloat.dec 9 0; PyFloat.dec 3 0; PyFloat.dec 5 0])
             (Seq [PyFloat.dec 2 (-8); PyFloat.dec (-1) (-8);
                   PyFloat.dec 1 (-8)])
             None None None f25 f25 _ []).
    + vm_compute. reflexivity.
    + vm_compute. reflexivity.
Defined.

(** ** Attributes no method assigns *)

Create HintDb keeps.

Lemma keeps_ret {A} (a : A) : keeps_inputs (ret a).
Proof. intros s r s' w H. inversion H. apply same_inputs_refl. Qed.

Lemma keeps_get : keeps_inputs get.
Proof. intros s r s' w H. inversion H. apply same_inputs_refl. Qed.

Lemma keeps_raise {A} e : keeps_inputs (@raise A e).
Proof. intros s r s' w H. inversion H. apply same_inputs_refl. Qed.

Lemma keeps_warn msg : keeps_inputs (warn msg).
Proof. intros s r s' w H. inversion H. apply same_inputs_refl. Qed.

Lemma keeps_lift {A} (x : result A) : keeps_inputs (lift x).
Proof. destruct x; [apply keeps_ret|apply keeps_raise]. Qed.

Lemma keeps_assert b msg : keeps_inputs (assert b msg).
Proof. destruct b; [apply keeps_ret|apply keeps_raise]. Qed.

Lemma keeps_set_z v : keeps_inputs (set_z v).
Proof. intros s r s' w H. inversion H. repeat split. Qed.

Lemma keeps_set_pKa v : keeps_inputs (set_pKa v).
Proof. intros s r s' w H. inversion H. repeat split. Qed.

Lemma keeps_set_absolute_mobility v : keeps_inputs (set_absolute_mobility v).
Proof. intros s r s' w H. inversion H. repeat split. Qed.

Lemma keeps_set_z0 v : keeps_inputs (set_z0 v).
Proof. intros s r s' w H. inversion H. repeat split. Qed.

Lemma keeps_bind {A B} (c : M A) (k : A -> M B) :
  keeps_inputs c -> (forall a, keeps_inputs (k a)) -> keeps_inputs (bind c k).
Proof.
  intros Hc Hk s r s' w. unfold bind.
  destruct (c s) as [[[a|e] s1] w1] eqn:H1.
  - destruct (k a s1) as [[r2 s2] w2] eqn:H2. intros H. inversion H; subst.
    eapply same_inputs_trans; [eapply Hc, H1|eapply Hk, H2].
  - intros H. inversion H; subst. eapply Hc, H1.
Qed.

#[export] Hint Resolve keeps_ret keeps_get keeps_raise keeps_warn keeps_lift
  keeps_assert keeps_set_z keeps_set_pKa keeps_set_absolute_mobility
  keeps_set_z0 : keeps.

Ltac keeps :=
  repeat first
    [ apply keeps_bind; [|intros ?]
    | progress auto with keeps
    | match goal with
      | |- keeps_inputs (match ?x with _ => _ end) => destruct x
      | |- keeps_inputs (let '(_, _) := ?x in _) => destruct x
      end ].

Lemma keeps_z_sort : keeps_inputs _z_sort.
Proof. unfold _z_sort. keeps. Qed.

Lemma keeps_set_z0' : keeps_inputs _set_z0.
Proof. unfold _set_z0. keeps. Qed.

Section KeepsAdjust.
Context {_solvent : Aqueous}.
Variable _correct_pKa : Ion -> result (list float).

Lemma keeps_temperature_adjust :
  keeps_inputs (temperature_adjust _correct_pKa).
Proof.
  unfold temperature_adjust.
  apply keeps_bind; [apply keeps_get|]. intros self.
  apply keeps_bind; [|intros _; apply keeps_bind;
                       [apply keeps_z_sort|intros _; apply keeps_set_z0']].
  keeps.
Qed.
End KeepsAdjust.

Lemma map_pKa_zip3 {A B C} (a : list A) (b : list B) (c : list C) :
  List.length b = List.length a -> List.length c = List.length a ->
  map (fun t => snd (fst t)) (zip3 a b c) = b.
Proof.
  revert b c. induction a as [|x a IH]; intros [|y b] [|w c]; simpl;
    try discriminate; try reflexivity.
  intros Hb Hc. injection Hb as Hb. injection Hc as Hc. now rewrite IH.
Qed.

Lemma map_mobility_zip3 {A B C} (a : list A) (b : list B) (c : list C) :
  List.length b = List.length a -> List.length c = List.length a ->
  map snd (zip3 a b c) = c.
Proof.
  revert b c. induction a as [|x a IH]; intros [|y b] [|w c]; simpl;
    try discriminate; try reflexivity.
  intros Hb Hc. injection Hb as Hb. injection Hc as Hc. now rewrite IH.
Qed.

Lemma sorted_keys_In {B C} (l : list (pynum * B * C)) lt v :
  In v (map (fun t => fst (fst t)) (sorted lt l)) ->
  In v (map (fun t => fst (fst t)) l).
Proof.
  intros H. apply in_map_iff in H as (t & <- & Ht).
  apply in_map_iff. exists t. split; [reflexivity|]. now apply sorted_In in Ht.
Qed.

Lemma zip3_keys_In {A B C} (a : list A) (b : list B) (c : list C) v :
  In v (map (fun t => fst (fst t)) (zip3 a b c)) -> In v a.
Proof.
  intros H. apply in_map_iff in H as ([[x y] w] & <- & Ht).
  now apply zip3_In in Ht.
Qed.

Section SetTFacts.
Context {_solvent : Aqueous}.
Variable _correct_pKa : Ion -> result (list float).

(** X7.  [set_T] assigns the temperature and nothing else of what was
    given.  Whatever the outcome of [set_T(T)], an exception included, the
    object is left at the temperature [T], and its name, reference
    temperature, reference pKa and mobilities, thermal data and
    Nightingale data and function are those it had. *)
Theorem set_T_assigns_T_and_no_input (t : float) (s : Ion) :
  match set_T _correct_pKa t s with
  | (_, s', _) =>
      T s' = t /\ name s' = name s /\ _T_ref s' = _T_ref s /\
      dH s' = dH s /\ dCp s' = dCp s /\
      nightingale_data s' = nightingale_data s /\
      _nightingale_function s' = _nightingale_function s /\
      _pKa_ref s' = _pKa_ref s /\
      _absolute_mobility_ref s' = _absolute_mobility_ref s
  end.
Proof.
  unfold set_T, bind at 1, set_temperature at 1.
  set (s1 := mkIon _ _ _ _ _ _ _ _ _ _ _ _ _).
  assert (Hk : keeps_inputs
                 (bind (temperature_adjust _correct_pKa) (fun _ => get))).
  { apply keeps_bind; [apply keeps_temperature_adjust|].
    intros _. apply keeps_get. }
  destruct (bind (temperature_adjust _correct_pKa) (fun _ => get) s1)
    as [[r s'] w] eqn:H.
  apply Hk in H. unfold same_inputs in H. subst s1. simpl in H.
  intuition.
Qed.

(** X8.  A [set_T] that returns leaves aligned states.  When [set_T(T)]
    returns, it returns [self]; the object then holds one pKa and one
    mobility for each charge, its charges passed the check of [_z_sort]
    and all were charges before, [z0] is the sorted charge list with 0
    added, and no warning but the one on the Nightingale range was
    emitted. *)
Theorem set_T_leaves_aligned_states t s r s' w :
  set_T _correct_pKa t s = (Ok r, s', w) ->
  r = s' /\
  List.length (pKa s') = List.length (z s') /\
  List.length (absolute_mobility s') = List.length (z s') /\
  run_checked (z s') /\
  (forall v, In v (z s') -> In v (z s)) /\
  z0 s' = sorted num_ltb (PyInt 0 :: z s') /\
  (w = [] \/ w = [msg_range]).
Proof.
  unfold set_T. intros H.
  apply bind_Ok in H as ([] & s1 & w1 & w2 & Hs & H & ->).
  unfold set_temperature in Hs. inversion Hs; subst; clear Hs.
  apply bind_Ok in H as ([] & s2 & w3 & w4 & Hta & H & ->).
  apply get_Ok in H as (-> & -> & ->).
  pose proof (temperature_adjust_lengths _ _ _ _ _ Hta) as [Hlp Hlm].
  apply temperature_adjust_Ok in Hta
    as (ps & ms & Hadj & Hu & Hz0 & _ & Hrun).
  unfold unzip3 in Hu. injection Hu as Hz _ _. simpl in *.
  repeat split; auto.
  - intros v Hv. rewrite Hz in Hv.
    now apply sorted_keys_In, zip3_keys_In in Hv.
  - rewrite app_nil_r. inversion Hadj; subst; auto.
    destruct (_ || _); auto.
Qed.

(** X9.  [set_T] at the reference temperature is the identity on reference
    states.  On an object at [T == T_ref] that holds its reference values,
    one for each of its strictly ascending charges, which are a run of
    ints without zero, with [z0] as [_set_z0] leaves it, [set_T(T)] at the
    object's own temperature returns the object unchanged and emits no
    warning. *)
Theorem set_T_at_T_ref_is_identity_on_reference_states s zs lo hi :
  PyFloat.eqb (T s) (_T_ref s) = true ->
  z s = map PyInt zs -> Sorted Z.lt zs -> is_run lo hi zs ->
  pKa s = _pKa_ref s -> absolute_mobility s = _absolute_mobility_ref s ->
  List.length (pKa s) = List.length zs ->
  List.length (absolute_mobility s) = List.length zs ->
  z0 s = sorted num_ltb (PyInt 0 :: z s) ->
  set_T _correct_pKa (T s) s = (Ok s, s, []).
Proof.
  destruct s as [n t tr h c nd nf zc pr mr p m zz].
  cbn [T _T_ref z pKa absolute_mobility _pKa_ref _absolute_mobility_ref z0].
  intros HT -> Hs Hrun -> -> Hlp Hlm ->.
  set (s := mkIon n t tr h c nd nf (map PyInt zs) pr mr pr mr
                  (sorted num_ltb (PyInt 0 :: map PyInt zs))).
  assert (Hsorted : sorted tuple_ltb (zip3 (map PyInt zs) pr mr)
                    = zip3 (map PyInt zs) pr mr)
    by apply sorted_in_order, zip3_in_order, Hs.
  assert (Hzs : z_sorted s = s).
  { unfold z_sorted, s.
    cbn [name T _T_ref dH dCp nightingale_data _nightingale_function z
         _pKa_ref _absolute_mobility_ref pKa absolute_mobility z0].
    rewrite Hsorted.
    rewrite map_key_zip3, map_pKa_zip3, map_mobility_zip3
      by (rewrite ?length_map; assumption).
    reflexivity. }
  assert (Hrun' : run_checked (map PyInt zs))
    by (apply run_checked_ints_iff; eauto).
  destruct Hrun' as (z1 & zt & lo' & hi' & Hz1 & Hlo & Hhi & Hd).
  assert (Hsort : _z_sort s = (Ok tt, s, [])).
  { rewrite _z_sort_run, Hzs. unfold s at 1 2 3.
    cbn [z pKa absolute_mobility]. rewrite Hsorted.
    destruct (zip3 (map PyInt zs) pr mr) as [|t0 ts] eqn:Hl.
    - exfalso. apply (f_equal (@List.length _)) in Hl.
      rewrite zip3_length, length_map, Hlp, Hlm in Hl.
      apply (f_equal (@List.length _)) in Hz1.
      rewrite length_map in Hz1. simpl in Hl, Hz1. lia.
    - assert (Hkeys : map (fun t => fst (fst t)) (t0 :: ts) = z1 :: zt).
      { rewrite <- Hl, map_key_zip3 by (rewrite ?length_map; assumption).
        exact Hz1. }
      cbn [map] in Hkeys |- *. injection Hkeys as Ht Hts.
      rewrite Ht, Hts, Hlo, Hhi. cbn [range_incl].
      rewrite <- Hz1, Hd. reflexivity. }
  unfold set_T.
  rewrite (bind_run_Ok (set_temperature t) _ s tt s []) by reflexivity.
  rewrite (bind_run_Ok (temperature_adjust _correct_pKa) _ s tt s []).
  - reflexivity.
  - rewrite temperature_adjust_at_T_ref by exact HT.
    change (at_reference s) with s.
    rewrite (bind_run_Ok _ _ _ _ _ _ Hsort), _set_z0_run. reflexivity.
Qed.
End SetTFacts.

(** Acetic acid, set to 25 degrees again. *)
Lemma set_T_leaves_aligned_states_witness :
  exists r s' w,
    set_T (_solvent := stub_solvent) no_correction f25 acetic_acid
    = (Ok r, s', w) /\
    r = s' /\
    List.length (pKa s') = List.length (z s') /\
    List.length (absolute_mobility s') = List.length (z s') /\
    run_checked (z s') /\
    (forall v, In v (z s') -> In v (z acetic_acid)) /\
    z0 s' = sorted num_ltb (PyInt 0 :: z s') /\
    (w = [] \/ w = [msg_range]).
Proof.
  eexists. eexists. eexists. split.
  - vm_compute. reflexivity.
  - apply (set_T_leaves_aligned_states (_solvent := stub_solvent)
             no_correction f25 acetic_acid).
    vm_compute. reflexivity.
Defined.

Lemma set_T_at_T_ref_is_identity_on_reference_states_witness :
  set_T (_solvent := stub_solvent) no_correction (T acetic_acid) acetic_acid
  = (Ok acetic_acid, acetic_acid, []).
Proof.
  apply (set_T_at_T_ref_is_identity_on_reference_states
           (_solvent := stub_solvent) no_correction acetic_acid [-1] (-1) (-1)).
  - vm_compute. reflexivity.
  - reflexivity.
  - repeat constructor.
  - split; [simpl; lia|]. split; [simpl; lia|]. intros k. simpl. lia.
  - reflexivity.
  - reflexivity.
  - reflexivity.
  - reflexivity.
  - reflexivity.
Defined.

Lemma bind_run_same {A B} (c c' : M A) (k : A -> M B) s :
  c s = c' s -> bind c k s = bind c' k s.
Proof. unfold bind. now intros ->. Qed.

(** ** The viscosity-ratio branch *)

Lemma walden_mobility_all {_solvent : Aqueous} t tref l ms :
  mapR (walden_mobility t tref) l = Ok ms -> l <> [] ->
  PyFloat.is_zero (viscosity t) = false /\
  ms = map (PyFloat.mul (PyFloat.fdiv (viscosity tref) (viscosity t))) l.
Proof.
  intros H Hne. apply mapR_Ok in H.
  assert (Hz : PyFloat.is_zero (viscosity t) = false).
  { destruct H as [|m m' l ms Hm _]; [congruence|].
    unfold walden_mobility, truediv in Hm.
    destruct (PyFloat.is_zero (viscosity t)); [discriminate|reflexivity]. }
  split; [exact Hz|]. clear Hne.
  induction H as [|m m' l ms Hm _ IH]; simpl; [reflexivity|].
  unfold walden_mobility, truediv in Hm. rewrite Hz in Hm. simpl in Hm.
  inversion Hm. now rewrite IH.
Qed.

Section ViscosityRatio.
Context {_solvent : Aqueous}.
Variable _correct_pKa : Ion -> result (list float).

(** X10.  Without a usable Nightingale fit, mobilities follow the
    viscosity ratio.  Away from [T_ref], when there is no Nightingale data
    or its fit is a constant, the object [Ion(...)] returns holds the pKa
    that [correct_pKa] gave and, in magnitude, the reference mobilities
    times [viscosity(T_ref) / viscosity(T)], state by state up to the
    sorting; the viscosity at [T] is not zero, and the only warning
    possible is the one on signs. *)
Theorem viscosity_ratio_scales_reference_mobilities
        name' z' pKa_ref mob_ref dH' dCp' nd T' T_ref ion w :
  PyFloat.eqb T' T_ref = false ->
  poly_truthy (option_map (fun nd => Poly1d.poly1d (Nightingale.fit nd)) nd)
  = false ->
  new _correct_pKa name' z' pKa_ref mob_ref dH' dCp' nd T' T_ref = (Ok ion, w) ->
  exists ps,
    _correct_pKa (init_attributes name' z' pKa_ref mob_ref dH' dCp' nd T' T_ref)
    = Ok ps /\
    PyFloat.is_zero (viscosity T') = false /\
    Permutation
      (zip3 (z ion) (pKa ion) (map PyFloat.abs (absolute_mobility ion)))
      (zip3 (listify z') ps
            (map (fun m => PyFloat.abs
                             (PyFloat.mul
                                (PyFloat.fdiv (viscosity T_ref) (viscosity T'))
                                m))
                 (listify mob_ref))) /\
    (w = [] \/ w = [msg_signs]).
Proof.
  intros HT Hf H.
  pose proof (new_Ok_charges _ _ _ _ _ _ _ _ _ _ _ _ H) as (Hrun & _).
  apply new_Ok_states in H
    as (ps & ms & w1 & l & Hadj & Hl & Hz & Hp & Hm & _ & _ & Hw).
  assert (Habs : map PyFloat.abs (absolute_mobility ion)
                 = map PyFloat.abs (map snd l)).
  { destruct Hm as [->| ->]; [reflexivity|].
    rewrite !map_map. apply map_ext. intros t. apply abs_with_sign. }
  inversion Hadj as [Heq | ps' ms' f nd' _ _ Hf' Htr _ _ | ps' ms' _ Hps _ Hms];
    subst; simpl in *.
  - congruence.
  - rewrite Hf' in Hf. simpl in Hf. congruence.
  - assert (Hne : listify mob_ref <> []).
    { intros He. rewrite He in Hms. simpl in Hms. inversion Hms; subst.
      destruct Hrun as (z1 & zs' & _ & _ & Hz1 & _).
      rewrite Hz in Hz1.
      destruct (listify z'); [discriminate|]. destruct ps; discriminate. }
    apply walden_mobility_all in Hms as [Hv ->]; [|exact Hne].
    exists ps. split; [exact Hps|]. split; [exact Hv|]. split.
    + rewrite Habs, Hz, Hp.
      rewrite (zip3_map_third PyFloat.abs _ _ (map snd _)), zip3_unzip3_id.
      rewrite <- (map_map _ PyFloat.abs).
      rewrite (zip3_map_third PyFloat.abs _ _ (map _ (listify mob_ref))).
      apply Permutation_map, sorted_Permutation.
    + destruct Hw as [->| ->]; auto.
Qed.

(** X11.  At the reference temperature nothing is computed.  With
    [T == T_ref], [Ion(...)] calls neither the viscosity of the solvent
    nor [correct_pKa]: its outcome is the same in any solvent and with any
    pKa correction. *)
Theorem reference_temperature_needs_no_model
        (solvent1 solvent2 : Aqueous)
        (correct_pKa1 correct_pKa2 : Ion -> result (list float))
        name' z' pKa_ref mob_ref dH' dCp' nd T' T_ref :
  PyFloat.eqb T' T_ref = true ->
  new (_solvent := solvent1) correct_pKa1 name' z' pKa_ref mob_ref dH' dCp' nd
      T' T_ref
  = new (_solvent := solvent2) correct_pKa2 name' z' pKa_ref mob_ref dH' dCp'
        nd T' T_ref.
Proof.
  intros HT. unfold new. rewrite !init_split.
  rewrite (bind_run_same (temperature_adjust (_solvent := solvent1) _)
             (fun s => bind _z_sort (fun _ => _set_z0) (at_reference s)))
    by (apply temperature_adjust_at_T_ref; exact HT).
  rewrite (bind_run_same (temperature_adjust (_solvent := solvent2) _)
             (fun s => bind _z_sort (fun _ => _set_z0) (at_reference s)))
    by (apply temperature_adjust_at_T_ref; exact HT).
  reflexivity.
Qed.

(** X12.  The record round trip keeps an Ion built from ascending
    charges.  When [Ion(...)] was given strictly ascending charges and
    kept a state for each of them, a new Ion built from the fields of its
    record at the same temperatures is the same object, with the same
    warnings. *)
Theorem round_trip_keeps_sorted_input
        name' z' pKa_ref mob_ref dH' dCp' nd T' T_ref zs ion w :
  listify z' = map PyInt zs -> Sorted Z.lt zs ->
  new _correct_pKa name' z' pKa_ref mob_ref dH' dCp' nd T' T_ref = (Ok ion, w) ->
  List.length (z ion) = List.length zs ->
  rebuild _correct_pKa (serialize_nested ion) T' T_ref = (Ok ion, w).
Proof.
  intros Hz Hs H Hlen.
  pose proof (new_Ok_states _ _ _ _ _ _ _ _ _ _ _ _ H)
    as (ps & ms & w1 & l & _ & Hl & Hzi & _ & _ & _ & Hsame & _).
  assert (Hzion : z ion = listify z').
  { rewrite Hz in Hl.
    rewrite (sorted_in_order _ _ (zip3_in_order _ _ _ Hs)) in Hl.
    pose proof (unzip3_zip3_firstn (map PyInt zs) ps ms) as Hu.
    unfold unzip3 in Hu. injection Hu as Hk _ _.
    rewrite <- Hl in Hk. rewrite Hzi, Hk, Hz.
    apply firstn_all2. rewrite length_map, <- Hlen, Hzi, length_map. lia. }
  destruct Hsame as (Hn & _ & _ & HdH & HdCp & Hnd & _ & Hpr & Hmr).
  simpl in *.
  unfold rebuild, serialize_nested.
  cbn [Serial.name Serial.z Serial.pKa_ref Serial.absolute_mobility_ref
       Serial.dH Serial.dCp Serial.nightingale_data].
  rewrite <- H, Hzion, Hn, HdH, HdCp, Hnd, Hpr, Hmr. reflexivity.
Qed.
End ViscosityRatio.

(** The charges 1 and -1 at 30 degrees, without Nightingale data. *)
Lemma viscosity_ratio_scales_reference_mobilities_witness :
  exists ion w,
    new (_solvent := stub_solvent) no_correction (str "x")
        (Seq [PyInt 1; PyInt (-1)]) (Seq [PyFloat.dec 9 0; PyFloat.dec 3 0])
        (Seq [PyFloat.dec 2 (-8); PyFloat.dec (-1) (-8)]) None None None
        (PyFloat.dec 30 0) f25
    = (Ok ion, w) /\
    exists ps,
      no_correction
        (init_attributes (str "x") (Seq [PyInt 1; PyInt (-1)])
                         (Seq [PyFloat.dec 9 0; PyFloat.dec 3 0])
                         (Seq [PyFloat.dec 2 (-8); PyFloat.dec (-1) (-8)])
                         None None None (PyFloat.dec 30 0) f25)
      = Ok ps /\
      PyFloat.is_zero (viscosity (Aqueous := stub_solvent) (PyFloat.dec 30 0))
      = false /\
      Permutation
        (zip3 (z ion) (pKa ion) (map PyFloat.abs (absolute_mobility ion)))
        (zip3 (listify (Seq [PyInt 1; PyInt (-1)])) ps
              (map (fun m =>
                      PyFloat.abs
                        (PyFloat.mul
                           (PyFloat.fdiv
                              (viscosity (Aqueous := stub_solvent) f25)
                              (viscosity (Aqueous := stub_solvent)
                                         (PyFloat.dec 30 0)))
                           m))
                   (listify (Seq [PyFloat.dec 2 (-8);
                                  PyFloat.dec (-1) (-8)])))) /\
      (w = [] \/ w = [msg_signs]).
Proof.
  eexists. eexists. split.
  - vm_compute. reflexivity.
  - apply (viscosity_ratio_scales_reference_mobilities
             (_solvent := stub_solvent) no_correction (str "x")
             (Seq [PyInt 1; PyInt (-1)])
             (Seq [PyFloat.dec 9 0; PyFloat.dec 3 0])
             (Seq [PyFloat.dec 2 (-8); PyFloat.dec (-1) (-8)])
             None None None (PyFloat.dec 30 0) f25 _ []).
    + vm_compute. reflexivity.
    + reflexivity.
    + vm_compute. reflexivity.
Defined.

(** Acetic acid in two solvents, with and without a pKa correction. *)
Lemma reference_temperature_needs_no_model_witness :
  new (_solvent := stub_solvent) no_correction (str "acetic acid")
      (Seq [PyInt (-1)]) (Seq [PyFloat.dec 476 (-2)])
      (Seq [PyFloat.dec (-424) (-10)]) None None None f25 f25
  = new (_solvent := stub_solvent') (fun _ => Raise TypeError)
        (str "acetic acid")
        (Seq [PyInt (-1)]) (Seq [PyFloat.dec 476 (-2)])
        (Seq [PyFloat.dec (-424) (-10)]) None None None f25 f25.
Proof.
  apply (reference_temperature_needs_no_model
           stub_solvent stub_solvent' no_correction (fun _ => Raise TypeError)
           (str "acetic acid") (Seq [PyInt (-1)]) (Seq [PyFloat.dec 476 (-2)])
           (Seq [PyFloat.dec (-424) (-10)]) None None None f25 f25).
  vm_compute. reflexivity.
Defined.

(** The charges -1 and 1, ascending. *)
Lemma round_trip_keeps_sorted_input_witness :
  exists ion w,
    Ion_at_25 "x" [PyInt (-1); PyInt 1] [PyFloat.dec 3 0; PyFloat.dec 9 0]
              [PyFloat.dec (-1) (-8); PyFloat.dec 2 (-8)]
    = (Ok ion, w) /\
    rebuild (_solvent := stub_solvent) no_correction (serialize_nested ion)
            f25 f25
    = (Ok ion, w).
Proof.
  eexists. eexists. split.
  - vm_compute. reflexivity.
  - apply (round_trip_keeps_sorted_input
             (_solvent := stub_solvent) no_correction (str "x")
             (Seq [PyInt (-1); PyInt 1])
             (Seq [PyFloat.dec 3 0; PyFloat.dec 9 0])
             (Seq [PyFloat.dec (-1) (-8); PyFloat.dec 2 (-8)])
             None None None f25 f25 [-1; 1]).
    + reflexivity.
    + repeat constructor.
    + vm_compute. reflexivity.
    + reflexivity.
Defined.

(** ** Floats around zero *)

Lemma eqb_refl_not_nan x : PyFloat.is_nan x = false -> PyFloat.eqb x x = true.
Proof.
  destruct x as [s|s| |s m e]; simpl; try discriminate; intros _.
  - reflexivity.
  - unfold PyFloat.eqb, SFeqb. simpl. now destruct s.
  - unfold PyFloat.eqb, SFeqb, SFcompare.
    rewrite Z.compare_refl, Pos.compare_cont_refl. now destruct s.
Qed.

(** [y * 0.0 / 1.0] is a zero, or NaN. *)
Lemma times_zero_over_one y s :
  let c := PyFloat.fdiv (PyFloat.mul y (S754_zero s)) (PyFloat.dec 1 0) in
  PyFloat.is_nan c = true \/ PyFloat.is_zero c = true.
Proof.
  replace (PyFloat.dec 1 0) with (S754_finite false 4503599627370496 (-52))
    by (vm_compute; reflexivity).
  destruct y as [sy|sy| |sy m e]; simpl; auto.
Qed.

(** [m - c] for a zero [c] is [==] to [m], unless [m] is NaN. *)
Lemma minus_zero m c :
  PyFloat.is_zero c = true ->
  PyFloat.is_nan (PyFloat.sub m c) = true
  \/ PyFloat.eqb (PyFloat.sub m c) m = true.
Proof.
  destruct c as [sc| | |]; try discriminate. intros _.
  destruct m as [s|s| |s m e]; simpl; auto.
  - right. destruct s, sc; reflexivity.
  - right. apply (eqb_refl_not_nan (S754_infinity s)). reflexivity.
  - right. apply (eqb_refl_not_nan (S754_finite s m e)). reflexivity.
Qed.

Lemma minus_nan m c :
  PyFloat.is_nan c = true -> PyFloat.is_nan (PyFloat.sub m c) = true.
Proof.
  destruct c; try discriminate. intros _. now destruct m.
Qed.

Lemma py_sqrt_zero s : py_sqrt (S754_zero s) = Ok (S754_zero s).
Proof. reflexivity. Qed.

Lemma one_plus_aD_zero s :
  PyFloat.add (PyFloat.dec 1 0) (PyFloat.mul _aD (S754_zero s))
  = PyFloat.dec 1 0.
Proof. destruct s; vm_compute; reflexivity. Qed.

Lemma rs_state_at_zero A B s m zc m' :
  rs_state A B (S754_zero s) (m, zc) = Ok m' ->
  PyFloat.is_nan m' = true \/ PyFloat.eqb m' m = true.
Proof.
  unfold rs_state. destruct (copysign (PyInt 1) zc) as [sg|]; [|discriminate].
  cbn [rbind]. rewrite py_sqrt_zero. cbn [rbind].
  rewrite one_plus_aD_zero. unfold truediv.
  replace (PyFloat.is_zero (PyFloat.dec 1 0)) with false
    by (vm_compute; reflexivity).
  cbn [rbind]. intros H. inversion H; subst; clear H.
  destruct (times_zero_over_one
              (PyFloat.add (PyFloat.mul A m) (PyFloat.mul B sg)) s) as [Hc|Hc].
  - left. now apply minus_nan.
  - now apply minus_zero.
Qed.

Lemma rs_state_negative A B I mz :
  PyFloat.ltb I PyFloat.zero = true ->
  forall m', rs_state A B I mz <> Ok m'.
Proof.
  intros HI m'. destruct mz as [m zc]. unfold rs_state.
  destruct (copysign (PyInt 1) zc) as [sg|]; [|discriminate].
  cbn [rbind]. unfold py_sqrt. rewrite HI. discriminate.
Qed.

Lemma mapR_cons_Raise {A B} (f : A -> result B) a l :
  (forall b, f a <> Ok b) -> forall bs, mapR f (a :: l) <> Ok bs.
Proof.
  intros H bs. simpl. destruct (f a) as [b|e] eqn:Hf; [|discriminate].
  exfalso. exact (H b eq_refl).
Qed.

Lemma rbind_Ok {A B} (r : result A) (f : A -> result B) b :
  rbind r f = Ok b -> exists a, r = Ok a /\ f a = Ok b.
Proof. destruct r as [a|e]; simpl; [eauto|discriminate]. Qed.

Section RobinsonStokesFacts.
Context {_solvent : Aqueous}.
Variable float_pow : float -> float -> result float.

(** What a correction that returns has computed: one value for each pair
    of a mobility and a charge, by [rs_state] on some coefficients. *)
Lemma robinson_stokes_body_Ok obj I t ms :
  robinson_stokes_body float_pow obj I t = Ok ms ->
  exists A B,
    mapR (rs_state A B I) (combine (absolute_mobility obj) (z obj)) = Ok ms.
Proof.
  unfold robinson_stokes_body. intros H.
  apply rbind_Ok in H as (r & _ & H).
  apply rbind_Ok in H as (pa & _ & H).
  apply rbind_Ok in H as (r' & _ & H).
  apply rbind_Ok in H as (pb & _ & H).
  apply rbind_Ok in H as (B & _ & H).
  eauto.
Qed.

(** X13.  At zero ionic strength the correction vanishes.  When
    [robinson_stokes_mobility] returns for [I] a zero, on an object with a
    mobility for each charge, each value returned is [==] to the absolute
    mobility of its state, or is NaN. *)
Theorem robinson_stokes_vanishes_at_zero_ionic_strength obj I T' ms :
  PyFloat.is_zero I = true ->
  List.length (absolute_mobility obj) = List.length (z obj) ->
  robinson_stokes_mobility float_pow obj I T' = Ok ms ->
  Forall2 (fun m m' => PyFloat.is_nan m' = true \/ PyFloat.eqb m' m = true)
          (absolute_mobility obj) ms.
Proof.
  intros HI Hlen H. unfold robinson_stokes_mobility in H.
  apply robinson_stokes_body_Ok in H as (A & B & H).
  destruct I as [s| | |]; try discriminate.
  apply mapR_Ok in H. clear HI.
  revert H Hlen. generalize (z obj). generalize (absolute_mobility obj).
  intros l. revert ms. induction l as [|m l IH]; intros ms [|zc zs] H Hlen;
    try discriminate; simpl in H.
  - inversion H. constructor.
  - inversion H as [|? m' ? ms' Hm Hrest]; subst. constructor.
    + now apply rs_state_at_zero in Hm.
    + apply (IH _ zs); [exact Hrest|]. simpl in Hlen. lia.
Qed.

(** X14.  A negative ionic strength never gives mobilities.  On an object
    that holds a state, [robinson_stokes_mobility] with [I < 0] returns
    no list: it raises. *)
Theorem robinson_stokes_rejects_negative_ionic_strength obj I T' :
  PyFloat.ltb I PyFloat.zero = true ->
  z obj <> [] -> absolute_mobility obj <> [] ->
  exists e, robinson_stokes_mobility float_pow obj I T' = Raise e.
Proof.
  intros HI Hz Hm.
  destruct (robinson_stokes_mobility float_pow obj I T') as [ms|e] eqn:H;
    [exfalso|now exists e].
  unfold robinson_stokes_mobility in H.
  apply robinson_stokes_body_Ok in H as (A & B & H).
  destruct (absolute_mobility obj) as [|m l]; [congruence|].
  destruct (z obj) as [|zc zs]; [congruence|].
  revert H. apply mapR_cons_Raise. now apply rs_state_negative.
Qed.
End RobinsonStokesFacts.

Section DiffusivityFacts.
Context {_solvent : Aqueous}.
Variable _correct_pKa : Ion -> result (list float).
Variable ionization_fraction : Ion -> float -> result (list float).
Variable py_sum : list float -> float.

(** X15.  [diffusivity] fails on a zero sum of fractions only.  For an
    object [Ion(...)] returned and a pH at which [ionization_fraction]
    returns, [diffusivity] returns a value, unless the fractions sum to
    zero, when the last division raises ZeroDivisionError. *)
Theorem diffusivity_fails_on_zero_fraction_sum_only
        name' z' pKa_ref mob_ref dH' dCp' nd T' T_ref ion w pH fr :
  new _correct_pKa name' z' pKa_ref mob_ref dH' dCp' nd T' T_ref = (Ok ion, w) ->
  ionization_fraction ion pH = Ok fr ->
  if PyFloat.is_zero (py_sum fr)
  then diffusivity ionization_fraction py_sum ion pH = Raise ZeroDivisionError
  else exists d, diffusivity ionization_fraction py_sum ion pH = Ok d.
Proof.
  intros H Hfr. apply new_Ok_charges in H as (_ & Hall & _).
  assert (Hterms : exists terms,
             mapR diffusivity_term (zip3 (absolute_mobility ion) fr (z ion))
             = Ok terms).
  { apply mapR_total. apply Forall_forall.
    intros [[m f] zc] Hin. apply zip3_In in Hin as (_ & _ & Hz).
    rewrite Forall_forall in Hall.
    destruct (Hall zc Hz) as (n & x & -> & Hn & Hx).
    unfold diffusivity_term, to_float, truediv. rewrite Hx. simpl.
    rewrite (of_Z_not_zero n x Hn Hx). eauto. }
  destruct Hterms as [terms Hterms].
  assert (Hdiv : diffusivity ionization_fraction py_sum ion pH
                 = truediv
                     (PyFloat.fdiv
                        (PyFloat.mul (PyFloat.mul (py_sum terms) boltzmann)
                                     (PyFloat.add (T ion)
                                                  (PyFloat.dec 27315 (-2))))
                        elementary_charge)
                     (py_sum fr)).
  { unfold diffusivity. rewrite Hfr. cbn [rbind]. rewrite Hterms.
    cbn [rbind]. unfold truediv at 1.
    replace (PyFloat.is_zero elementary_charge) with false
      by (vm_compute; reflexivity).
    reflexivity. }
  rewrite Hdiv. unfold truediv.
  destruct (PyFloat.is_zero (py_sum fr)); [reflexivity|].
  eexists. reflexivity.
Qed.
End DiffusivityFacts.

(** Acetic acid at ionic strength 0.0. *)
Lemma robinson_stokes_vanishes_at_zero_ionic_strength_witness :
  exists ms,
    robinson_stokes_mobility (_solvent := stub_solvent) any_pow acetic_acid
                             PyFloat.zero None = Ok ms /\
    Forall2 (fun m m' => PyFloat.is_nan m' = true \/ PyFloat.eqb m' m = true)
            (absolute_mobility acetic_acid) ms.
Proof.
  eexists. split.
  - vm_compute. reflexivity.
  - apply (robinson_stokes_vanishes_at_zero_ionic_strength
             (_solvent := stub_solvent) any_pow acetic_acid PyFloat.zero None).
    + reflexivity.
    + reflexivity.
    + vm_compute. reflexivity.
Defined.

(** Acetic acid at ionic strength -0.01. *)
Lemma robinson_stokes_rejects_negative_ionic_strength_witness :
  exists e,
    robinson_stokes_mobility (_solvent := stub_solvent) any_pow acetic_acid
                             (PyFloat.dec (-1) (-2)) None = Raise e.
Proof.
  apply (robinson_stokes_rejects_negative_ionic_strength
           (_solvent := stub_solvent) any_pow acetic_acid
           (PyFloat.dec (-1) (-2)) None).
  - vm_compute. reflexivity.
  - vm_compute. discriminate.
  - vm_compute. discriminate.
Defined.

(** Acetic acid, fully ionized and not ionized at all. *)
Lemma diffusivity_fails_on_zero_fraction_sum_only_witness :
  exists ion w,
    Ion_at_25 "acetic acid" [PyInt (-1)] [PyFloat.dec 476 (-2)]
              [PyFloat.dec (-424) (-10)] = (Ok ion, w) /\
    (exists d,
        diffusivity (fun _ _ => Ok [PyFloat.dec 1 0])
                    (fun l => fold_left PyFloat.add l PyFloat.zero)
                    ion (PyFloat.dec 7 0) = Ok d) /\
    diffusivity (fun _ _ => Ok [PyFloat.zero])
                (fun l => fold_left PyFloat.add l PyFloat.zero)
                ion (PyFloat.dec 7 0) = Raise ZeroDivisionError.
Proof.
  eexists. eexists. split; [vm_compute; reflexivity|]. split.
  - apply (diffusivity_fails_on_zero_fraction_sum_only
             (_solvent := stub_solvent) no_correction
             (fun _ _ => Ok [PyFloat.dec 1 0])
             (fun l => fold_left PyFloat.add l PyFloat.zero)
             (str "acetic acid") (Seq [PyInt (-1)])
             (Seq [PyFloat.dec 476 (-2)]) (Seq [PyFloat.dec (-424) (-10)])
             None None None f25 f25 _ [] (PyFloat.dec 7 0)
             [PyFloat.dec 1 0]).
    + vm_compute. reflexivity.
    + reflexivity.
  - apply (diffusivity_fails_on_zero_fraction_sum_only
             (_solvent := stub_solvent) no_correction
             (fun _ _ => Ok [PyFloat.zero])
             (fun l => fold_left PyFloat.add l PyFloat.zero)
             (str "acetic acid") (Seq [PyInt (-1)])
             (Seq [PyFloat.dec 476 (-2)]) (Seq [PyFloat.dec (-424) (-10)])
             None None None f25 f25 _ [] (PyFloat.dec 7 0)
             [PyFloat.zero]).
    + vm_compute. reflexivity.
    + reflexivity.
Defined.

Section FloatCharges.
Context {_solvent : Aqueous}.
Variable _correct_pKa : Ion -> result (list float).

(** X16.  Charges given as floats are a TypeError.  At [T == T_ref], when
    every charge given is a float and none of the three lists is empty,
    [Ion(...)] raises the TypeError of [range] on the least charge, before
    any assertion is made and without a warning. *)
Theorem float_charges_are_a_TypeError
        name' z' pKa_ref mob_ref dH' dCp' nd T' T_ref xs :
  PyFloat.eqb T' T_ref = true ->
  listify z' = map PyFloat xs ->
  xs <> [] -> listify pKa_ref <> [] -> listify mob_ref <> [] ->
  new _correct_pKa name' z' pKa_ref mob_ref dH' dCp' nd T' T_ref
  = (Raise TypeError, []).
Proof.
  intros HT Hz Hx Hp Hm.
  set (s0 := init_attributes name' z' pKa_ref mob_ref dH' dCp' nd T' T_ref).
  assert (Hsort : _z_sort (at_reference s0)
                  = (Raise TypeError, z_sorted (at_reference s0), [])).
  { rewrite _z_sort_run.
    cbn [at_reference s0 init_attributes z pKa absolute_mobility _pKa_ref
         _absolute_mobility_ref].
    destruct (sorted tuple_ltb _) as [|t ts] eqn:Hl.
    - exfalso. apply (f_equal (@List.length _)) in Hl.
      rewrite sorted_length, zip3_length, Hz, length_map in Hl.
      destruct xs; [congruence|]. destruct (listify pKa_ref); [congruence|].
      destruct (listify mob_ref); [congruence|]. discriminate.
    - assert (Hin : In (py_min (fst (fst t)) (map (fun t => fst (fst t)) ts))
                       (listify z')).
      { apply (zip3_keys_In _ (listify pKa_ref) (listify mob_ref)).
        apply (sorted_keys_In _ tuple_ltb). rewrite Hl. apply py_min_In. }
      rewrite Hz in Hin. apply in_map_iff in Hin as (x & Hx' & _).
      rewrite <- Hx'. reflexivity. }
  unfold new. rewrite init_split. fold s0.
  rewrite (bind_run_Raise (temperature_adjust _correct_pKa)
             (fun _ => init_checks) s0 TypeError
             (z_sorted (at_reference s0)) []).
  - reflexivity.
  - rewrite temperature_adjust_at_T_ref by exact HT.
    now rewrite (bind_run_Raise _ _ _ _ _ _ Hsort).
Qed.
End FloatCharges.

(** [Ion('x', [1.0], [5.0], [1e-8])]. *)
Lemma float_charges_are_a_TypeError_witness :
  Ion_at_25 "x" [PyFloat (PyFloat.dec 1 0)] [PyFloat.dec 5 0]
            [PyFloat.dec 1 (-8)]
  = (Raise TypeError, []).
Proof.
  apply (float_charges_are_a_TypeError
           (_solvent := stub_solvent) no_correction (str "x")
           (Seq [PyFloat (PyFloat.dec 1 0)]) (Seq [PyFloat.dec 5 0])
           (Seq [PyFloat.dec 1 (-8)]) None None None f25 f25
           [PyFloat.dec 1 0]).
  - vm_compute. reflexivity.
  - reflexivity.
  - discriminate.
  - discriminate.
  - discriminate.
Defined.

(** ** The charge in the Robinson-Stokes correction *)

Lemma copysign_one_int a b x y :
  PyFloat.of_Z a = Some x -> PyFloat.of_Z b = Some y ->
  (a <? 0) = (b <? 0) ->
  copysign (PyInt 1) (PyInt a) = copysign (PyInt 1) (PyInt b).
Proof.
  intros Ha Hb Hs. unfold copysign. cbn [to_float num_signbit].
  rewrite Ha, Hb, Hs. reflexivity.
Qed.

Lemma rs_states_by_sign A B I ms zs1 zs2 :
  Forall2 (fun a b => (a <? 0) = (b <? 0)) zs1 zs2 ->
  Forall (fun n => exists x, PyFloat.of_Z n = Some x) zs1 ->
  Forall (fun n => exists x, PyFloat.of_Z n = Some x) zs2 ->
  mapR (rs_state A B I) (combine ms (map PyInt zs1))
  = mapR (rs_state A B I) (combine ms (map PyInt zs2)).
Proof.
  intros H. revert ms. induction H as [|a b zs1 zs2 Hab _ IH]; intros ms H1 H2.
  - reflexivity.
  - destruct ms as [|m ms]; [reflexivity|].
    inversion H1 as [|? ? [x Hx] H1']; subst.
    inversion H2 as [|? ? [y Hy] H2']; subst.
    cbn [map combine mapR]. rewrite (IH ms H1' H2').
    unfold rs_state at 1 3.
    now rewrite (copysign_one_int a b x y Hx Hy Hab).
Qed.

Section ChargeSign.
Context {_solvent : Aqueous}.
Variable float_pow : float -> float -> result float.

(** X17.  The Robinson-Stokes correction reads only the sign of a charge.
    Two objects at one temperature with the same absolute mobilities and
    int charges of the same signs, state by state, get the same corrected
    mobilities, or the same exception: the magnitude of a charge does not
    enter, only [copysign(1, z)] does. *)
Theorem robinson_stokes_reads_only_the_sign_of_a_charge
        obj1 obj2 I T' zs1 zs2 :
  T obj1 = T obj2 ->
  absolute_mobility obj1 = absolute_mobility obj2 ->
  z obj1 = map PyInt zs1 -> z obj2 = map PyInt zs2 ->
  Forall2 (fun a b => (a <? 0) = (b <? 0)) zs1 zs2 ->
  Forall (fun n => exists x, PyFloat.of_Z n = Some x) zs1 ->
  Forall (fun n => exists x, PyFloat.of_Z n = Some x) zs2 ->
  robinson_stokes_mobility float_pow obj1 I T'
  = robinson_stokes_mobility float_pow obj2 I T'.
Proof.
  intros HT Hm Hz1 Hz2 Hs H1 H2.
  unfold robinson_stokes_mobility. rewrite HT.
  generalize (match T' with
              | Some x => if truthy_T T' then x else T obj2
              | None => T obj2
              end).
  intros t. unfold robinson_stokes_body.
  destruct (rs_ratio _ _ _ _) as [r|e]; [|reflexivity]. cbn [rbind].
  destruct (float_pow r _) as [pa|e]; [|reflexivity]. cbn [rbind].
  destruct (float_pow r _) as [pb|e]; [|reflexivity]. cbn [rbind].
  destruct (truediv _ _) as [B|e]; [|reflexivity]. cbn [rbind].
  rewrite Hm, Hz1, Hz2. now apply rs_states_by_sign.
Qed.
End ChargeSign.

(** Acetic acid at the charges -1 and -2. *)
Lemma robinson_stokes_reads_only_the_sign_of_a_charge_witness :
  robinson_stokes_mobility (_solvent := stub_solvent) any_pow acetic_acid
                           (PyFloat.dec 1 (-2)) None
  = robinson_stokes_mobility (_solvent := stub_solvent) any_pow
                             acetic_acid_at_charge_2
                             (PyFloat.dec 1 (-2)) None.
Proof.
  apply (robinson_stokes_reads_only_the_sign_of_a_charge
           (_solvent := stub_solvent) any_pow acetic_acid
           acetic_acid_at_charge_2 (PyFloat.dec 1 (-2)) None [-1] [-2]).
  - reflexivity.
  - reflexivity.
  - reflexivity.
  - reflexivity.
  - repeat constructor.
  - repeat constructor. eexists. vm_compute. reflexivity.
  - repeat constructor. eexists. vm_compute. reflexivity.
Defined.

(** ** The sign check of [__init__], forward *)













Section SignCoercion.
Context {_solvent : Aqueous}.
Variable _correct_pKa : Ion -> result (list float).

End SignCoercion.


(** A mismatched mobility is coerced with the warning, and the Ion is
    returned. *)
Lemma mismatched_mobility_is_coerced :
  exists ion,
    Ion_at_25 "x" [PyInt 1] [PyFloat.dec 476 (-2)] [PyFloat.dec (-5) (-8)]
    = (Ok ion, [msg_signs]) /\
    absolute_mobility ion = [PyFloat.dec 5 (-8)].
Proof.
  eexists. split; vm_compute; reflexivity.
Qed.

(** ** The scanner, equation by equation *)

Lemma dumps_Arr float_repr l :
  Json.dumps float_repr (Json.Arr l)
  = String "[" (JsonText.items float_repr l ++ "]").
Proof. reflexivity. Qed.

Lemma dumps_Obj float_repr l :
  Json.dumps float_repr (Json.Obj l)
  = String "{" (JsonText.members float_repr l ++ "}").
Proof. reflexivity. Qed.

Lemma scan_once_quote fuel r :
  Json.scan_once (S fuel) (String Json.quote r)
  = match Json.scanstring r [] with
    | Some (x, r') => Some (Json.Str x, r')
    | None => None
    end.
Proof. reflexivity. Qed.

Lemma scan_once_bracket fuel r :
  Json.scan_once (S fuel) (String "[" r)
  = match Json.skip_ws r with
    | String "]" r' => Some (Json.Arr [], r')
    | r' => Json.scan_items fuel r' []
    end.
Proof. reflexivity. Qed.

Lemma scan_once_brace fuel r :
  Json.scan_once (S fuel) (String "{" r)
  = match Json.skip_ws r with
    | String "}" r' => Some (Json.Obj [], r')
    | r' => Json.scan_members fuel r' []
    end.
Proof. reflexivity. Qed.

Lemma scan_items_S fuel s acc :
  Json.scan_items (S fuel) s acc
  = match Json.scan_once fuel s with
    | None => None
    | Some (v, r) =>
        match Json.skip_ws r with
        | String "]" r' => Some (Json.Arr (rev (v :: acc)), r')
        | String "," r' => Json.scan_items fuel (Json.skip_ws r') (v :: acc)
        | _ => None
        end
    end.
Proof. reflexivity. Qed.

Lemma scan_members_S fuel r acc :
  Json.scan_members (S fuel) (String Json.quote r) acc
  = match Json.scanstring r [] with
    | None => None
    | Some (k, r1) =>
        match Json.skip_ws r1 with
        | String ":" r2 =>
            match Json.scan_once fuel (Json.skip_ws r2) with
            | None => None
            | Some (v, r3) =>
                match Json.skip_ws r3 with
                | String "}" r' => Some (Json.Obj (rev ((k, v) :: acc)), r')
                | String "," r' =>
                    Json.scan_members fuel (Json.skip_ws r') ((k, v) :: acc)
                | _ => None
                end
            end
        | _ => None
        end
    end.
Proof. reflexivity. Qed.

(** What is neither a string, an array nor an object needs no more than
    one unit of fuel. *)
Lemma scan_once_scalar fuel s v r :
  Json.scan_once 1 s = Some (v, r) ->
  (forall x, v <> Json.Str x) -> v <> Json.Arr [] -> v <> Json.Obj [] ->
  Json.scan_once (S fuel) s = Some (v, r).
Proof.
  destruct s as [|c s']; [discriminate|].
  cbn [Json.scan_once].
  destruct (Ascii.eqb c Json.quote).
  - destruct (Json.scanstring s' []) as [[x r']|]; [|discriminate].
    intros H Hs. inversion H; subst. now destruct (Hs x).
  - destruct (Ascii.eqb c "{").
    + destruct (Json.skip_ws s') as [|c' r']; [discriminate|].
      destruct (Ascii.eqb c' "}") eqn:He.
      * apply Ascii.eqb_eq in He. subst c'. intros H _ _ Ho.
        inversion H; subst. now destruct Ho.
      * intros H. exfalso. revert H.
        destruct c' as [[] [] [] [] [] [] [] []]; try discriminate.
    + destruct (Ascii.eqb c "[").
      * destruct (Json.skip_ws s') as [|c' r']; [discriminate|].
        destruct (Ascii.eqb c' "]") eqn:He.
        -- apply Ascii.eqb_eq in He. subst c'. intros H _ Ha.
           inversion H; subst. now destruct Ha.
        -- intros H. exfalso. revert H.
           destruct c' as [[] [] [] [] [] [] [] []]; try discriminate.
      * auto.
Qed.

(** ** Strings through [json.dumps] and [py_scanstring] *)

Lemma all_below_spec bits f :
  all_below bits f = true -> forall c, (c < 2 ^ N.of_nat bits)%N -> f c = true.
Proof.
  revert f. induction bits as [|b IH]; intros f H c Hc.
  - simpl in *. assert (c = 0%N) by lia. now subst.
  - cbn [all_below] in H. apply andb_prop in H as [H0 H1].
    rewrite Nat2N.inj_succ, N.pow_succ_r' in Hc.
    destruct c as [|[p|p|]].
    + apply (IH _ H0 0%N). apply N.neq_0_lt_0, N.pow_nonzero. discriminate.
    + apply (IH _ H1 (Npos p)). lia.
    + apply (IH _ H0 (Npos p)). lia.
    + apply (IH _ H1 0%N). apply N.neq_0_lt_0, N.pow_nonzero. discriminate.
Qed.

Lemma hex4_round_trips u :
  (u < 65536)%N ->
  Json.hex4_value (Json.hex_digit (N.land (N.shiftr u 12) 15))
                  (Json.hex_digit (N.land (N.shiftr u 8) 15))
                  (Json.hex_digit (N.land (N.shiftr u 4) 15))
                  (Json.hex_digit (N.land u 15)) = Some u.
Proof.
  intros Hu.
  assert (H : hex4_round_trip u = true).
  { apply (all_below_spec 16); [vm_compute; reflexivity|exact Hu]. }
  unfold hex4_round_trip in H.
  destruct (Json.hex4_value _ _ _ _) as [x|]; [|discriminate].
  apply N.eqb_eq in H. now subst.
Qed.

Lemma pair_round_trips v :
  (v < 1048576)%N -> pair_round_trip v = true.
Proof.
  intros Hv. apply (all_below_spec 20); [vm_compute; reflexivity|exact Hv].
Qed.

Lemma scanstring_u_escape u tail acc :
  (u < 65536)%N ->
  Json.scanstring (Json.u_escape u ++ tail) acc
  = if ((55296 <=? u) && (u <=? 56319))%N then
      match tail with
      | String b (String c (String g1 (String g2 (String g3 (String g4 r3)))))
        =>
          if Ascii.eqb b Json.backslash && Ascii.eqb c "u" then
            match Json.hex4_value g1 g2 g3 g4 with
            | None => None
            | Some uni2 =>
                if ((56320 <=? uni2) && (uni2 <=? 57343))%N
                then Json.scanstring r3
                       ((65536 + N.lor (N.shiftl (u - 55296) 10)
                                       (uni2 - 56320))%N :: acc)
                else Json.scanstring tail (u :: acc)
            end
          else Json.scanstring tail (u :: acc)
      | _ => Json.scanstring tail (u :: acc)
      end
    else Json.scanstring tail (u :: acc).
Proof.
  intros Hu. unfold Json.u_escape.
  cbn [append Json.scanstring].
  change (Ascii.eqb Json.backslash Json.quote) with false.
  change (Ascii.eqb Json.backslash Json.backslash) with true.
  change (Ascii.eqb "u" "u") with true. cbv iota.
  rewrite (hex4_round_trips u Hu). reflexivity.
Qed.

(** One escaped code point is read back as the code point. *)
Lemma scanstring_escape_scalar c tail acc :
  scalar_value c = true ->
  Json.scanstring (Json.escape c ++ tail) acc = Json.scanstring tail (c :: acc).
Proof.
  intros Hc.
  assert (Hsv : (c < 55296 \/ 57344 <= c < 1114112)%N).
  { unfold scalar_value in Hc. apply orb_prop in Hc as [Hc|Hc].
    - apply N.ltb_lt in Hc. now left.
    - apply andb_prop in Hc as [H1 H2]. apply N.leb_le in H1.
      apply N.ltb_lt in H2. now right. }
  clear Hc.
  destruct (N.ltb_spec c 256) as [Hlow|Hhigh].
  - rewrite <- (N_ascii_embedding c Hlow). apply scanstring_escape.
  - unfold Json.escape.
    repeat match goal with
           | |- context [(c =? ?k)%N] =>
               replace (c =? k)%N with false
                 by (symmetry; apply N.eqb_neq; lia)
           end.
    replace (c <=? 126)%N with false by (symmetry; apply N.leb_gt; lia).
    rewrite andb_false_r.
    destruct (N.ltb_spec c 65536) as [Hbmp|Hsup].
    + rewrite scanstring_u_escape by exact Hbmp.
      replace ((55296 <=? c) && (c <=? 56319))%N with false; [reflexivity|].
      symmetry. apply andb_false_iff.
      destruct Hsv as [Hsv|Hsv];
        [left; apply N.leb_gt; lia|right; apply N.leb_gt; lia].
    + assert (Hv : (c - 65536 < 1048576)%N).
      { lia. }
      pose proof (pair_round_trips _ Hv) as Hp. unfold pair_round_trip in Hp.
      cbv zeta in Hp |- *.
      set (hi := N.lor 55296 (N.land (N.shiftr (c - 65536) 10) 1023)) in *.
      set (lo := N.lor 56320 (N.land (c - 65536) 1023)) in *.
      apply andb_prop in Hp as [Hp Heq].
      apply andb_prop in Hp as [Hp Hlo2].
      apply andb_prop in Hp as [Hp Hlo1].
      apply andb_prop in Hp as [Hhi1 Hhi2].
      assert (Hhi : (hi < 65536)%N) by (apply N.leb_le in Hhi2; lia).
      assert (Hlo : (lo < 65536)%N) by (apply N.leb_le in Hlo2; lia).
      rewrite string_app_assoc, scanstring_u_escape by exact Hhi.
      rewrite Hhi1, Hhi2. cbn [andb].
      unfold Json.u_escape at 1. cbn [append].
      change (Ascii.eqb Json.backslash Json.backslash) with true.
      change (Ascii.eqb "u" "u") with true. cbn [andb].
      rewrite (hex4_round_trips lo Hlo), Hlo1, Hlo2. cbn [andb].
      apply N.eqb_eq in Heq. rewrite Heq.
      replace (65536 + (c - 65536))%N with c by lia. reflexivity.
Qed.

Lemma scanstring_escape_plain k tail acc :
  forallb scalar_value k = true ->
  Json.scanstring (Json.escape_all k ++ String Json.quote tail) acc
  = Some (rev acc ++ k, tail).
Proof.
  revert acc. induction k as [|c k IH]; intros acc Hk.
  - simpl. now rewrite app_nil_r.
  - cbn [forallb] in Hk. apply andb_prop in Hk as [Hc Hk].
    cbn [Json.escape_all].
    rewrite string_app_assoc, scanstring_escape_scalar, IH by assumption.
    simpl. now rewrite <- app_assoc.
Qed.

(** A key or a text with the text after it. *)
Lemma scan_encode_str k tail :
  forallb scalar_value k = true ->
  Json.scanstring (Json.escape_all k ++ String Json.quote "" ++ tail) []
  = Some (k, tail).
Proof.
  intros Hk. change (String Json.quote "" ++ tail)%string
    with (String Json.quote tail).
  now rewrite scanstring_escape_plain.
Qed.

(** ** Arrays and objects *)

Lemma skip_ws_not_ws c r :
  Json.is_ws c = false -> Json.skip_ws (String c r) = String c r.
Proof. intros H. cbn [Json.skip_ws]. now rewrite H. Qed.

Lemma skip_ws_space r : Json.skip_ws (String " " r) = Json.skip_ws r.
Proof. reflexivity. Qed.

(** A text from which a value is read begins with neither white space nor
    a closing bracket. *)
Lemma scan_once_first fuel c r v r' :
  Json.scan_once fuel (String c r) = Some (v, r') ->
  Json.is_ws c = false /\ c <> "]"%char.
Proof.
  destruct fuel as [|fuel]; [discriminate|]. intros H. split.
  - destruct (Json.is_ws c) eqn:Hws; [exfalso|reflexivity].
    unfold Json.is_ws in Hws.
    repeat (apply orb_prop in Hws as [Hws|Hws]);
      apply Ascii.eqb_eq in Hws; subst c; simpl in H; discriminate.
  - intros ->. simpl in H. discriminate.
Qed.

Section Containers.
Variable float_repr : float -> string.

#[local] Abbreviation reads := (JsonText.reads float_repr).
#[local] Abbreviation items := (JsonText.items float_repr).
#[local] Abbreviation members := (JsonText.members float_repr).
#[local] Abbreviation dumps := (Json.dumps float_repr).

Lemma reads_first n v rest :
  reads n v -> delimited rest = true ->
  exists c r, (dumps v ++ rest)%string = String c r /\ Json.is_ws c = false
              /\ c <> "]"%char.
Proof.
  intros Hv Hr. pose proof (Hv n rest (le_n n) Hr) as H.
  destruct (dumps v ++ rest)%string as [|c r] eqn:Hs.
  - destruct n; discriminate.
  - exists c, r. split; [reflexivity|]. eapply scan_once_first; eauto.
Qed.

Lemma reads_more n n' v : (n <= n')%nat -> reads n v -> reads n' v.
Proof. intros Hn H fuel rest Hf Hr. apply H; [lia|exact Hr]. Qed.

(** The items of a list, up to the closing bracket. *)
Lemma items_head v l rest :
  exists rest',
    delimited rest' = true /\
    (items (v :: l) ++ String "]" rest)%string = (dumps v ++ rest')%string /\
    rest' = match l with
            | [] => String "]" rest
            | _ :: _ => String "," (String " " (items l ++ String "]" rest))
            end.
Proof.
  destruct l as [|v' l].
  - exists (String "]" rest). repeat split.
  - exists (String "," (String " " (items (v' :: l) ++ String "]" rest))).
    split; [reflexivity|]. split; [|reflexivity].
    cbn [JsonText.items]. now rewrite !string_app_assoc.
Qed.

Lemma scan_items_ok n l :
  Forall (reads n) l -> l <> [] ->
  forall fuel acc rest,
    (n + List.length l <= fuel)%nat ->
    Json.scan_items fuel (items l ++ String "]" rest) acc
    = Some (Json.Arr (rev acc ++ l), rest).
Proof.
  induction 1 as [|v l Hv Hl IH]; [congruence|]. intros _ fuel acc rest Hf.
  destruct fuel as [|fuel]; [simpl in Hf; lia|].
  rewrite scan_items_S.
  destruct (items_head v l rest) as (rest' & Hd & -> & Hrest).
  rewrite (Hv fuel rest' ltac:(simpl in Hf; lia) Hd).
  destruct l as [|v' l'].
  - subst rest'. cbn [Json.skip_ws Json.is_ws]. simpl. reflexivity.
  - subst rest'.
    rewrite skip_ws_not_ws by reflexivity.
    rewrite skip_ws_space.
    destruct (items_head v' l' rest) as (rest'' & Hd' & Heq & _).
    inversion Hl as [|? ? Hv' _]; subst.
    destruct (reads_first n v' rest'' Hv' Hd') as (c & r & Hs & Hws & _).
    rewrite Heq, Hs, (skip_ws_not_ws c r Hws), <- Hs, <- Heq.
    rewrite IH; [|discriminate|simpl in Hf |- *; lia].
    cbn [rev]. now rewrite <- app_assoc.
Qed.

(** A list is read back when its items are. *)
Lemma scan_Arr n l fuel rest :
  Forall (reads n) l -> (n + List.length l + 1 <= fuel)%nat ->
  Json.scan_once fuel (dumps (Json.Arr l) ++ rest) = Some (Json.Arr l, rest).
Proof.
  intros Hl Hf. destruct fuel as [|fuel]; [lia|].
  rewrite dumps_Arr. cbn [append]. rewrite scan_once_bracket.
  rewrite string_app_assoc. change ("]" ++ rest)%string with (String "]" rest).
  destruct l as [|v l].
  - reflexivity.
  - destruct (items_head v l rest) as (rest' & Hd & Heq & _).
    inversion Hl as [|? ? Hv _]; subst.
    destruct (reads_first n v rest' Hv Hd) as (c & r & Hs & Hws & Hc).
    assert (Hitems : Json.scan_items fuel (String c r) []
                     = Some (Json.Arr (v :: l), rest)).
    { rewrite <- Hs, <- Heq.
      apply (scan_items_ok n (v :: l) Hl); [discriminate|].
      simpl in *. lia. }
    rewrite Heq, Hs, (skip_ws_not_ws c r Hws).
    destruct c as [[] [] [] [] [] [] [] []]; try exact Hitems.
    now destruct Hc.
Qed.

Lemma reads_Arr n l :
  Forall (reads n) l -> reads (n + List.length l + 1) (Json.Arr l).
Proof. intros Hl fuel rest Hf _. now apply (scan_Arr n). Qed.

(** The members of a dict, up to the closing brace. *)
Lemma members_head k v l rest :
  exists rest',
    delimited rest' = true /\
    (members ((k, v) :: l) ++ String "}" rest)%string
    = String Json.quote
        (Json.escape_all k
         ++ String Json.quote (String ":" (String " " (dumps v ++ rest'))))
    /\
    rest' = match l with
            | [] => String "}" rest
            | _ :: _ => String "," (String " " (members l ++ String "}" rest))
            end.
Proof.
  destruct l as [|kv l].
  - exists (String "}" rest). split; [reflexivity|]. split; [|reflexivity].
    cbn [JsonText.members]. unfold Json.encode_str.
    repeat (rewrite ?string_app_assoc; progress cbn [append]). reflexivity.
  - exists (String "," (String " " (members (kv :: l) ++ String "}" rest))).
    split; [reflexivity|]. split; [|reflexivity].
    change (members ((k, v) :: kv :: l))
      with (Json.encode_str k ++ ": " ++ dumps v ++ ", "
            ++ members (kv :: l))%string.
    generalize (members (kv :: l)). intros M. unfold Json.encode_str.
    repeat (rewrite ?string_app_assoc; progress cbn [append]). reflexivity.
Qed.

Lemma scan_members_ok n l :
  Forall (fun kv => forallb scalar_value (fst kv) = true /\ reads n (snd kv))
         l ->
  l <> [] ->
  forall fuel acc rest,
    (n + List.length l <= fuel)%nat ->
    Json.scan_members fuel (members l ++ String "}" rest) acc
    = Some (Json.Obj (rev acc ++ l), rest).
Proof.
  induction 1 as [|[k v] l [Hk Hv] Hl IH]; [congruence|].
  intros _ fuel acc rest Hf. cbn [fst snd] in Hk, Hv.
  destruct fuel as [|fuel]; [simpl in Hf; lia|].
  destruct (members_head k v l rest) as (rest' & Hd & Heq & Hrest).
  unfold pystr in *.
  rewrite Heq, scan_members_S, (scanstring_escape_plain k _ [] Hk).
  cbn [rev app]. rewrite skip_ws_not_ws by reflexivity.
  rewrite skip_ws_space.
  destruct (reads_first n v rest' Hv Hd) as (c & r & Hs & Hws & _).
  rewrite Hs, (skip_ws_not_ws c r Hws), <- Hs.
  rewrite (Hv fuel rest' ltac:(simpl in Hf; lia) Hd).
  destruct l as [|[k' v'] l'].
  - subst rest'. reflexivity.
  - subst rest'. rewrite skip_ws_not_ws by reflexivity.
    rewrite skip_ws_space.
    destruct (members_head k' v' l' rest) as (rest'' & _ & Heq' & _).
    unfold pystr in *.
    rewrite Heq', skip_ws_not_ws by reflexivity. rewrite <- Heq'.
    rewrite IH; [|discriminate|simpl in Hf |- *; lia].
    cbn [rev]. now rewrite <- app_assoc.
Qed.

(** A dict is read back when its keys and values are, whatever follows
    it. *)
Lemma scan_Obj n l fuel rest :
  Forall (fun kv => forallb scalar_value (fst kv) = true /\ reads n (snd kv))
         l ->
  (n + List.length l + 1 <= fuel)%nat ->
  Json.scan_once fuel (dumps (Json.Obj l) ++ rest) = Some (Json.Obj l, rest).
Proof.
  intros Hl Hf. destruct fuel as [|fuel]; [lia|].
  rewrite dumps_Obj. cbn [append]. rewrite scan_once_brace.
  rewrite string_app_assoc. change ("}" ++ rest)%string with (String "}" rest).
  destruct l as [|[k v] l].
  - reflexivity.
  - assert (Hm : Json.scan_members fuel (members ((k, v) :: l)
                                         ++ String "}" rest) []
                 = Some (Json.Obj ((k, v) :: l), rest)).
    { apply (scan_members_ok n ((k, v) :: l) Hl); [discriminate|].
      simpl in *. lia. }
    destruct (members_head k v l rest) as (rest' & _ & Heq & _).
    unfold pystr in *.
    rewrite Heq in Hm |- *. rewrite skip_ws_not_ws by reflexivity.
    exact Hm.
Qed.

Lemma reads_Obj n l :
  Forall (fun kv => forallb scalar_value (fst kv) = true /\ reads n (snd kv))
         l ->
  reads (n + List.length l + 1) (Json.Obj l).
Proof. intros Hl fuel rest Hf _. now apply (scan_Obj n). Qed.
End Containers.

(** ** Scalars *)

Lemma substring_all s : String.substring 0 (String.length s) s = s.
Proof. induction s as [|c s IH]; simpl; [reflexivity|]. now rewrite IH. Qed.

Lemma prefix_app p r : String.prefix p (p ++ r) = true.
Proof.
  induction p as [|c p IH]; simpl; [now destruct r|].
  destruct (ascii_dec c c); [exact IH|congruence].
Qed.

Lemma substring_skip p r :
  String.substring (String.length p)
                   (String.length (p ++ r) - String.length p) (p ++ r) = r.
Proof.
  induction p as [|c p IH]; simpl.
  - rewrite Nat.sub_0_r. apply substring_all.
  - exact IH.
Qed.

Lemma starts_with_app p r : Json.starts_with p (p ++ r) = Some r.
Proof.
  unfold Json.starts_with. now rewrite prefix_app, substring_skip.
Qed.

Lemma scan_once_other fuel c r :
  Ascii.eqb c Json.quote = false -> Ascii.eqb c "{" = false ->
  Ascii.eqb c "[" = false ->
  Json.scan_once (S fuel) (String c r)
  = match Json.starts_with "null" (String c r),
          Json.starts_with "true" (String c r),
          Json.starts_with "false" (String c r),
          Json.starts_with "NaN" (String c r),
          Json.starts_with "Infinity" (String c r),
          Json.starts_with "-Infinity" (String c r) with
    | Some r', _, _, _, _, _ => Some (Json.Null, r')
    | _, Some r', _, _, _, _ => Some (Json.Bool true, r')
    | _, _, Some r', _, _, _ => Some (Json.Bool false, r')
    | _, _, _, Some r', _, _ => Some (Json.Float S754_nan, r')
    | _, _, _, _, Some r', _ => Some (Json.Float (S754_infinity false), r')
    | _, _, _, _, _, Some r' => Some (Json.Float (S754_infinity true), r')
    | _, _, _, _, _, _ => Json.scan_number (String c r)
    end.
Proof. intros H1 H2 H3. cbn [Json.scan_once]. now rewrite H1, H2, H3. Qed.

Lemma starts_with_other p c c' r :
  c <> c' -> Json.starts_with (String c p) (String c' r) = None.
Proof.
  intros H. unfold Json.starts_with. cbn [String.prefix].
  destruct (ascii_dec c c'); [contradiction|reflexivity].
Qed.

Ltac literal p r :=
  let H := fresh in
  pose proof (starts_with_app p r) as H; cbn [append] in H; rewrite H; clear H.

Lemma scan_null r : Json.scan_once 1 ("null" ++ r) = Some (Json.Null, r).
Proof.
  cbn [append]. rewrite scan_once_other by reflexivity.
  literal ("null"%string) r. reflexivity.
Qed.

Lemma scan_true r : Json.scan_once 1 ("true" ++ r) = Some (Json.Bool true, r).
Proof.
  cbn [append]. rewrite scan_once_other by reflexivity.
  rewrite (starts_with_other _ "n" "t") by discriminate.
  literal ("true"%string) r. reflexivity.
Qed.

Lemma scan_false r :
  Json.scan_once 1 ("false" ++ r) = Some (Json.Bool false, r).
Proof.
  cbn [append]. rewrite scan_once_other by reflexivity.
  rewrite (starts_with_other _ "n" "f"), (starts_with_other _ "t" "f")
    by discriminate.
  literal ("false"%string) r. reflexivity.
Qed.

Lemma scan_NaN r :
  Json.scan_once 1 ("NaN" ++ r) = Some (Json.Float S754_nan, r).
Proof.
  cbn [append]. rewrite scan_once_other by reflexivity.
  rewrite (starts_with_other _ "n" "N"), (starts_with_other _ "t" "N"),
    (starts_with_other _ "f" "N") by discriminate.
  literal ("NaN"%string) r. reflexivity.
Qed.

Lemma scan_Infinity r :
  Json.scan_once 1 ("Infinity" ++ r)
  = Some (Json.Float (S754_infinity false), r).
Proof.
  cbn [append]. rewrite scan_once_other by reflexivity.
  rewrite (starts_with_other _ "n" "I"), (starts_with_other _ "t" "I"),
    (starts_with_other _ "f" "I"), (starts_with_other _ "N" "I")
    by discriminate.
  literal ("Infinity"%string) r. reflexivity.
Qed.

Lemma scan_minus_Infinity r :
  Json.scan_once 1 ("-Infinity" ++ r)
  = Some (Json.Float (S754_infinity true), r).
Proof.
  cbn [append]. rewrite scan_once_other by reflexivity.
  rewrite (starts_with_other _ "n" "-"), (starts_with_other _ "t" "-"),
    (starts_with_other _ "f" "-"), (starts_with_other _ "N" "-"),
    (starts_with_other _ "I" "-") by discriminate.
  literal ("-Infinity"%string) r. reflexivity.
Qed.

(** *** Integers *)

Lemma take_digits_end rest acc n :
  delimited rest = true -> Json.take_digits rest acc n = (acc, n, rest).
Proof.
  destruct rest as [|c r]; [discriminate|]. cbn [delimited]. intros H.
  repeat (apply orb_prop in H as [H|H]);
    apply Ascii.eqb_eq in H; subst c; reflexivity.
Qed.

Lemma take_digits_uint d rest acc n :
  delimited rest = true ->
  exists n',
    Json.take_digits (NilEmpty.string_of_uint d ++ rest) acc n
    = (digits_value d acc, n', rest).
Proof.
  intros Hr. revert acc n.
  induction d as [|d IH|d IH|d IH|d IH|d IH|d IH|d IH|d IH|d IH|d IH];
    intros acc n;
    [exists n; apply take_digits_end; exact Hr
    |exact (IH (10 * acc + _) (n + 1))..].
Qed.

Lemma digits_value_pos d acc :
  digits_value d (Zpos acc) = Zpos (Pos.of_uint_acc d acc).
Proof.
  revert acc. induction d; intros acc; cbn [digits_value Pos.of_uint_acc];
    [reflexivity|..];
    match goal with
    | IH : forall acc, _ |- digits_value _ ?a = Zpos (Pos.of_uint_acc _ ?b) =>
        replace a with (Zpos b) by lia; apply IH
    end.
Qed.

Lemma digits_value_zero d : digits_value d 0 = Z.of_N (Pos.of_uint d).
Proof.
  induction d; cbn [digits_value Pos.of_uint]; [reflexivity|exact IHd|..];
    apply (digits_value_pos d).
Qed.

Lemma digits_value_to_uint p : digits_value (Pos.to_uint p) 0 = Zpos p.
Proof. now rewrite digits_value_zero, DecimalPos.Unsigned.of_to. Qed.

Lemma nzhead_not_D0 d l : Decimal.nzhead d <> Decimal.D0 l.
Proof. induction d; simpl; auto; discriminate. Qed.

(** The decimal of a positive number begins with a digit other than 0. *)
Lemma to_uint_head p :
  match Pos.to_uint p with
  | Decimal.Nil | Decimal.D0 _ => False
  | _ => True
  end.
Proof.
  pose proof (DecimalPos.Unsigned.to_of (Pos.to_uint p)) as H.
  rewrite DecimalPos.Unsigned.of_to in H. cbn [N.to_uint] in H.
  pose proof (DecimalPos.Unsigned.to_uint_nonnil p) as Hnil.
  pose proof (DecimalPos.Unsigned.to_uint_nonzero p) as Hz.
  destruct (Pos.to_uint p) as [|l| | | | | | | | |]; try exact I.
  - congruence.
  - unfold Decimal.unorm in H. cbn [Decimal.nzhead] in H.
    destruct (Decimal.nzhead l) eqn:Hl;
      try (symmetry in H; revert H; rewrite <- Hl at 1; apply nzhead_not_D0).
    injection H as H. subst l. now destruct Hz.
Qed.


Lemma scan_number_digits d rest :
  match d with Decimal.Nil | Decimal.D0 _ => False | _ => True end ->
  delimited rest = true ->
  Json.scan_number (NilEmpty.string_of_uint d ++ rest)
  = Some (Json.Int (digits_value d 0), rest).
Proof.
  intros Hd Hr. destruct (take_digits_uint d rest 0 0 Hr) as [n' Htd].
  destruct rest as [|c r]; [discriminate|]. cbn [delimited] in Hr.
  destruct d; try contradiction;
    cbn [NilEmpty.string_of_uint append] in *; unfold Json.scan_number;
    cbn -[Json.take_digits digits_value]; rewrite Htd;
    repeat (apply orb_prop in Hr as [Hr|Hr]);
    apply Ascii.eqb_eq in Hr; subst c; reflexivity.
Qed.

Lemma scan_number_minus_digits d rest :
  match d with Decimal.Nil | Decimal.D0 _ => False | _ => True end ->
  delimited rest = true ->
  Json.scan_number (String "-" (NilEmpty.string_of_uint d ++ rest))
  = Some (Json.Int (- digits_value d 0), rest).
Proof.
  intros Hd Hr. destruct (take_digits_uint d rest 0 0 Hr) as [n' Htd].
  destruct rest as [|c r]; [discriminate|]. cbn [delimited] in Hr.
  destruct d; try contradiction;
    cbn [NilEmpty.string_of_uint append] in *; unfold Json.scan_number;
    cbn -[Json.take_digits digits_value]; rewrite Htd;
    repeat (apply orb_prop in Hr as [Hr|Hr]);
    apply Ascii.eqb_eq in Hr; subst c; reflexivity.
Qed.

Lemma starts_with_minus c r :
  c <> "I"%char ->
  Json.starts_with "-Infinity" (String "-" (String c r)) = None.
Proof.
  intros H. unfold Json.starts_with. cbn [String.prefix].
  destruct (ascii_dec "-" "-"); [|congruence].
  destruct (ascii_dec "I" c); [congruence|reflexivity].
Qed.

(** An int is read back from its decimal. *)
Lemma scan_int fuel n rest :
  delimited rest = true ->
  Json.scan_once (S fuel) (Json.int_repr n ++ rest) = Some (Json.Int n, rest).
Proof.
  intros Hr. unfold Json.int_repr. destruct n as [|p|p].
  - destruct rest as [|c r]; [discriminate|]. cbn [delimited] in Hr.
    repeat (apply orb_prop in Hr as [Hr|Hr]);
      apply Ascii.eqb_eq in Hr; subst c; reflexivity.
  - cbn [Z.to_int NilZero.string_of_int NilZero.string_of_uint].
    pose proof (to_uint_head p) as Hh.
    pose proof (digits_value_to_uint p) as Hv.
    destruct (Pos.to_uint p) as [|u|u|u|u|u|u|u|u|u|u] eqn:E;
      try contradiction;
      match type of Hv with
      | digits_value ?d 0 = _ =>
          rewrite <- Hv, <- (scan_number_digits d rest I Hr)
      end;
      cbn [NilZero.string_of_uint NilEmpty.string_of_uint append];
      rewrite scan_once_other by reflexivity;
      rewrite !starts_with_other by discriminate; reflexivity.
  - cbn [Z.to_int NilZero.string_of_int NilZero.string_of_uint].
    pose proof (to_uint_head p) as Hh.
    pose proof (digits_value_to_uint p) as Hv.
    replace (Z.neg p) with (- Z.pos p) by reflexivity.
    destruct (Pos.to_uint p) as [|u|u|u|u|u|u|u|u|u|u] eqn:E;
      try contradiction;
      match type of Hv with
      | digits_value ?d 0 = _ =>
          rewrite <- Hv, <- (scan_number_minus_digits d rest I Hr)
      end;
      cbn [NilZero.string_of_uint NilEmpty.string_of_uint append];
      rewrite scan_once_other by reflexivity;
      rewrite !starts_with_other by discriminate;
      rewrite starts_with_minus by discriminate; reflexivity.
Qed.

Section Scalars.
Variable float_repr : float -> string.

#[local] Abbreviation reads := (JsonText.reads float_repr).
#[local] Abbreviation reads_back := (JsonText.reads_back float_repr).

Lemma fuel_S (n : nat) : (1 <= n)%nat -> exists m, n = S m.
Proof. destruct n; [lia|eauto]. Qed.

Lemma reads_Null : reads 1 Json.Null.
Proof.
  intros fuel rest Hf _. destruct (fuel_S fuel Hf) as [m ->].
  apply scan_once_scalar; try discriminate. apply scan_null.
Qed.

Lemma reads_Bool b : reads 1 (Json.Bool b).
Proof.
  intros fuel rest Hf _. destruct (fuel_S fuel Hf) as [m ->].
  apply scan_once_scalar; try discriminate.
  destruct b; [apply scan_true|apply scan_false].
Qed.

Lemma reads_Int n : reads 1 (Json.Int n).
Proof.
  intros fuel rest Hf Hr. destruct (fuel_S fuel Hf) as [m ->].
  now apply scan_int.
Qed.

Lemma reads_Float x : reads_back x -> reads 1 (Json.Float x).
Proof.
  intros Hx fuel rest Hf Hr. destruct (fuel_S fuel Hf) as [m ->].
  apply scan_once_scalar; try discriminate.
  destruct x as [s|[]| |s mx e]; cbn [Json.dumps Json.encode_float].
  - now apply Hx.
  - apply scan_minus_Infinity.
  - apply scan_Infinity.
  - apply scan_NaN.
  - now apply Hx.
Qed.

Lemma reads_Str s : forallb scalar_value s = true -> reads 1 (Json.Str s).
Proof.
  intros Hs fuel rest Hf _. destruct (fuel_S fuel Hf) as [m ->].
  cbn [Json.dumps]. unfold Json.encode_str. cbn [append].
  rewrite scan_once_quote, string_app_assoc.
  now rewrite (scan_encode_str s rest Hs).
Qed.

Lemma reads_floats l :
  Forall reads_back l ->
  reads (List.length l + 2) (Json.Arr (map Json.Float l)).
Proof.
  intros H.
  assert (Hl : Forall (reads 1) (map Json.Float l)).
  { induction H; constructor; auto using reads_Float. }
  apply (reads_Arr float_repr 1) in Hl. rewrite length_map in Hl.
  eapply reads_more; [|exact Hl]. lia.
Qed.
End Scalars.

(** ** The text of [serialize] *)

Lemma string_length_app a b :
  String.length (a ++ b) = (String.length a + String.length b)%nat.
Proof. induction a as [|c a IH]; simpl; [reflexivity|]. now rewrite IH. Qed.

Lemma string_app_nil a : (a ++ "")%string = a.
Proof. induction a as [|c a IH]; simpl; [reflexivity|]. now rewrite IH. Qed.

Section RecordText.
Variable float_repr : float -> string.

#[local] Abbreviation reads := (JsonText.reads float_repr).
#[local] Abbreviation reads_back := (JsonText.reads_back float_repr).
#[local] Abbreviation dumps := (Json.dumps float_repr).

(** A list takes at least a character more than it has items. *)
Lemma items_length l :
  (List.length l <= String.length (JsonText.items float_repr l) + 1)%nat.
Proof.
  induction l as [|v l IH]; [simpl; lia|].
  destruct l as [|v' l']; [simpl; lia|].
  change (JsonText.items float_repr (v :: v' :: l'))
    with (dumps v ++ ", " ++ JsonText.items float_repr (v' :: l'))%string.
  rewrite !string_length_app. simpl in *. lia.
Qed.

Lemma Arr_length l :
  (List.length l + 1 <= String.length (dumps (Json.Arr l)))%nat.
Proof.
  rewrite dumps_Arr. cbn [String.length]. rewrite string_length_app.
  pose proof (items_length l). simpl. lia.
Qed.

Lemma reads_nums zs :
  Forall reads_back (num_floats zs) ->
  reads (List.length zs + 2) (Json.Arr (map num_json zs)).
Proof.
  intros H.
  assert (Hl : Forall (reads 1) (map num_json zs)).
  { induction zs as [|[n|x] zs IH]; cbn [map num_json]; constructor.
    - apply reads_Int.
    - apply IH. exact H.
    - apply reads_Float. cbn [num_floats flat_map app] in H.
      now inversion H.
    - apply IH. cbn [num_floats flat_map app] in H. now inversion H. }
  apply (reads_Arr float_repr 1) in Hl. rewrite length_map in Hl.
  eapply reads_more; [|exact Hl]. lia.
Qed.

Lemma reads_option_floats o :
  Forall reads_back (option_floats o) ->
  reads (List.length (option_floats o) + 2) (option_json floats_json o).
Proof.
  destruct o as [l|]; cbn [option_floats option_json].
  - apply reads_floats.
  - intros _. eapply reads_more; [|apply reads_Null]. simpl. lia.
Qed.

Lemma reads_nightingale o :
  Forall reads_back (nightingale_floats o) ->
  reads (List.length (nightingale_floats o) + 6)
        (option_json nightingale_json o).
Proof.
  destruct o as [nd|]; cbn [nightingale_floats option_json].
  - intros H. apply Forall_app in H as [Hfit Hmm].
    inversion Hmm as [|? ? Hmin Hmm']; subst.
    inversion Hmm' as [|? ? Hmax _]; subst.
    unfold nightingale_json.
    eapply reads_more;
      [|apply (reads_Obj float_repr (List.length (Nightingale.fit nd) + 2))].
    + rewrite length_app. simpl. lia.
    + repeat constructor; cbn [fst snd].
      * now apply reads_floats.
      * eapply reads_more; [|apply reads_Float; exact Hmin]. lia.
      * eapply reads_more; [|apply reads_Float; exact Hmax]. lia.
  - intros _. eapply reads_more; [|apply reads_Null]. simpl. lia.
Qed.

Lemma option_floats_length o :
  (List.length (option_floats o)
   <= String.length (dumps (option_json floats_json o)))%nat.
Proof.
  destruct o as [l|]; cbn [option_floats option_json]; [|simpl; lia].
  pose proof (Arr_length (map Json.Float l)) as H.
  rewrite length_map in H. unfold floats_json. lia.
Qed.

Lemma nightingale_length o :
  (List.length (nightingale_floats o)
   <= String.length (dumps (option_json nightingale_json o)) )%nat.
Proof.
  destruct o as [nd|]; cbn [nightingale_floats option_json]; [|simpl; lia].
  unfold nightingale_json. rewrite dumps_Obj. cbn [JsonText.members].
  pose proof (Arr_length (map Json.Float (Nightingale.fit nd))) as H.
  rewrite length_map in H. fold (floats_json (Nightingale.fit nd)) in H.
  rewrite length_app.
  cbn [String.length]. rewrite !string_length_app. cbn [String.length List.length].
  lia.
Qed.
End RecordText.

Section SerializedText.
Variable float_repr : float -> string.

#[local] Abbreviation reads := (JsonText.reads float_repr).
#[local] Abbreviation reads_back := (JsonText.reads_back float_repr).
#[local] Abbreviation dumps := (Json.dumps float_repr).

(** The text [serialize()] returns is read by [json.loads] as the dict of
    the Ion's fields, when the name holds no surrogate and [float_repr]
    writes each float of the record so that it is read back. *)
Lemma loads_serialize (self : Ion) :
  forallb scalar_value (name self) = true ->
  Forall reads_back (record_floats self) ->
  Json.loads (serialize float_repr self)
  = Some (record_json (serialize_nested self)).
Proof.
  intros Hname Hfl. unfold record_floats in Hfl.
  apply Forall_app in Hfl as [Hz Hfl]. apply Forall_app in Hfl as [Hp Hfl].
  apply Forall_app in Hfl as [Hm Hfl]. apply Forall_app in Hfl as [HdH Hfl].
  apply Forall_app in Hfl as [HdCp Hnd].
  set (N := (List.length (z self) + List.length (_pKa_ref self)
             + List.length (_absolute_mobility_ref self)
             + List.length (option_floats (dH self))
             + List.length (option_floats (dCp self))
             + List.length (nightingale_floats (nightingale_data self))
             + 6)%nat).
  pose proof (Arr_length float_repr (map num_json (z self))) as Lz.
  pose proof (Arr_length float_repr (map Json.Float (_pKa_ref self))) as Lp.
  pose proof (Arr_length float_repr
                (map Json.Float (_absolute_mobility_ref self))) as Lm.
  pose proof (option_floats_length float_repr (dH self)) as LdH.
  pose proof (option_floats_length float_repr (dCp self)) as LdCp.
  pose proof (nightingale_length float_repr (nightingale_data self)) as Lnd.
  rewrite length_map in Lz, Lp, Lm.
  unfold serialize, record_json, serialize_nested.
  cbn [Serial.__ion__ Serial.name Serial.z Serial.pKa_ref
       Serial.absolute_mobility_ref Serial.dH Serial.dCp
       Serial.nightingale_data].
  set (fields := [(str "__ion__", Json.Bool true);
                  (str "name", Json.Str (name self));
                  (str "z", Json.Arr (map num_json (z self)));
                  (str "pKa_ref", floats_json (_pKa_ref self));
                  (str "absolute_mobility_ref",
                   floats_json (_absolute_mobility_ref self));
                  (str "dH", option_json floats_json (dH self));
                  (str "dCp", option_json floats_json (dCp self));
                  (str "nightingale_data",
                   option_json nightingale_json (nightingale_data self))]).
  assert (Hfields : Forall (fun kv => forallb scalar_value (fst kv) = true
                                      /\ reads N (snd kv)) fields).
  { unfold fields. repeat constructor; cbn [fst snd].
    - eapply reads_more; [|apply reads_Bool]. unfold N. lia.
    - eapply reads_more; [|apply reads_Str; exact Hname]. unfold N. lia.
    - eapply reads_more; [|apply reads_nums; exact Hz]. unfold N. lia.
    - eapply reads_more; [|apply reads_floats; exact Hp]. unfold N. lia.
    - eapply reads_more; [|apply reads_floats; exact Hm]. unfold N. lia.
    - eapply reads_more; [|apply reads_option_floats; exact HdH].
      unfold N. lia.
    - eapply reads_more; [|apply reads_option_floats; exact HdCp].
      unfold N. lia.
    - eapply reads_more; [|apply reads_nightingale; exact Hnd].
      unfold N. lia. }
  assert (Hlen : (N + 9 <= 2 * String.length (dumps (Json.Obj fields)) + 2)%nat).
  { rewrite dumps_Obj. unfold fields. cbn [JsonText.members].
    unfold floats_json in *.
    cbn [String.length]. rewrite !string_length_app.
    cbn [String.length]. unfold N. lia. }
  unfold Json.loads.
  rewrite dumps_Obj at 2. rewrite skip_ws_not_ws by reflexivity.
  rewrite <- dumps_Obj.
  rewrite <- (string_app_nil (dumps (Json.Obj fields))) at 2.
  rewrite (scan_Obj float_repr N fields _ "" Hfields).
  - reflexivity.
  - unfold fields at 1. cbn [List.length]. lia.
Qed.
End SerializedText.

Section SavedFile.
Variable float_repr : float -> string.

(** C9.  The saved file is a doubly encoded record.  For every Ion, [save]
    writes the JSON encoding of the text [serialize()] returns: a JSON
    parser reads the file as one string, that text, and never as an object.
    The text is itself the JSON encoding of the record: read by the parser
    in its turn, it is the dict with the Ion's fields, [__ion__], [name],
    [z], the reference lists, the thermal data and the Nightingale data,
    whenever a [str] can hold the name (no surrogate in it) and
    [float.__repr__] writes each float of the record so that it is read
    back, as it does. *)
Theorem saved_file_is_a_json_string (self : Ion) (filename : string)
        (fs : files) :
  exists content text,
    save float_repr self filename fs filename = Some content /\
    text = serialize float_repr self /\
    content = Json.encode_str (str text) /\
    Json.loads content = Some (Json.Str (str text)) /\
    (forall members, Json.loads content <> Some (Json.Obj members)) /\
    (forallb scalar_value (name self) = true ->
     Forall (JsonText.reads_back float_repr) (record_floats self) ->
     Json.loads text
     = Some (Json.Obj
               [(str "__ion__", Json.Bool true);
                (str "name", Json.Str (name self));
                (str "z", Json.Arr (map num_json (z self)));
                (str "pKa_ref", Json.Arr (map Json.Float (_pKa_ref self)));
                (str "absolute_mobility_ref",
                 Json.Arr (map Json.Float (_absolute_mobility_ref self)));
                (str "dH",
                 match dH self with
                 | Some l => Json.Arr (map Json.Float l)
                 | None => Json.Null
                 end);
                (str "dCp",
                 match dCp self with
                 | Some l => Json.Arr (map Json.Float l)
                 | None => Json.Null
                 end);
                (str "nightingale_data",
                 match nightingale_data self with
                 | Some nd =>
                     Json.Obj
                       [(str "fit",
                         Json.Arr (map Json.Float (Nightingale.fit nd)));
                        (str "min", Json.Float (Nightingale.min nd));
                        (str "max", Json.Float (Nightingale.max nd))]
                 | None => Json.Null
                 end)])).
Proof.
  exists (Json.encode_str (str (serialize float_repr self))),
    (serialize float_repr self).
  pose proof (loads_encode_str (serialize float_repr self)) as H.
  split; [|split; [reflexivity|split; [reflexivity|split; [exact H|split]]]].
  - unfold save, write_file. now rewrite String.eqb_refl.
  - intros members Hm. rewrite H in Hm. discriminate.
  - intros Hname Hfl. rewrite (loads_serialize float_repr self Hname Hfl).
    reflexivity.
Qed.
End SavedFile.

(** The two floats of acetic acid, as [acetic_repr] writes them, are read
    back. *)
Lemma acetic_repr_reads_back :
  Forall (JsonText.reads_back acetic_repr) (record_floats acetic_acid).
Proof.
  repeat constructor; intros [|c r] Hr; try discriminate;
    cbn [delimited] in Hr;
    repeat (apply orb_prop in Hr as [Hr|Hr]);
    apply Ascii.eqb_eq in Hr; subst c; vm_compute; reflexivity.
Defined.

(** Acetic acid, saved: the file is a string, and the text in the string
    is the record. *)
Lemma saved_file_is_a_json_string_witness :
  exists content text,
    save acetic_repr acetic_acid "acetic.json" (fun _ => None)
         "acetic.json"%string
    = Some content /\
    Json.loads content = Some (Json.Str (str text)) /\
    Json.loads text
    = Some (Json.Obj
              [(str "__ion__", Json.Bool true);
               (str "name", Json.Str (str "acetic acid"));
               (str "z", Json.Arr [Json.Int (-1)]);
               (str "pKa_ref", Json.Arr [Json.Float (PyFloat.dec 476 (-2))]);
               (str "absolute_mobility_ref",
                Json.Arr [Json.Float (PyFloat.dec (-424) (-10))]);
               (str "dH", Json.Null);
               (str "dCp", Json.Null);
               (str "nightingale_data", Json.Null)]).
Proof.
  destruct (saved_file_is_a_json_string acetic_repr acetic_acid "acetic.json"
              (fun _ => None))
    as (content & text & Hsave & Htext & Hcontent & Hstr & Hobj & Hrecord).
  exists content, text. split; [exact Hsave|]. split; [exact Hstr|].
  rewrite Hrecord.
  - vm_compute. reflexivity.
  - vm_compute. reflexivity.
  - exact acetic_repr_reads_back.
Defined.
